(** * Cisco 8945 configuration generator: form model and serializer

    A shallow embedding of [Cisco8945-generator.c]: the field registry
    ([fields], [total_fields]), the lookup helpers ([get_field], [val],
    [opt_val]), [sanitize_mac], [update_visibility], the registry builder
    ([add_field], [add_dropdown], [init_fields]), the option picker
    ([show_popup]), the text editor ([show_text_input]) and the serializer
    ([save_xml]).  Terminal drawing is left out; what the operator types is
    a parameter of the operation that reads it. *)

From Stdlib Require Import ZArith Ascii String List Bool Lia DecimalString.
From stdpp Require Import base list gmap strings relations.

Local Open Scope Z_scope.

(* ===================================================================== *)
(** ** C strings                                                          *)
(* ===================================================================== *)

Module CStr.

(** A C string is a [string] without the NUL character. *)
Definition NUL : ascii := Ascii.zero.

Definition chars (s : string) : list ascii := list_ascii_of_string s.
Definition of_chars (l : list ascii) : string := string_of_list_ascii l.

Definition is_nul (c : ascii) : bool := Ascii.eqb c NUL.

Definition well_formed (s : string) : Prop := Forall (fun c => c <> NUL) (chars s).

(** [s[0]] used as a truth value: the string is not empty. *)
Definition nonempty (s : string) : bool :=
  match s with EmptyString => false | String _ _ => true end.

(** [strcmp(a, b) == 0] *)
Definition streq (a b : string) : bool := String.eqb a b.

(** [strstr(hay, needle) != NULL] *)
Fixpoint strstr (hay needle : string) : bool :=
  if String.prefix needle hay then true
  else match hay with
       | EmptyString => false
       | String _ rest => strstr rest needle
       end.

(** [strncpy(dst, src, n)] into a zeroed buffer longer than [n]. *)
Definition strncpy (n : nat) (src : string) : string := String.substring 0 n src.

(** [s[i]] as an [int]; past the end the zeroed buffer reads 0. *)
Definition char_at (s : string) (i : nat) : Z :=
  match String.get i s with
  | Some c => Z.of_nat (nat_of_ascii c)
  | None => 0
  end.

Definition code (c : ascii) : Z := Z.of_nat (nat_of_ascii c).

(** [isxdigit] in the C locale. *)
Definition isxdigit (c : ascii) : bool :=
  let n := code c in
  ((48 <=? n) && (n <=? 57)) || ((65 <=? n) && (n <=? 70)) || ((97 <=? n) && (n <=? 102)).

(** [toupper] in the C locale. *)
Definition toupper (c : ascii) : ascii :=
  let n := code c in
  if (97 <=? n) && (n <=? 122) then ascii_of_nat (Z.to_nat (n - 32)) else c.

(** The contents of a [char] buffer read as a string: up to the first NUL. *)
Fixpoint c_str (buf : list ascii) : list ascii :=
  match buf with
  | [] => []
  | c :: rest => if is_nul c then [] else c :: c_str rest
  end.

(** [%d] *)
Definition dec (z : Z) : string := NilZero.string_of_int (Z.to_int z).

(** The escapes of a C literal that a string here cannot hold directly:
    [\n] is the newline and [\q] stands for the C escape of the double
    quote character. *)
Definition newline : ascii := "010"%char.
Definition dquote : ascii := "034"%char.

Fixpoint lit (s : string) : string :=
  match s with
  | EmptyString => EmptyString
  | String c rest =>
      if Ascii.eqb c "\"%char then
        match rest with
        | String d rest' =>
            if Ascii.eqb d "n"%char then String newline (lit rest')
            else if Ascii.eqb d "q"%char then String dquote (lit rest')
            else String c (String d (lit rest'))
        | EmptyString => String c EmptyString
        end
      else String c (lit rest)
  end.

End CStr.

Import CStr.

(* ===================================================================== *)
(** ** The field registry                                                 *)
(* ===================================================================== *)

Definition MAX_FIELDS : nat := 500.

Inductive FieldType := FT_MANDATORY | FT_OPTIONAL | FT_HEADER.

(** [options] and [xml_values] hold the rows that [add_dropdown] filled
    in; the other rows of the two 100-row arrays stay zeroed and read as the
    empty string.  [hidden] is the C [int] flag (1 = hidden, 0 = visible). *)
Record Field := mkField {
  label : string;
  value : string;
  xml : string;
  help : string;
  type : FieldType;
  options : list string;
  xml_values : list string;
  opt_count : Z;
  opt_sel : Z;
  hidden : bool
}.

(** An element of the zero-initialised global array. *)
Definition zero_field : Field :=
  mkField EmptyString EmptyString EmptyString EmptyString FT_MANDATORY [] [] 0 0 false.

#[global] Instance Field_inhabited : Inhabited Field := populate zero_field.

Definition set_value (v : string) (f : Field) : Field :=
  mkField (label f) v (xml f) (help f) (type f) (options f) (xml_values f)
          (opt_count f) (opt_sel f) (hidden f).

Definition set_opt_sel (z : Z) (f : Field) : Field :=
  mkField (label f) (value f) (xml f) (help f) (type f) (options f) (xml_values f)
          (opt_count f) z (hidden f).

Definition set_hidden (b : bool) (f : Field) : Field :=
  mkField (label f) (value f) (xml f) (help f) (type f) (options f) (xml_values f)
          (opt_count f) (opt_sel f) b.

(** Row [z] of a 100-row array of strings of which [rows] are filled.
    Outside the array the C read is undefined; it reads as empty here. *)
Definition row (rows : list string) (z : Z) : string :=
  if (0 <=? z) && (z <? 100) then nth (Z.to_nat z) rows EmptyString else EmptyString.

(** The program state: the globals [fields], [total_fields] and [current],
    and around them the files of the working directory and the status
    line of the screen (row [LINES - 2]). *)
Record State := mkState {
  fields : list Field;
  total_fields : nat;
  current : nat;
  disk : gmap string string;
  status_line : string
}.

Definition with_fields (fs : list Field) (st : State) : State :=
  mkState fs (total_fields st) (current st) (disk st) (status_line st).

Definition with_current (c : nat) (st : State) : State :=
  mkState (fields st) (total_fields st) c (disk st) (status_line st).

(** The state at program start: zeroed array, no field, cursor on row 1. *)
Definition boot (files : gmap string string) : State :=
  mkState (replicate MAX_FIELDS zero_field) 0 1 files EmptyString.

(** [fields[i]]; a read outside the array yields a zeroed element. *)
Definition field_at (fs : list Field) (i : nat) : Field := fs !!! i.

(** [fields[i - 1]] for an [int i]: index -1 lies outside the array. *)
Definition field_before (fs : list Field) (i : nat) : Field :=
  match i with
  | O => zero_field
  | S j => field_at fs j
  end.

(** [fields[i].m = ...]: a write outside the array is dropped. *)
Definition update_at (i : nat) (g : Field -> Field) (fs : list Field) : list Field :=
  match fs !! i with
  | Some f => <[i := g f]> fs
  | None => fs
  end.

(* ===================================================================== *)
(** ** Lookup helpers                                                     *)
(* ===================================================================== *)

(** The loop of [get_field] from index [i] with [n] iterations left; the
    returned pointer is the index of the element. *)
Fixpoint get_field_loop (fs : list Field) (xml_tag : string) (i n : nat) : option nat :=
  match n with
  | O => None
  | S n' =>
      if streq (xml (field_at fs i)) xml_tag then Some i
      else get_field_loop fs xml_tag (S i) n'
  end.

Definition get_field (st : State) (xml_tag : string) : option nat :=
  get_field_loop (fields st) xml_tag 0 (total_fields st).

Definition val (st : State) (tag : string) : string :=
  match get_field st tag with
  | Some i => value (field_at (fields st) i)
  | None => EmptyString
  end.

Definition opt_val (st : State) (tag : string) : string :=
  match get_field st tag with
  | Some i => let f := field_at (fields st) i in row (xml_values f) (opt_sel f)
  | None => EmptyString
  end.

(* ===================================================================== *)
(** ** MAC sanitization                                                   *)
(* ===================================================================== *)

(** The [for] loop of [sanitize_mac]: [clean] is the 128-byte buffer and
    [j] the write index; the loop ends at the terminating NUL of [src]. *)
Fixpoint sanitize_loop (src : list ascii) (clean : list ascii) (j : nat)
  : list ascii :=
  match src with
  | [] => clean
  | c :: rest =>
      if is_nul c then clean
      else if isxdigit c
           then sanitize_loop rest (<[j := toupper c]> clean) (S j)
           else sanitize_loop rest clean j
  end.

Definition sanitize_mac (src : string) : string :=
  let clean := replicate 128 NUL in
  let clean := sanitize_loop (chars src) clean 0 in
  let clean := <[12%nat := NUL]> clean in
  of_chars (c_str clean).

(** What the specification says sanitization computes. *)
Definition sanitize_spec (src : string) : string :=
  of_chars (take 12 (map toupper (List.filter isxdigit (chars src)))).

(** What fits the 128-byte [value] buffer of a field. *)
Definition fits_value (s : string) : Prop :=
  well_formed s /\ (String.length s < 128)%nat.

(* ===================================================================== *)
(** ** Visibility                                                         *)
(* ===================================================================== *)

(** One iteration of the loop of [update_visibility]. *)
Definition vis_step (i : nat) (fs : list Field) : list Field :=
  let fs :=
    if strstr (label (field_at fs i)) "Key Function" then
      let type := opt_sel (field_at fs i) in
      let fs := update_at (i + 1) (set_hidden (type =? 0)) fs in
      let fs := update_at (i + 2) (set_hidden (type =? 0)) fs in
      let fs := update_at (i + 3) (set_hidden (negb (type =? 1))) fs in
      let fs := update_at (i + 4) (set_hidden (negb (type =? 1))) fs in
      let fs := update_at (i + 5) (set_hidden (negb (type =? 1))) fs in
      let fs := update_at (i + 6) (set_hidden (negb (type =? 1))) fs in
      let fs := update_at (i + 7) (set_hidden (negb (type =? 1))) fs in
      update_at (i + 8) (set_hidden (negb (type =? 1))) fs
    else fs in
  let fs :=
    if streq (xml (field_at fs i)) "snmpCommunity"
    then update_at i (set_hidden (opt_sel (field_before fs i) =? 0)) fs
    else fs in
  let fs :=
    if streq (xml (field_at fs i)) "natAddress"
    then update_at i (set_hidden (opt_sel (field_before fs i) =? 0)) fs
    else fs in
  if streq (xml (field_at fs i)) "pcPortVlanId"
  then update_at i (set_hidden (negb (opt_sel (field_before fs i) =? 2))) fs
  else fs.

Definition visibility_loop (n : nat) (fs : list Field) : list Field :=
  fold_left (fun fs i => vis_step i fs) (seq 0 n) fs.

Definition update_visibility (st : State) : State :=
  with_fields (visibility_loop (total_fields st) (fields st)) st.

(* ===================================================================== *)
(** ** printf formats                                                     *)
(* ===================================================================== *)

Inductive arg := AStr (s : string) | AInt (z : Z).

Definition show_arg (a : arg) : string :=
  match a with
  | AStr s => s
  | AInt z => dec z
  end.

(** The conversions the program uses are [%s] and [%d]. *)
Fixpoint sprintf (fmt : string) (args : list arg) : string :=
  match fmt with
  | EmptyString => EmptyString
  | String c rest =>
      if Ascii.eqb c "%"%char then
        match rest with
        | String d rest' =>
            if Ascii.eqb d "s"%char || Ascii.eqb d "d"%char then
              match args with
              | a :: args' => String.append (show_arg a) (sprintf rest' args')
              | [] => sprintf rest' []
              end
            else String c (String d (sprintf rest' args))
        | EmptyString => String c EmptyString
        end
      else String c (sprintf rest args)
  end.

(* ===================================================================== *)
(** ** Building the registry                                              *)
(* ===================================================================== *)

(** Statements that change the state, run one after the other. *)
Definition stmt := State -> State.

Definition seq_stmt (s t : stmt) : stmt := fun st => t (s st).

Declare Scope stmt_scope.
Delimit Scope stmt_scope with stmt.
Bind Scope stmt_scope with stmt.
Notation "s ;; t" := (seq_stmt s t)
  (at level 100, t at level 200, right associativity) : stmt_scope.

Fixpoint for_each {A} (l : list A) (body : A -> stmt) : stmt :=
  match l with
  | [] => fun st => st
  | x :: rest => seq_stmt (body x) (for_each rest body)
  end.

Definition set_total_fields (n : nat) : stmt :=
  fun st => mkState (fields st) n (current st) (disk st) (status_line st).

Definition add_field (lbl : string) (xml_tag : option string) (t : FieldType)
    (hlp : string) (hide : Z) : stmt := fun st =>
  let i := total_fields st in
  let fs :=
    update_at i (fun f =>
      mkField (strncpy 63 lbl) EmptyString (strncpy 63 (default EmptyString xml_tag))
              (strncpy 511 hlp) t (options f) (xml_values f) 0 (opt_sel f)
              (negb (hide =? 0)))
      (fields st) in
  mkState fs (S i) (current st) (disk st) (status_line st).

(** [a[z]] for an array of strings passed by the caller. *)
Definition elem (a : list string) (z : Z) : string :=
  if z <? 0 then EmptyString else nth (Z.to_nat z) a EmptyString.

(** Rows [0 .. count-1] of an option array are overwritten. *)
Definition fill_rows (count : Z) (src old : list string) : list string :=
  map (strncpy 63) (take (Z.to_nat count) src) ++ drop (Z.to_nat count) old.

(** [add_dropdown].  The options and their encoded values are cut to 63
    characters by [strncpy]; the label of the default is copied whole by
    [strcpy(f->value, opts[def])], which stays inside the 128-byte value
    buffer for a label shorter than 128 characters: for such labels, those
    of every call in [init_fields] among them, this is the code. *)
Definition add_dropdown (lbl : string) (xml_tag : option string) (hlp : string)
    (opts vals : list string) (count def hide : Z) : stmt := fun st =>
  let st := add_field lbl xml_tag FT_OPTIONAL hlp hide st in
  let i := (total_fields st - 1)%nat in
  let fs :=
    update_at i (fun f =>
      mkField (label f) (elem opts def) (xml f) (help f) (type f)
              (fill_rows count opts (options f))
              (fill_rows count vals (xml_values f))
              count def (hidden f))
      (fields st) in
  with_fields fs st.

(** The constant arrays of [init_fields]. *)
Section Tables.
Local Open Scope string_scope.

Definition dis_en : list string :=
  ["Disabled"; "Enabled"].

Definition dis_en_val : list string :=
  ["0"; "1"].

Definition no_yes : list string :=
  ["No"; "Yes"].

Definition no_yes_val : list string :=
  ["false"; "true"].

Definition transports : list string :=
  ["UDP"; "TCP"; "TLS"].

Definition trans_vals : list string :=
  ["1"; "2"; "3"].

Definition codecs : list string :=
  ["G.711u (Standard US)"; "G.711a (Standard EU)"; "G.722 (HD Audio)";
   "G.729 (Compressed)"].

Definition codec_vals : list string :=
  ["PCMU"; "PCMA"; "G722"; "G729"].

Definition date_fmts : list string :=
  ["M/D/Y"; "D/M/Y"; "Y/M/D"].

Definition date_vals : list string :=
  ["M/D/Y"; "D/M/Y"; "Y/M/D"].

Definition time_fmts : list string :=
  ["12 Hour"; "24 Hour"].

Definition time_vals : list string :=
  ["12"; "24"].

Definition bitrates : list string :=
  ["384k"; "768k"; "1.5M"; "2.5M"; "4M"].

Definition bit_vals : list string :=
  ["384"; "768"; "1500"; "2500"; "4000"].

Definition tz_names : list string :=
  ["Dateline Standard Time (GMT-12)"; "Samoa Standard Time (GMT-11)";
   "Hawaiian Standard Time (GMT-10)"; "Alaskan Standard Time (GMT-9)";
   "Pacific Standard/Daylight Time (GMT-8)";
   "Mountain Standard/Daylight Time (GMT-7)";
   "US Mountain Standard Time (GMT-7)";
   "Central Standard/Daylight Time (GMT-6)";
   "Mexico Standard/Daylight Time (GMT-6)";
   "Canada Central Standard Time (GMT-6)";
   "SA Pacific Standard Time (GMT-5)";
   "Eastern Standard/Daylight Time (GMT-5)";
   "US Eastern Standard Time (GMT-5)"; "Atlantic Standard Time (GMT-4)";
   "SA Western Standard Time (GMT-4)";
   "Newfoundland Standard Time (GMT-3.5)";
   "E. South America Standard Time (GMT-3)";
   "SA Eastern Standard Time (GMT-3)"; "Mid-Atlantic Standard Time (GMT-2)";
   "Azores Standard Time (GMT-1)"; "GMT Standard/Daylight Time (GMT)";
   "Greenwich Standard Time (GMT)";
   "W. Europe Standard/Daylight Time (GMT+1)";
   "GTB Standard/Daylight Time (GMT+2)";
   "Egypt Standard/Daylight Time (GMT+2)";
   "E. Europe Standard/Daylight Time (GMT+2)";
   "Romance Standard/Daylight Time (GMT+2)"; "Russian Standard Time (GMT+3)";
   "Near East Standard/Daylight Time (GMT+3)";
   "Iran Standard Time (GMT+3.5)"; "Arabian Standard Time (GMT+4)";
   "Caucasus Standard/Daylight Time (GMT+4)";
   "Transitional Islamic State of Afghanistan Standard Time (GMT+4.5)";
   "Ekaterinburg Standard Time (GMT+5)"; "West Asia Standard Time (GMT+5)";
   "India Standard Time (GMT+5.5)"; "Nepal Standard Time (GMT+5.75)";
   "Central Asia Standard Time (GMT+6)"; "Sri Lanka Standard Time (GMT+6)";
   "N. Central Asia Standard Time (GMT+6)";
   "Myanmar Standard Time (GMT+6.5)"; "SE Asia Standard Time (GMT+7)";
   "North Asia Standard Time (GMT+7)";
   "China Standard/Daylight Time (GMT+8)"; "Singapore Standard Time (GMT+8)";
   "Taipei Standard Time (GMT+8)"; "W. Australia Standard Time (GMT+8)";
   "North Asia East Standard Time (GMT+8)"; "Korea Standard Time (GMT+9)";
   "Tokyo Standard Time (GMT+9)"; "Yakutsk Standard Time (GMT+9)";
   "Aus Central Standard Time (GMT+9.5)";
   "Cen. Australia Standard/Daylight Time (GMT+9.5)";
   "Aus Eastern Standard/Daylight Time (GMT+10)";
   "E. Australia Standard Time (GMT+10)";
   "Vladivostok Standard Time (GMT+10)";
   "Tasmania Standard/Daylight Time (GMT+10)";
   "Central Pacific Standard Time (GMT+11)";
   "New Zealand Standard/Daylight Time (GMT+12)"; "Fiji Standard Time"].

Definition tz_vals : list string :=
  ["Dateline Standard Time"; "Samoa Standard Time"; "Hawaiian Standard Time";
   "Alaskan Standard Time"; "Pacific Standard/Daylight Time";
   "Mountain Standard/Daylight Time"; "US Mountain Standard Time";
   "Central Standard/Daylight Time"; "Mexico Standard/Daylight Time";
   "Canada Central Standard Time"; "SA Pacific Standard Time";
   "Eastern Standard/Daylight Time"; "US Eastern Standard Time";
   "Atlantic Standard Time"; "SA Western Standard Time";
   "Newfoundland Standard Time"; "E. South America Standard Time";
   "SA Eastern Standard Time"; "Mid-Atlantic Standard Time";
   "Azores Standard Time"; "GMT Standard/Daylight Time";
   "Greenwich Standard Time"; "W. Europe Standard/Daylight Time";
   "GTB Standard/Daylight Time"; "Egypt Standard/Daylight Time";
   "E. Europe Standard/Daylight Time"; "Romance Standard/Daylight Time";
   "Russian Standard Time"; "Near East Standard/Daylight Time";
   "Iran Standard Time"; "Arabian Standard Time";
   "Caucasus Standard/Daylight Time";
   "Transitional Islamic State of Afghanistan Standard Time";
   "Ekaterinburg Standard Time"; "West Asia Standard Time";
   "India Standard Time"; "Nepal Standard Time";
   "Central Asia Standard Time"; "Sri Lanka Standard Time";
   "N. Central Asia Standard Time"; "Myanmar Standard Time";
   "SE Asia Standard Time"; "North Asia Standard Time";
   "China Standard/Daylight Time"; "Singapore Standard Time";
   "Taipei Standard Time"; "W. Australia Standard Time";
   "North Asia East Standard Time"; "Korea Standard Time";
   "Tokyo Standard Time"; "Yakutsk Standard Time";
   "Aus Central Standard Time"; "Cen. Australia Standard/Daylight Time";
   "Aus Eastern Standard/Daylight Time"; "E. Australia Standard Time";
   "Vladivostok Standard Time"; "Tasmania Standard/Daylight Time";
   "Central Pacific Standard Time"; "New Zealand Standard/Daylight Time";
   "Fiji Standard Time"].

Definition btn_types : list string :=
  ["Disabled"; "Line"; "SpeedDial"; "BLF"].

Definition btn_vals : list string :=
  ["0"; "1"; "2"; "3"].

Definition locales : list string :=
  ["US (English)"; "UK (English)"; "France (French)"; "Germany (German)";
   "Spain (Spanish)"].

Definition locale_vals : list string :=
  ["United_States"; "United_Kingdom"; "France"; "Germany"; "Spain"].

Definition net_locales : list string :=
  ["United States"; "United Kingdom"; "France"; "Germany"; "Spain"].

Definition net_locale_vals : list string :=
  ["United_States"; "United_Kingdom"; "France"; "Germany"; "Spain"].

Definition bt_profiles : list string :=
  ["Handsfree Only"; "Headset Only"; "Both"].

Definition bt_vals : list string :=
  ["Handsfree"; "Headset"; "Handsfree,Headset"].

Definition dnd_alerts : list string :=
  ["None"; "Flash Screen"; "Beep"; "Flash & Beep"].

Definition dnd_vals : list string :=
  ["0"; "5"; "1"; "2"].

Definition pc_vlan_modes : list string :=
  ["Native / Untagged"; "Tag with Voice VLAN"; "Tag with Specific VLAN"].

Definition pc_vlan_vals : list string :=
  ["0"; "1"; "2"].


End Tables.

(** [init_fields]: the whole form, section by section. *)
Section InitFields.
Local Open Scope string_scope.
Local Open Scope stmt_scope.

(** The body of the loop over the four buttons. *)
Definition init_button (i : Z) : stmt :=
  let b := sprintf "=== BUTTON %d ===" [AInt i] in
  add_field b None FT_HEADER "Line Configuration" 0 ;;
  let b := sprintf "Key Function" [] in
  add_dropdown b (Some "lineType")
    "Choose 'Line' for a standard extension, 'SpeedDial' for 1-touch calling, or 'BLF' to monitor if a colleague is on the phone."
    btn_types btn_vals 4 (if Z.eqb i 1 then 1 else 0) 0 ;;
  add_field "Extension" (Some "name") FT_OPTIONAL
    "The phone number for this line (e.g. 1001)." 0 ;;
  add_field "Label" (Some "displayName") FT_OPTIONAL
    "Label shown next to the button (e.g. 'Line 1')." 0 ;;
  add_field "Auth ID" (Some "authName") FT_OPTIONAL
    "SIP Username (Often the same as Extension, but check provider)." 0 ;;
  add_field "SIP Password" (Some "authPassword") FT_OPTIONAL
    "SIP Password for this extension." 0 ;;
  add_dropdown "Auto Answer" (Some "autoAnswerEnabled")
    "If Enabled, the phone answers calls automatically on speaker." dis_en
    dis_en_val 2 0 1 ;;
  add_field "Forward All" (Some "callForwardURI") FT_OPTIONAL
    "Number to forward calls to unconditionally." 1 ;;
  add_field "Pickup Group" (Some "callPickupGroupURI") FT_OPTIONAL
    "Code to dial to pick up a call ringing in your group." 1 ;;
  add_field "Voicemail #" (Some "voiceMailPilot") FT_OPTIONAL
    "Number dialed when the 'Messages' button is pressed." 1.

Definition init_fields : stmt :=
  set_total_fields 0 ;;
  add_field "=== IDENTITY & NETWORK ===" None FT_HEADER "Core System Settings"
    0 ;;
  add_field "MAC Address" (Some "device") FT_MANDATORY
    "REQUIRED: The unique 12-char ID on the back of the phone." 0 ;;
  add_field "Phone Label" (Some "deviceLabel") FT_OPTIONAL
    "Custom text shown in the top status bar (e.g. 'Reception')." 0 ;;
  add_field "Primary PBX IP" (Some "processNodeName1") FT_MANDATORY
    "REQUIRED: IP Address of your SIP Server / PBX (e.g. 192.168.1.10)." 0 ;;
  add_field "Secondary PBX" (Some "processNodeName2") FT_OPTIONAL
    "Backup Server IP (e.g. 192.168.1.11). Leave blank if none." 0 ;;
  add_field "Tertiary PBX" (Some "processNodeName3") FT_OPTIONAL
    "Second Backup Server IP. Leave blank if none." 0 ;;
  add_dropdown "Transport" (Some "transportLayerProtocol")
    "Network Protocol. UDP (Standard) is faster with lower overhead. Use TCP/TLS only if your provider requires reliable or encrypted signaling."
    transports trans_vals 3 0 0 ;;
  add_field "Firmware Load" (Some "loadInformation") FT_OPTIONAL
    "Specific firmware version to load (e.g. sip8941_45.9-4-2-13). Leave blank to use the default load defined in the TFTP server config."
    0 ;;
  add_field "SIP Port" (Some "voipControlPort") FT_OPTIONAL
    "Port for SIP Signaling. Default is 5060. changing this may require firewall adjustments."
    0 ;;
  add_field "=== ETHERNET & VLAN ===" None FT_HEADER
    "Network Layer 2 Settings" 0 ;;
  add_field "Voice VLAN ID" (Some "adminVlanId") FT_OPTIONAL
    "VLAN ID for Voice traffic. Leave blank if Network Port is untagged." 0 ;;
  add_dropdown "PC Port VLAN Mode" (Some "pcVoiceVlanAccess")
    "Determines which VLAN the computer connected to the phone will use."
    pc_vlan_modes pc_vlan_vals 3 0 0 ;;
  add_field "PC VLAN ID" (Some "pcPortVlanId") FT_OPTIONAL
    "Enter the VLAN ID for the computer (Data VLAN)." 1 ;;
  add_dropdown "Span to PC" (Some "spanToPCPort")
    "Advanced: Copies all phone audio/traffic to the PC port. Used for Wireshark/Packet Capture. WARNING: Can reduce network performance."
    dis_en dis_en_val 2 0 0 ;;
  add_dropdown "Gratuitous ARP" (Some "gratuitousARP")
    "Send ARP updates on boot. Critical for scenarios where the Router might not know where the phone is (e.g. redundant links). (Rec: Enabled)"
    dis_en dis_en_val 2 1 0 ;;
  add_field "MTU Size" (Some "mtu") FT_OPTIONAL
    "Max Transmission Unit. 1500 is Ethernet Standard. Use 1300-1400 for VPNs to prevent packet fragmentation and dropped calls."
    0 ;;
  add_field "=== SECURITY & ACCESS ===" None FT_HEADER "Device Access Control"
    0 ;;
  add_dropdown "Settings Lock" (Some "settingsAccess")
    "Locks the 'Settings' menu on the phone screen to prevent changes." dis_en
    dis_en_val 2 1 0 ;;
  add_dropdown "Web Access" (Some "webAccess")
    "Enables the phone's web page for viewing/changing settings." dis_en
    dis_en_val 2 1 0 ;;
  add_dropdown "SSH Access" (Some "sshAccess")
    "Enables SSH for advanced remote administration." dis_en dis_en_val 2 0 0 ;;
  add_field "SSH Username" (Some "sshUserId") FT_OPTIONAL
    "Username for SSH login." 0 ;;
  add_field "SSH Password" (Some "sshPassword") FT_OPTIONAL
    "Password for SSH login." 0 ;;
  add_field "Admin Password" (Some "adminPassword") FT_OPTIONAL
    "Password to unlock the Settings menu or Web Interface." 0 ;;
  add_dropdown "PC Port" (Some "pcPort")
    "Enable/Disable the PC Ethernet port." dis_en dis_en_val 2 1 0 ;;
  add_field "=== HARDWARE ===" None FT_HEADER "Physical Peripherals" 0 ;;
  add_dropdown "Bluetooth" (Some "bluetooth") "Enable Bluetooth Radio." dis_en
    dis_en_val 2 1 0 ;;
  add_dropdown "BT Profiles" (Some "bluetoothProfile")
    "Allowed BT Profiles (Handsfree/Headset)." bt_profiles bt_vals 3 2 0 ;;
  add_field "=== AUDIO & VIDEO ===" None FT_HEADER "Codecs and Call Quality" 0 ;;
  add_dropdown "Preferred Codec" (Some "preferredCodec")
    "Audio quality. G.711 is standard. G.729 is compressed." codecs codec_vals
    4 0 0 ;;
  add_dropdown "Advertise G.722" (Some "advertiseG722Codec")
    "Advertise G.722 support for High Definition calls." dis_en dis_en_val 2 1
    0 ;;
  add_field "Audio DSCP" (Some "dscpForAudio") FT_OPTIONAL
    "QoS Packet Tagging. 184 (EF - Expedited Forwarding) is the industry standard for Voice. Ensure your Switch/Router respects this tag."
    0 ;;
  add_field "RTP Min Port" (Some "startMediaPort") FT_OPTIONAL
    "Start of UDP Port range for Audio/Video. Default 16384. Ensure your Firewall allows this range inbound/outbound."
    0 ;;
  add_field "RTP Max Port" (Some "stopMediaPort") FT_OPTIONAL
    "End of UDP Port range for Audio/Video. Default 32766. Range must be large enough to handle concurrent calls."
    0 ;;
  add_dropdown "Video Enable" (Some "videoCapability")
    "Enable the built-in camera for video calls. Requires a PBX that supports Video (H.264)."
    no_yes no_yes_val 2 1 0 ;;
  add_dropdown "Start Video on Answer" (Some "autoTransmitVideo")
    "Control if video starts automatically when you answer. 'No' provides privacy (Audio only) until you press the Video button. 'Yes' sends video immediately upon answering."
    no_yes no_yes_val 2 0 0 ;;
  add_dropdown "Video Quality" (Some "videoBitRate")
    "Max bandwidth/quality for Video. Select based on your upload speed. 1.5M+ recommended for HD 720p."
    bitrates bit_vals 5 2 0 ;;
  add_field "Video DSCP" (Some "dscpForVideo") FT_OPTIONAL
    "QoS Tag for Video. 136 (AF41) is standard. Set lower priority than Audio to prioritize voice clarity."
    0 ;;
  add_dropdown "RTCP Stats" (Some "rtcp")
    "Send detailed call quality reports (Jitter/Latency constraints) to the SIP Server."
    dis_en dis_en_val 2 1 0 ;;
  add_field "=== FEATURES ===" None FT_HEADER "Do Not Disturb & User Features"
    0 ;;
  add_dropdown "Do Not Disturb" (Some "dndControl")
    "Show the 'Do Not Disturb' button on the main screen." dis_en dis_en_val 2
    1 0 ;;
  add_dropdown "DND Alert" (Some "dndCallAlert")
    "How to notify you of incoming calls when DND is active." dnd_alerts
    dnd_vals 4 1 0 ;;
  add_field "DND Timer" (Some "dndReminderTimer") FT_OPTIONAL
    "Play a reminder tone every X minutes when DND is active." 0 ;;
  add_dropdown "NAT Enabled" (Some "natEnabled")
    "Select 'Yes' if this phone is behind a home router/firewall. Essential for remote phones."
    no_yes no_yes_val 2 0 0 ;;
  add_field "NAT Address" (Some "natAddress") FT_OPTIONAL
    "The Public IP Address of your internet connection. PRO TIP: If you have 'One-Way Audio' (can't hear caller), setting this usually fixes it."
    1 ;;
  add_field "=== MONITORING ===" None FT_HEADER "SNMP & Syslog" 0 ;;
  add_dropdown "SNMP Enable" (Some "snmpEnabled") "Enable Remote Monitoring."
    dis_en dis_en_val 2 0 0 ;;
  add_field "Community String" (Some "snmpCommunity") FT_OPTIONAL
    "SNMP Password (e.g. public)." 1 ;;
  add_field "Syslog Server" (Some "syslogAddr") FT_OPTIONAL
    "IP Address for sending Debug Logs (e.g. 192.168.1.50)." 0 ;;
  add_field "=== REGION & TIME ===" None FT_HEADER "Localization" 0 ;;
  add_dropdown "Language" (Some "userLocale")
    "Screen Language (Load from Server)." locales locale_vals 5 0 0 ;;
  add_dropdown "Dial Tones" (Some "networkLocale")
    "Sets the specific frequencies for Dial Tone, Busy Signal, and Ringback. Must match your region (e.g. US vs UK) or calls may sound 'wrong'."
    net_locales net_locale_vals 5 0 0 ;;
  add_field "Dial Plan" (Some "dialTemplate") FT_OPTIONAL
    "Dialing Rules File (e.g. dialplan.xml)." 0 ;;
  add_dropdown "Time Zone" (Some "timeZone") "Local Time Zone." tz_names
    tz_vals 58 4 0 ;;
  add_field "NTP Server" (Some "ntpServer") FT_OPTIONAL
    "Time Server IP (e.g. pool.ntp.org or 4.2.2.2)." 0 ;;
  add_dropdown "Date Format" (Some "dateTemplate") "Display format." date_fmts
    date_vals 3 0 0 ;;
  add_dropdown "Time Format" (Some "timeFormat") "Clock format." time_fmts
    time_vals 2 0 0 ;;
  add_field "=== EXTERNAL URLS ===" None FT_HEADER "Integration Links" 0 ;;
  add_field "Directory URL" (Some "directoryURL") FT_OPTIONAL
    "URL for the Corporate Phonebook." 0 ;;
  add_field "Services URL" (Some "servicesURL") FT_OPTIONAL
    "URL for the Services Menu." 0 ;;
  add_field "Auth URL" (Some "authenticationURL") FT_OPTIONAL
    "URL for validating Services." 0 ;;
  add_field "Info URL" (Some "informationURL") FT_OPTIONAL
    "URL for the '?' Help button." 0 ;;
  add_field "Softkey Template" (Some "softKeyFile") FT_OPTIONAL
    "XML file on TFTP server defining button layouts (e.g. softkeys.xml). Allows removing/reordering buttons like 'Redial'."
    0 ;;
  add_field "Idle/Saver URL" (Some "idleURL") FT_OPTIONAL
    "URL to an XML file for the screensaver. Activated when phone is idle for the Timeout duration."
    0 ;;
  add_field "Saver Timeout" (Some "idleTimeout") FT_OPTIONAL
    "Time in seconds before the screensaver starts (e.g. 300 = 5 Minutes). Set to 0 to disable."
    0 ;;
  add_field "Wallpaper URL" (Some "backgroundImage") FT_OPTIONAL
    "URL to a Background Image. SPECS: 640x480 resolution, PNG format, 24-bit Color Depth. Other formats (JPG/BMP) will NOT work."
    0 ;;
  for_each [1; 2; 3; 4] init_button ;;
  update_visibility.

End InitFields.

(* ===================================================================== *)
(** ** Editing a field                                                    *)
(* ===================================================================== *)

(** Key codes of the curses library. *)
Definition KEY_DOWN : Z := 258.
Definition KEY_UP : Z := 259.
Definition KEY_ENTER : Z := 343.

Definition is_enter (ch : Z) : bool :=
  (ch =? 10) || (ch =? 13) || (ch =? KEY_ENTER).

(** The [while (1)] loop of [show_popup] over the keys the operator
    presses: [Some sel] when a choice is confirmed, [None] on Escape, and
    [None] too while [wgetch] still waits for a key. *)
Fixpoint popup_loop (opt_count sel : Z) (keys : list Z) : option Z :=
  match keys with
  | [] => None
  | ch :: keys' =>
      if (ch =? KEY_UP) && (sel >? 0) then popup_loop opt_count (sel - 1) keys'
      else if (ch =? KEY_DOWN) && (sel <? opt_count - 1)
           then popup_loop opt_count (sel + 1) keys'
      else if is_enter ch then Some sel
      else if ch =? 27 then None
      else popup_loop opt_count sel keys'
  end.

(** [show_popup(&fields[i])] *)
Definition show_popup (keys : list Z) (i : nat) : stmt := fun st =>
  let f := field_at (fields st) i in
  match popup_loop (opt_count f) (opt_sel f) keys with
  | Some sel =>
      let fs :=
        update_at i (fun f => set_value (row (options f) sel) (set_opt_sel sel f))
                  (fields st) in
      update_visibility (with_fields fs st)
  | None => st
  end.

(** [show_text_input(&fields[i])]: [typed] is the line the operator
    enters, of which [mvwgetnstr] keeps at most 127 characters. *)
Definition show_text_input (typed : string) (i : nat) : stmt := fun st =>
  let fs :=
    update_at i (fun f =>
      let v := strncpy 127 typed in
      set_value (if strstr (label f) "MAC" then sanitize_mac v else v) f)
      (fields st) in
  with_fields fs st.

(* ===================================================================== *)
(** ** The serializer                                                     *)
(* ===================================================================== *)

(** One call of [fprintf(fp, fmt, ...)]. *)
Record call := Fprintf { c_fmt : string; c_args : list arg }.

Definition render (c : call) : string := sprintf (c_fmt c) (c_args c).

(** What a sequence of calls writes to the file. *)
Definition written (cs : list call) : string :=
  fold_right String.append EmptyString (map render cs).

Definition fprintf (fmt : string) (args : list arg) : list call :=
  [Fprintf (lit fmt) args].

Definition when (c : bool) (body : list call) : list call :=
  if c then body else [].

Section Serializer.
Local Open Scope string_scope.
Local Open Scope Z_scope.
Local Open Scope list_scope.

(** The body of the loop over the fields that writes the [line] elements. *)
Definition line_block (st : State) (i : nat) : list call :=
  let fs := fields st in
  when (strstr (label (field_at fs i)) "Key Function" && (opt_sel (field_at fs i) >? 0))
    (let b := char_at (label (field_at fs i)) 1 - code "0" in
     fprintf "    <line button=\q%d\q>\n      <featureID>%s</featureID>\n"
       [AInt b; AStr (if (opt_sel (field_at fs i) =? 1)%Z then "9" else "21")] ++
     fprintf "      <name>%s</name>\n      <displayName>%s</displayName>\n"
       [AStr (value (field_at fs (i + 1))); AStr (value (field_at fs (i + 2)))] ++
     when (opt_sel (field_at fs i) =? 1)
       (fprintf "      <authName>%s</authName>\n      <authPassword>%s</authPassword>\n"
          [AStr (value (field_at fs (i + 3))); AStr (value (field_at fs (i + 4)))] ++
        when (opt_sel (field_at fs (i + 5)) =? 1)
          (fprintf "      <autoAnswerEnabled>2</autoAnswerEnabled>\n      <autoAnswerTimer>1</autoAnswerTimer>\n" []) ++
        when (nonempty (value (field_at fs (i + 6))))
          (fprintf "      <callForwardURI>%s</callForwardURI>\n"
             [AStr (value (field_at fs (i + 6)))]) ++
        when (nonempty (value (field_at fs (i + 7))))
          (fprintf "      <callPickupGroupURI>%s</callPickupGroupURI>\n"
             [AStr (value (field_at fs (i + 7)))]) ++
        (let vm := val st "voiceMailPilot" in
         when (nonempty vm)
           (fprintf "      <voiceMailPilot>%s</voiceMailPilot>\n" [AStr vm]))) ++
     fprintf "    </line>\n" []).

(** The calls of [save_xml] between [fopen] and [fclose]. *)
Definition xml_document (st : State) : list call :=
  fprintf "<?xml version=\q1.0\q encoding=\qUTF-8\q?>\n<device>\n" [] ++
  fprintf "  <deviceProtocol>SIP</deviceProtocol>\n" [] ++
  (let lbl := val st "deviceLabel" in
   when (nonempty lbl) (fprintf "  <deviceLabel>%s</deviceLabel>\n" [AStr lbl])) ++
  (let load := val st "loadInformation" in
   when (nonempty load)
     (fprintf "  <loadInformation>%s</loadInformation>\n" [AStr load])) ++
  (* Call Manager Group *)
  fprintf "  <callManagerGroup>\n    <members>\n" [] ++
  (let port := val st "voipControlPort" in
   let port := if negb (nonempty port) then "5060" else port in
   (* Primary *)
   fprintf "      <member priority=\q0\q>\n        <callManager>\n" [] ++
   fprintf "          <ports>\n            <ethernetPhonePort>%s</ethernetPhonePort>\n          </ports>\n"
     [AStr port] ++
   fprintf "          <processNodeName>%s</processNodeName>\n"
     [AStr (val st "processNodeName1")] ++
   fprintf "        </callManager>\n      </member>\n" [] ++
   (* Secondary *)
   (let s_pbx := val st "processNodeName2" in
    when (nonempty s_pbx)
      (fprintf "      <member priority=\q1\q>\n        <callManager>\n" [] ++
       fprintf "          <ports>\n            <ethernetPhonePort>%s</ethernetPhonePort>\n          </ports>\n"
         [AStr port] ++
       fprintf "          <processNodeName>%s</processNodeName>\n" [AStr s_pbx] ++
       fprintf "        </callManager>\n      </member>\n" [])) ++
   (* Tertiary *)
   (let t_pbx := val st "processNodeName3" in
    when (nonempty t_pbx)
      (fprintf "      <member priority=\q2\q>\n        <callManager>\n" [] ++
       fprintf "          <ports>\n            <ethernetPhonePort>%s</ethernetPhonePort>\n          </ports>\n"
         [AStr port] ++
       fprintf "          <processNodeName>%s</processNodeName>\n" [AStr t_pbx] ++
       fprintf "        </callManager>\n      </member>\n" []))) ++
  fprintf "    </members>\n  </callManagerGroup>\n" [] ++
  (* Date/Time *)
  fprintf "  <dateTimeSetting>\n" [] ++
  (let ntp := val st "ntpServerAddr" in
   when (nonempty ntp) (fprintf "    <ntpServerAddr>%s</ntpServerAddr>\n" [AStr ntp])) ++
  fprintf "    <timeZone>%s</timeZone>\n" [AStr (opt_val st "timeZone")] ++
  (let df := opt_val st "dateTemplate" in
   when (nonempty df) (fprintf "    <dateTemplate>%s</dateTemplate>\n" [AStr df])) ++
  (let tf := opt_val st "timeFormat" in
   when (nonempty tf) (fprintf "    <timeFormat>%s</timeFormat>\n" [AStr tf])) ++
  fprintf "  </dateTimeSetting>\n" [] ++
  (* SIP Stack *)
  fprintf "  <sipStack>\n" [] ++
  fprintf "    <transportLayerProtocol>%s</transportLayerProtocol>\n"
    [AStr (opt_val st "transportLayerProtocol")] ++
  (let nat := get_field st "natEnabled" in
   when (match nat with
         | Some n => opt_sel (field_at (fields st) n) =? 1
         | None => false
         end)
     (fprintf "    <natEnabled>true</natEnabled>\n    <natAddress>%s</natAddress>\n"
        [AStr (val st "natAddress")])) ++
  fprintf "  </sipStack>\n" [] ++
  (* Locales *)
  fprintf "  <userLocale>\n    <name>%s</name>\n    <langCode>%s</langCode>\n  </userLocale>\n"
    [AStr (opt_val st "userLocale"); AStr (opt_val st "userLocale")] ++
  fprintf "  <networkLocale>%s</networkLocale>\n" [AStr (opt_val st "networkLocale")] ++
  (* Ethernet & VLANs *)
  fprintf "  <ethernetConfig>\n" [] ++
  (let vvlan := val st "adminVlanId" in
   when (nonempty vvlan) (fprintf "    <adminVlanId>%s</adminVlanId>\n" [AStr vvlan])) ++
  (let pvlan := val st "pcPortVlanId" in
   when (nonempty pvlan) (fprintf "    <pcPortVlanId>%s</pcPortVlanId>\n" [AStr pvlan])) ++
  fprintf "  </ethernetConfig>\n" [] ++
  (* SIP Lines Loop *)
  fprintf "  <sipLines>\n" [] ++
  flat_map (line_block st) (seq 0 (total_fields st)) ++
  fprintf "  </sipLines>\n" [] ++
  (* Vendor Config *)
  fprintf "  <vendorConfig>\n" [] ++
  fprintf "    <settingsAccess>%s</settingsAccess>\n" [AStr (opt_val st "settingsAccess")] ++
  fprintf "    <webAccess>%s</webAccess>\n" [AStr (opt_val st "webAccess")] ++
  fprintf "    <sshAccess>%s</sshAccess>\n" [AStr (opt_val st "sshAccess")] ++
  (let sshUser := val st "sshUserId" in
   when (nonempty sshUser) (fprintf "    <sshUserId>%s</sshUserId>\n" [AStr sshUser])) ++
  (let sshPass := val st "sshPassword" in
   when (nonempty sshPass) (fprintf "    <sshPassword>%s</sshPassword>\n" [AStr sshPass])) ++
  (let admPass := val st "adminPassword" in
   when (nonempty admPass)
     (fprintf "    <adminPassword>%s</adminPassword>\n" [AStr admPass])) ++
  fprintf "    <pcPort>%s</pcPort>\n" [AStr (opt_val st "pcPort")] ++
  fprintf "    <pcVoiceVlanAccess>%s</pcVoiceVlanAccess>\n"
    [AStr (opt_val st "pcVoiceVlanAccess")] ++
  fprintf "    <spanToPCPort>%s</spanToPCPort>\n" [AStr (opt_val st "spanToPCPort")] ++
  fprintf "    <gratuitousARP>%s</gratuitousARP>\n" [AStr (opt_val st "gratuitousARP")] ++
  fprintf "    <bluetooth>%s</bluetooth>\n" [AStr (opt_val st "bluetooth")] ++
  fprintf "    <bluetoothProfile>%s</bluetoothProfile>\n"
    [AStr (opt_val st "bluetoothProfile")] ++
  fprintf "    <preferredCodec>%s</preferredCodec>\n" [AStr (opt_val st "preferredCodec")] ++
  fprintf "    <advertiseG722Codec>%s</advertiseG722Codec>\n"
    [AStr (opt_val st "advertiseG722Codec")] ++
  (let adscp := val st "dscpForAudio" in
   when (nonempty adscp) (fprintf "    <dscpForAudio>%s</dscpForAudio>\n" [AStr adscp])) ++
  (* RTP Range *)
  (let rtpMin := val st "startMediaPort" in
   when (nonempty rtpMin)
     (fprintf "    <startMediaPort>%s</startMediaPort>\n    <stopMediaPort>%s</stopMediaPort>\n"
        [AStr rtpMin; AStr (val st "stopMediaPort")])) ++
  fprintf "    <videoCapability>%s</videoCapability>\n"
    [AStr (opt_val st "videoCapability")] ++
  fprintf "    <autoTransmitVideo>%s</autoTransmitVideo>\n"
    [AStr (opt_val st "autoTransmitVideo")] ++
  fprintf "    <videoBitRate>%s</videoBitRate>\n" [AStr (opt_val st "videoBitRate")] ++
  (let vdscp := val st "dscpForVideo" in
   when (nonempty vdscp) (fprintf "    <dscpForVideo>%s</dscpForVideo>\n" [AStr vdscp])) ++
  fprintf "    <rtcp>%s</rtcp>\n" [AStr (opt_val st "rtcp")] ++
  fprintf "    <dndControl>%s</dndControl>\n" [AStr (opt_val st "dndControl")] ++
  fprintf "    <dndCallAlert>%s</dndCallAlert>\n" [AStr (opt_val st "dndCallAlert")] ++
  (let dndt := val st "dndReminderTimer" in
   when (nonempty dndt)
     (fprintf "    <dndReminderTimer>%s</dndReminderTimer>\n" [AStr dndt])) ++
  (let snmp := get_field st "snmpEnabled" in
   when (match snmp with
         | Some n => opt_sel (field_at (fields st) n) =? 1
         | None => false
         end)
     (fprintf "    <snmpEnable>1</snmpEnable>\n    <snmpCommunity>%s</snmpCommunity>\n"
        [AStr (val st "snmpCommunity")])) ++
  (let syslog := val st "syslogAddr" in
   when (nonempty syslog) (fprintf "    <syslogAddr>%s</syslogAddr>\n" [AStr syslog])) ++
  (let dir := val st "directoryURL" in
   when (nonempty dir) (fprintf "    <directoryURL>%s</directoryURL>\n" [AStr dir])) ++
  (let svc := val st "servicesURL" in
   when (nonempty svc) (fprintf "    <servicesURL>%s</servicesURL>\n" [AStr svc])) ++
  (let auth := val st "authenticationURL" in
   when (nonempty auth)
     (fprintf "    <authenticationURL>%s</authenticationURL>\n" [AStr auth])) ++
  (let info := val st "informationURL" in
   when (nonempty info)
     (fprintf "    <informationURL>%s</informationURL>\n" [AStr info])) ++
  (let dial := val st "dialTemplate" in
   when (nonempty dial) (fprintf "    <dialTemplate>%s</dialTemplate>\n" [AStr dial])) ++
  (let soft := val st "softKeyFile" in
   when (nonempty soft) (fprintf "    <softKeyFile>%s</softKeyFile>\n" [AStr soft])) ++
  (* New Wallpapers *)
  (let wall := val st "idleURL" in
   when (nonempty wall) (fprintf "    <idleURL>%s</idleURL>\n" [AStr wall])) ++
  (let time := val st "idleTimeout" in
   when (nonempty time) (fprintf "    <idleTimeout>%s</idleTimeout>\n" [AStr time])) ++
  (let bg := val st "backgroundImage" in
   when (nonempty bg) (fprintf "    <backgroundImage>%s</backgroundImage>\n" [AStr bg])) ++
  fprintf "  </vendorConfig>\n" [] ++
  (let mtu := val st "mtu" in
   when (nonempty mtu) (fprintf "  <mtu>%s</mtu>\n" [AStr mtu])) ++
  fprintf "</device>\n" [].

(** [save_xml]; [fopen_ok] tells whether [fopen] returns a file. *)
Definition save_xml (fopen_ok : bool) : stmt := fun st =>
  (* Integrity Check: MAC Address length *)
  let mac := val st "device" in
  if negb (Nat.eqb (String.length mac) 12) then
    mkState (fields st) (total_fields st) (current st) (disk st)
            "ERR: MAC MUST BE 12 CHARS!"
  else
    let fn := sprintf "SEP%s.cnf.xml" [AStr mac] in
    if negb fopen_ok then st
    else
      mkState (fields st) (total_fields st) (current st)
              (<[fn := written (xml_document st)]> (disk st))
              (sprintf "SUCCESS: %s SAVED." [AStr fn]).

End Serializer.

(* ===================================================================== *)
(** ** The main loop                                                      *)
(* ===================================================================== *)

(** A row the cursor passes over. *)
Definition skipped (fs : list Field) (c : nat) : bool :=
  hidden (field_at fs c) ||
  match type (field_at fs c) with FT_HEADER => true | _ => false end.

(** [while (current > 0 && skipped) current--] *)
Fixpoint up_while (fs : list Field) (c : nat) : nat :=
  match c with
  | O => O
  | S c' => if skipped fs c then up_while fs c' else c
  end.

(** [while (current < total_fields - 1 && skipped) current++], with
    [d = total_fields - 1 - current]. *)
Fixpoint down_while (fs : list Field) (d c : nat) : nat :=
  match d with
  | O => c
  | S d' => if skipped fs c then down_while fs d' (S c) else c
  end.

Definition key_up : stmt := fun st =>
  with_current (up_while (fields st) (current st - 1)) st.

Definition key_down : stmt := fun st =>
  with_current
    (down_while (fields st) (total_fields st - 1 - S (current st)) (S (current st))) st.

(** One turn of the input handling of [main] for the key [ch] (other
    than [q], which leaves the loop); [keys], [typed] and [fopen_ok] are
    what the operation that [ch] starts meets. *)
Definition main_step (ch : Z) (keys : list Z) (typed : string) (fopen_ok : bool)
  : stmt := fun st =>
  let st := if ch =? code "s" then save_xml fopen_ok st else st in
  let st :=
    if (ch =? KEY_UP) && (Z.of_nat (current st) >? 1) then key_up st else st in
  let st :=
    if (ch =? KEY_DOWN) && (Z.of_nat (current st) <? Z.of_nat (total_fields st) - 1)
    then key_down st else st in
  if is_enter ch then
    if opt_count (field_at (fields st) (current st)) >? 0
    then show_popup keys (current st) st
    else show_text_input typed (current st) st
  else st.

Inductive step : State -> State -> Prop :=
| step_key ch keys typed fopen_ok st :
    ch <> code "q" ->
    well_formed typed ->
    step st (main_step ch keys typed fopen_ok st).

(** The states the program passes through, from any working directory. *)
Definition reachable (st : State) : Prop :=
  exists files, rtc step (init_fields (boot files)) st.

(* ===================================================================== *)
(** ** Notions used to state the properties                               *)
(* ===================================================================== *)

(** The hexadecimal digits of [src], in upper case. *)
Definition hex_upper (src : list ascii) : list ascii :=
  map toupper (List.filter isxdigit src).

(** An upper-case hexadecimal digit. *)
Definition upper_hex (c : ascii) : bool :=
  let n := code c in
  ((48 <=? n) && (n <=? 57)) || ((65 <=? n) && (n <=? 70)).

(** Exactly twelve hexadecimal characters. *)
Definition hex12 (s : string) : Prop :=
  String.length s = 12%nat /\ Forall (fun c => isxdigit c = true) (chars s).

(** *** Visibility as a list of writes

    Every assignment of [update_visibility] sets the [hidden] flag of a
    target field from the selection of a source field. *)
Inductive rule := IsZero | NotOne | NotTwo.

Definition eval_rule (r : rule) (z : Z) : bool :=
  match r with
  | IsZero => z =? 0
  | NotOne => negb (z =? 1)
  | NotTwo => negb (z =? 2)
  end.

Record write := Write { target : nat; source : option nat; how : rule }.

(** The selection read at [source]; [None] is the index before the array. *)
Definition sel_of (fs : list Field) (src : option nat) : Z :=
  match src with
  | Some j => opt_sel (field_at fs j)
  | None => opt_sel zero_field
  end.

Definition before (i : nat) : option nat :=
  match i with O => None | S j => Some j end.

Definition writes_at (fs : list Field) (i : nat) : list write :=
  (if strstr (label (field_at fs i)) "Key Function" then
     [Write (i + 1) (Some i) IsZero; Write (i + 2) (Some i) IsZero;
      Write (i + 3) (Some i) NotOne; Write (i + 4) (Some i) NotOne;
      Write (i + 5) (Some i) NotOne; Write (i + 6) (Some i) NotOne;
      Write (i + 7) (Some i) NotOne; Write (i + 8) (Some i) NotOne]
   else []) ++
  (if streq (xml (field_at fs i)) "snmpCommunity"
   then [Write i (before i) IsZero] else []) ++
  (if streq (xml (field_at fs i)) "natAddress"
   then [Write i (before i) IsZero] else []) ++
  (if streq (xml (field_at fs i)) "pcPortVlanId"
   then [Write i (before i) NotTwo] else []).

Definition all_writes (n : nat) (fs : list Field) : list write :=
  flat_map (writes_at fs) (seq 0 n).

(** Performing writes on [fs], selections being read in [fs0]. *)
Definition apply_write (fs0 : list Field) (fs : list Field) (w : write) : list Field :=
  update_at (target w) (set_hidden (eval_rule (how w) (sel_of fs0 (source w)))) fs.

Definition apply_writes (fs0 : list Field) (ws : list write) (fs : list Field)
  : list Field :=
  fold_left (apply_write fs0) ws fs.

(** The flag that the last write to [j] leaves, [d] if there is none. *)
Definition last_write (fs0 : list Field) (ws : list write) (j : nat) (d : bool) : bool :=
  fold_left (fun d w => if Nat.eqb (target w) j
                        then eval_rule (how w) (sel_of fs0 (source w)) else d) ws d.

(** *** The shape of the registry

    What [init_fields] fixes for good: everything but the value, the
    selection and the hidden flag of a field. *)
Definition static (f : Field) : Field :=
  set_hidden false (set_value EmptyString (set_opt_sel 0 f)).

Definition built : State := init_fields (boot ∅).

Definition registry_shape (st : State) : Prop :=
  map static (fields st) = map static (fields built) /\
  total_fields st = total_fields built.

(** The field is the Key Function of a button. *)
Definition is_button (st : State) (i : nat) : Prop :=
  (i < total_fields st)%nat /\
  strstr (label (field_at (fields st) i)) "Key Function" = true.

(** The selection of a field lies within its options (a text field has
    none and keeps the zero it was created with). *)
Definition sel_ok (f : Field) : bool :=
  if opt_count f >? 0
  then (0 <=? opt_sel f) && (opt_sel f <? opt_count f)
  else opt_sel f =? 0.

(** Everything of a field but its hidden flag. *)
Definition unhide (f : Field) : Field := set_hidden false f.

(** The label of the option a dropdown shows as selected. *)
Definition selected_option (f : Field) : string := row (options f) (opt_sel f).

(** The rows of the four Key Function fields in the built registry, and
    the writes that [update_visibility] performs on it. *)
Definition button_rows : list nat := [66; 76; 86; 96]%nat.

Definition built_writes : list write :=
  Eval vm_compute in all_writes (total_fields built) (fields built).

(** [built] is a large term: it is evaluated only on request. *)
#[global] Opaque built.

(** What holds of the registry in every state the program passes through:
    its shape, the selections within their options, and a MAC address
    field that holds upper-case hexadecimal digits only. *)
Definition mac_clean (v : string) : Prop :=
  Forall (fun c => upper_hex c = true) (chars v) /\ (String.length v <= 12)%nat.

Definition registry_inv (st : State) : Prop :=
  registry_shape st /\
  Forall (fun f => sel_ok f = true) (fields st) /\
  mac_clean (value (field_at (fields st) 1)).

(** A byte of the [clean] buffer of [sanitize_mac]. *)
Definition clean_byte (c : ascii) : bool := upper_hex c || is_nul c.

(** [i] is the first row, in registry order, whose key is [key]; and no
    row has that key. *)
Definition first_match (st : State) (key : string) (i : nat) : Prop :=
  (i < total_fields st)%nat /\
  xml (field_at (fields st) i) = key /\
  forall k, (k < i)%nat -> xml (field_at (fields st) k) <> key.

Definition absent (st : State) (key : string) : Prop :=
  forall k, (k < total_fields st)%nat -> xml (field_at (fields st) k) <> key.

(** The encoded value of the option that a field shows as selected; a
    field without options has none. *)
Definition selected_encoded (f : Field) : string :=
  match options f with
  | [] => EmptyString
  | _ :: _ => nth (Z.to_nat (opt_sel f)) (xml_values f) EmptyString
  end.

(** The selection of a dropdown is one of its options. *)
Definition selection_valid (f : Field) : Prop :=
  options f <> [] -> 0 <= opt_sel f < Z.of_nat (length (options f)).

(** A dropdown has as many encoded values as options, [opt_count] of them
    and at most 100; a text field has none. *)
Definition options_ok (f : Field) : bool :=
  Nat.eqb (length (xml_values f)) (length (options f)) &&
  (opt_count f =? Z.of_nat (length (options f))) &&
  (opt_count f <=? 100).

(** *** Reading the document

    [save_xml] checks the MAC address and then writes the document:
    [serialize] is that check with the file name and the calls that follow
    it. *)
Definition mac_ok (st : State) : Prop := String.length (val st "device") = 12%nat.

Definition serialize (st : State) : option (string * list call) :=
  let mac := val st "device" in
  if Nat.eqb (String.length mac) 12
  then Some (sprintf "SEP%s.cnf.xml" [AStr mac], xml_document st)
  else None.

Fixpoint starts_with (pre s : string) : bool :=
  match pre, s with
  | EmptyString, _ => true
  | String a pre', String b s' => Ascii.eqb a b && starts_with pre' s'
  | String _ _, EmptyString => false
  end.

(** For each conversion of a format, whether it is the content of an
    element [tag], that is, whether [<tag>] stands right before it;
    [seen] is the text read so far, last character first. *)
Fixpoint hits_from (tag_rev : string) (fmt : string) (seen : string) : list bool :=
  match fmt with
  | EmptyString => []
  | String c rest =>
      if Ascii.eqb c "%"%char then
        match rest with
        | String d rest' =>
            if Ascii.eqb d "s"%char || Ascii.eqb d "d"%char
            then starts_with tag_rev seen :: hits_from tag_rev rest' EmptyString
            else hits_from tag_rev rest' (String d (String c seen))
        | EmptyString => []
        end
      else hits_from tag_rev rest (String c seen)
  end.

Fixpoint rev_onto (s acc : string) : string :=
  match s with
  | EmptyString => acc
  | String c rest => rev_onto rest (String c acc)
  end.

Definition rev_string (s : string) : string := rev_onto s EmptyString.

Definition hits (tag fmt : string) : list bool :=
  hits_from (rev_string (String.append "<" (String.append tag ">"))) fmt EmptyString.

Fixpoint select (bs : list bool) (args : list arg) : list string :=
  match bs, args with
  | b :: bs', a :: args' =>
      if b then show_arg a :: select bs' args' else select bs' args'
  | _, _ => []
  end.

(** The contents that a call, and a sequence of calls, write as element
    [tag], in the order of writing. *)
Definition call_contents (tag : string) (c : call) : list string :=
  select (hits tag (c_fmt c)) (c_args c).

Definition contents (tag : string) (doc : list call) : list string :=
  flat_map (call_contents tag) doc.



(** The optional leaves that the serializer writes under a test of their
    own value: the raw value of a text field, the encoded value of a
    dropdown. *)
Definition guarded_raw : list string :=
  ["deviceLabel"; "loadInformation"; "adminVlanId"; "pcPortVlanId"; "sshUserId";
   "sshPassword"; "adminPassword"; "dscpForAudio"; "startMediaPort";
   "dscpForVideo"; "dndReminderTimer"; "syslogAddr"; "directoryURL";
   "servicesURL"; "authenticationURL"; "informationURL"; "dialTemplate";
   "softKeyFile"; "idleURL"; "idleTimeout"; "backgroundImage"; "mtu"]%string.

Definition guarded_encoded : list string := ["dateTemplate"; "timeFormat"]%string.

(** [s] if it is not empty. *)
Definition if_nonempty (s : string) : list string :=
  if nonempty s then [s] else [].

(** The selection of the first field with key [key] is [z]. *)
Definition selected (st : State) (key : string) (z : Z) : bool :=
  match get_field st key with
  | Some n => opt_sel (field_at (fields st) n) =? z
  | None => false
  end.

(** Row [i] is a button that is not Disabled; that is a Line. *)
Definition button_on (st : State) (i : nat) : bool :=
  strstr (label (field_at (fields st) i)) "Key Function" &&
  (opt_sel (field_at (fields st) i) >? 0).

Definition button_line (st : State) (i : nat) : bool :=
  button_on st i && (opt_sel (field_at (fields st) i) =? 1).

(** What the rows [0 .. total_fields-1] contribute, row by row. *)
Definition per_row {A} (st : State) (g : nat -> list A) : list A :=
  flat_map g (seq 0 (total_fields st)).

(** *** Sessions

    States reached by operating the form: moving the cursor down to a
    row, typing a line into the text field under the cursor, and choosing
    in the dropdown under the cursor. *)
Definition press (ch : Z) : stmt := main_step ch [] EmptyString true.

Fixpoint walk_to (n : nat) (row : nat) (st : State) : State :=
  match n with
  | O => st
  | S n' => if Nat.eqb (current st) row then st
            else walk_to n' row (press KEY_DOWN st)
  end.

Definition type_at (row : nat) (typed : string) : stmt := fun st =>
  main_step 10 [] typed true (walk_to 200 row st).

Definition choose_at (row : nat) (keys : list Z) : stmt := fun st =>
  main_step 10 keys EmptyString true (walk_to 200 row st).

(** The MAC address typed with separators. *)
Definition st_mac : State := type_at 1 "00:07:a1-B2.c3d4" built.

(** Then an NTP server typed into the NTP Server row. *)
Definition st_ntp : State := type_at 53 "pool.ntp.org" st_mac.

(** Or NAT switched on, the NAT address left empty. *)
Definition st_nat : State := choose_at 42 [KEY_DOWN; 10] st_mac.

(** Or a voicemail number for button 1, button 2 made a Line, and another
    voicemail number for button 2. *)
Definition st_vm : State :=
  type_at 84 "200" (choose_at 76 [KEY_DOWN; 10] (type_at 74 "100" st_mac)).

(** *** The session

    What holds besides [registry_inv] in every state the program passes
    through: the hidden flags are those that [update_visibility] computes,
    the MAC address row is visible, the cursor is on a row of the form that
    is no section header, and a dropdown shows the label of its selected
    option. *)
Definition up_to_date (st : State) : Prop :=
  visibility_loop (total_fields st) (fields st) = fields st.

Definition cursor_ok (st : State) : Prop :=
  (1 <= current st < total_fields st)%nat /\
  type (field_at (fields st) (current st)) <> FT_HEADER.

Definition shows_selection (f : Field) : bool :=
  match options f with
  | [] => true
  | _ :: _ => String.eqb (value f) (selected_option f)
  end.

Definition session_inv (st : State) : Prop :=
  registry_inv st /\
  up_to_date st /\
  hidden (field_at (fields st) 1) = false /\
  cursor_ok st /\
  Forall (fun f => shows_selection f = true) (fields st).

(** The leaves that the serializer writes without a test, each with the
    encoded value of the dropdown of the same key, and those it writes
    under a test of that encoded value. *)
Definition always_encoded : list string :=
  ["timeZone"; "transportLayerProtocol"; "networkLocale"; "settingsAccess";
   "webAccess"; "sshAccess"; "pcPort"; "pcVoiceVlanAccess"; "spanToPCPort";
   "gratuitousARP"; "bluetooth"; "bluetoothProfile"; "preferredCodec";
   "advertiseG722Codec"; "videoCapability"; "autoTransmitVideo"; "videoBitRate";
   "rtcp"; "dndControl"; "dndCallAlert"]%string.

(** No encoded value of the field is empty. *)
Definition encoded_nonempty (f : Field) : bool := forallb nonempty (xml_values f).

(** The port that the call manager members carry. *)
Definition sip_port (st : State) : string :=
  if negb (nonempty (val st "voipControlPort")) then "5060"%string
  else val st "voipControlPort".

Definition nonempty_list {A} (l : list A) : bool :=
  match l with [] => false | _ :: _ => true end.

(* ===================================================================== *)
(** ** What the screens show                                              *)
(* ===================================================================== *)

(** *** The help text of [show_text_input]

    The box is 64 by 14, smaller on a small terminal of [h] rows and [w]
    columns; the help text is wrapped to [help_w = box_w - 4] columns from
    row 7 of the box down to its last row but one. *)
Definition text_box_w (w : Z) : Z := if 64 >? w then w - 4 else 64.
Definition text_box_h (h : Z) : Z := if 14 >? h then h - 2 else 14.

Definition is_space (c : ascii) : bool := Ascii.eqb c " "%char.

(** [strrchr(line, ' ')]: the index of the last space of [line], searched
    from index [i] on, [found] being the last one seen before. *)
Fixpoint strrchr_from (line : list ascii) (i : nat) (found : option nat) : option nat :=
  match line with
  | [] => found
  | c :: rest => strrchr_from rest (S i) (if is_space c then Some i else found)
  end.

Definition strrchr_space (line : list ascii) : option nat := strrchr_from line 0 None.

(** [while ( *p == ' ') p++] *)
Fixpoint skip_spaces (p : list ascii) : list ascii :=
  match p with
  | [] => []
  | c :: rest => if is_space c then skip_spaces rest else p
  end.

(** One turn of the wrapping loop: the line printed and where [p] points
    afterwards. *)
Definition wrap_step (help_w : Z) (p : list ascii) : list ascii * list ascii :=
  let line := take (Z.to_nat help_w) p in
  let line_len := length line in
  let line :=
    if (Z.of_nat line_len =? help_w) && Nat.ltb line_len (length p) then
      match strrchr_space line with
      | Some sp => take sp line
      | None => line
      end
    else line in
  (line, skip_spaces (drop (length line) p)).

(** The loop [while ( *p && curr_y < box_h - 1)], with [rows] turns left. *)
Fixpoint wrap_loop (rows : nat) (help_w : Z) (p : list ascii) : list (list ascii) :=
  match rows with
  | O => []
  | S rows' =>
      match p with
      | [] => []
      | _ :: _ =>
          let (line, rest) := wrap_step help_w p in
          line :: wrap_loop rows' help_w rest
      end
  end.

Definition help_rows (h : Z) : nat := Z.to_nat (text_box_h h - 1 - 7).

Definition help_lines (h w : Z) (help : string) : list string :=
  let help_w := text_box_w w - 4 in
  let help_buf := strncpy 511 help in
  map of_chars (wrap_loop (help_rows h) help_w (chars help_buf)).

(** *** The window of [show_popup]

    On a terminal of [h] rows the box shows [visible_items] options of the
    [list_len] of the field, from [scroll_top] on. *)
Definition popup_box_h (h list_len : Z) : Z :=
  let max_h := h - 6 in
  let box_h := list_len + 2 in
  if box_h >? max_h then max_h else box_h.

Definition visible_items (h list_len : Z) : Z := popup_box_h h list_len - 2.

(** The scroll position before the loop and its check at each turn. *)
Definition initial_scroll (visible sel : Z) : Z :=
  if sel >=? visible then sel - visible + 1 else 0.

Definition scroll_check (visible sel scroll_top : Z) : Z :=
  let scroll_top := if sel <? scroll_top then sel else scroll_top in
  if sel >=? scroll_top + visible then sel - visible + 1 else scroll_top.

(** The options drawn by the [for] loop, from index [idx] on with [n]
    turns left. *)
Fixpoint drawn_from (list_len : Z) (n : nat) (idx : Z) : list Z :=
  match n with
  | O => []
  | S n' => if idx >=? list_len then [] else idx :: drawn_from list_len n' (idx + 1)
  end.

Definition drawn_options (list_len visible scroll_top : Z) : list Z :=
  drawn_from list_len (Z.to_nat visible) scroll_top.

(** A screen of the picker: the highlighted option, the scroll position
    and the options drawn. *)
Record screen := Screen { highlighted : Z; scrolled : Z; shown : list Z }.

(** The screens that the loop of [show_popup] draws, one before each key
    it reads. *)
Fixpoint popup_screens (opt_count visible sel scroll_top : Z) (keys : list Z)
  : list screen :=
  let scroll_top := scroll_check visible sel scroll_top in
  Screen sel scroll_top (drawn_options opt_count visible scroll_top) ::
  match keys with
  | [] => []
  | ch :: keys' =>
      if (ch =? KEY_UP) && (sel >? 0)
      then popup_screens opt_count visible (sel - 1) scroll_top keys'
      else if (ch =? KEY_DOWN) && (sel <? opt_count - 1)
           then popup_screens opt_count visible (sel + 1) scroll_top keys'
      else if is_enter ch then []
      else if ch =? 27 then []
      else popup_screens opt_count visible sel scroll_top keys'
  end.

Definition show_popup_screens (h : Z) (keys : list Z) (i : nat) (st : State)
  : list screen :=
  let f := field_at (fields st) i in
  let visible := visible_items h (opt_count f) in
  popup_screens (opt_count f) visible (opt_sel f)
                (initial_scroll visible (opt_sel f)) keys.

(** *** The form drawn by [main]

    The scroll position kept between the turns of the main loop and the
    rows drawn on a terminal of [h] rows: [py] is the screen row and
    [f_cnt] counts the rows that are not hidden. *)
Definition main_scroll (max_view current scroll_off : Z) : Z :=
  let scroll_off := if current <? scroll_off then current else scroll_off in
  if current >=? scroll_off + max_view then current - max_view + 1 else scroll_off.

Fixpoint draw_rows (fs : list Field) (h scroll_off : Z) (rows : list nat)
    (py f_cnt : Z) : list nat :=
  match rows with
  | [] => []
  | i :: rest =>
      if hidden (field_at fs i) then draw_rows fs h scroll_off rest py f_cnt
      else if (f_cnt >=? scroll_off) && (py <? h - 4)
           then i :: draw_rows fs h scroll_off rest (py + 1) (f_cnt + 1)
           else draw_rows fs h scroll_off rest py (f_cnt + 1)
  end.

Definition drawn_rows (st : State) (h scroll_off : Z) : list nat :=
  draw_rows (fields st) h scroll_off (seq 0 (total_fields st)) 2 0.

(** The rows that are not hidden, in registry order. *)
Definition visible_rows (st : State) : list nat :=
  List.filter (fun i => negb (hidden (field_at (fields st) i))) (seq 0 (total_fields st)).

(** The characters of a text other than spaces. *)
Definition nonspaces (l : list ascii) : list ascii :=
  List.filter (fun c => negb (is_space c)) l.

(** The number of rows before row [i] that are not hidden. *)
Definition rows_above (st : State) (i : nat) : nat :=
  length (List.filter (fun j => negb (hidden (field_at (fields st) j))) (seq 0 i)).

(* ===================================================================== *)
(** ** The text of the document                                           *)
(* ===================================================================== *)

(** *** Elements of a text

    The text that [save_xml] writes is read the way the phone reads it:
    an element [tag] starts with a start tag [<tag>] or [<tag ...>], and
    its content is the text from the end of the start tag to the end tag
    [</tag>] that follows (to the end of the text if none follows). *)

(** [s] without its beginning [pre]. *)
Fixpoint strip (pre s : string) : option string :=
  match pre with
  | EmptyString => Some s
  | String a pre' =>
      match s with
      | String b s' => if Ascii.eqb a b then strip pre' s' else None
      | EmptyString => None
      end
  end.

(** A character that ends the name in a start tag. *)
Definition is_name_end (c : ascii) : bool :=
  Ascii.eqb c ">"%char || Ascii.eqb c " "%char || Ascii.eqb c "/"%char ||
  Ascii.eqb c newline.

Definition ends_name (s : string) : bool :=
  match s with
  | String c _ => is_name_end c
  | EmptyString => false
  end.

(** The text after the next [>]. *)
Fixpoint after_gt (s : string) : string :=
  match s with
  | EmptyString => EmptyString
  | String c s' => if Ascii.eqb c ">"%char then s' else after_gt s'
  end.

(** The text before the next occurrence of [close]. *)
Fixpoint content_until (close s : string) : string :=
  match s with
  | EmptyString => EmptyString
  | String c s' =>
      match strip close s with
      | Some _ => EmptyString
      | None => String c (content_until close s')
      end
  end.

Fixpoint followed_by (s : string) (c : ascii) : string :=
  match s with
  | EmptyString => String c EmptyString
  | String a s' => String a (followed_by s' c)
  end.

(** [<tag] and [</tag>] *)
Definition start_of (tag : string) : string := String "<"%char tag.

Definition end_of (tag : string) : string :=
  String "<"%char (String "/"%char (followed_by tag ">"%char)).

(** The text after a start tag of [tag] at the beginning of [s]. *)
Definition start_tag (tag s : string) : option string :=
  match strip (start_of tag) s with
  | Some rest => if ends_name rest then Some (after_gt rest) else None
  | None => None
  end.

(** The contents of the elements [tag] of a text, in the order of their
    start tags. *)
Fixpoint elements (tag text : string) : list string :=
  match text with
  | EmptyString => []
  | String _ rest =>
      match start_tag tag text with
      | Some body => content_until (end_of tag) body :: elements tag rest
      | None => elements tag rest
      end
  end.

(** *** Values without markup

    [save_xml] writes the values as they are, without escaping: what is
    said about the elements of the text is said for values that have no
    [<] in them. *)
Fixpoint no_lt (s : string) : bool :=
  match s with
  | EmptyString => true
  | String c s' => negb (Ascii.eqb c "<"%char) && no_lt s'
  end.

Definition markup_free (st : State) : bool :=
  forallb (fun f => no_lt (value f) && forallb no_lt (xml_values f)) (fields st).

(** *** Reading a call piece by piece

    What a call writes is read from its format with the arguments left
    as they are: a [token] is a character of the format or an argument.
    The functions below read the elements off the tokens of one call;
    they answer only when the call alone decides the matter. *)
Inductive token := Lit (c : ascii) | Arg (s : string).

Fixpoint tokens (fmt : string) (args : list arg) : list token :=
  match fmt with
  | EmptyString => []
  | String c rest =>
      if Ascii.eqb c "%"%char then
        match rest with
        | String d rest' =>
            if Ascii.eqb d "s"%char || Ascii.eqb d "d"%char then
              match args with
              | a :: args' => Arg (show_arg a) :: tokens rest' args'
              | [] => tokens rest' []
              end
            else Lit c :: Lit d :: tokens rest' args
        | EmptyString => [Lit c]
        end
      else Lit c :: tokens rest args
  end.

Fixpoint flatten (ts : list token) : string :=
  match ts with
  | [] => EmptyString
  | Lit c :: ts' => String c (flatten ts')
  | Arg s :: ts' => String.append s (flatten ts')
  end.

Definition call_tokens (c : call) : list token := tokens (c_fmt c) (c_args c).

Inductive answer (A : Type) := Yes (a : A) | No | Unknown.
Arguments Yes {A} a.
Arguments No {A}.
Arguments Unknown {A}.

Fixpoint strip_lit (pre : string) (ts : list token) : answer (list token) :=
  match pre with
  | EmptyString => Yes ts
  | String a pre' =>
      match ts with
      | Lit b :: ts' => if Ascii.eqb a b then strip_lit pre' ts' else No
      | _ => Unknown
      end
  end.

Definition ends_name_lit (ts : list token) : option bool :=
  match ts with
  | Lit c :: _ => Some (is_name_end c)
  | _ => None
  end.

Fixpoint after_gt_lit (ts : list token) : option (list token) :=
  match ts with
  | Lit c :: ts' => if Ascii.eqb c ">"%char then Some ts' else after_gt_lit ts'
  | _ => None
  end.

Definition start_tag_lit (tag : string) (ts : list token) : answer (list token) :=
  match strip_lit (start_of tag) ts with
  | Yes rest =>
      match ends_name_lit rest with
      | Some true =>
          match after_gt_lit rest with
          | Some body => Yes body
          | None => Unknown
          end
      | Some false => No
      | None => Unknown
      end
  | No => No
  | Unknown => Unknown
  end.

Fixpoint content_tok (close : string) (ts : list token) : option string :=
  match ts with
  | [] => None
  | Lit c :: ts' =>
      match strip_lit close ts with
      | Yes _ => Some EmptyString
      | No => option_map (String c) (content_tok close ts')
      | Unknown => None
      end
  | Arg s :: ts' => option_map (String.append s) (content_tok close ts')
  end.

(** The elements [tag] that the tokens of a call hold, if each of them
    starts and ends inside the call. *)
Fixpoint piece (tag : string) (ts : list token) : option (list string) :=
  match ts with
  | [] => Some []
  | Lit c :: ts' =>
      match start_tag_lit tag ts with
      | Yes body =>
          match content_tok (end_of tag) body, piece tag ts' with
          | Some cnt, Some l => Some (cnt :: l)
          | _, _ => None
          end
      | No => piece tag ts'
      | Unknown => None
      end
  | Arg _ :: ts' => piece tag ts'
  end.

Definition call_elements (tag : string) (c : call) : list string :=
  match piece tag (call_tokens c) with
  | Some l => l
  | None => []
  end.

(** The calls that do not decide the matter alone. *)
Definition call_open (tag : string) (c : call) : list call :=
  match piece tag (call_tokens c) with
  | Some _ => []
  | None => [c]
  end.

Definition clean_tokens (ts : list token) : bool :=
  forallb (fun t => match t with Arg s => no_lt s | Lit _ => true end) ts.

Definition clean_call (c : call) : bool :=
  forallb (fun a => no_lt (show_arg a)) (c_args c).

(** *** More sessions

    A device label typed in; two call managers and another SIP port; the
    second button made a speed dial. *)
Definition st_label : State := type_at 2 "Lobby phone" st_mac.

Definition st_pbx : State :=
  type_at 8 "5070" (type_at 4 "10.0.0.2" (type_at 3 "10.0.0.1" st_mac)).

Definition st_sd : State := choose_at 76 [KEY_DOWN; KEY_DOWN; 10] st_mac.

(** Markup typed into the device label. *)
Definition st_markup : State := type_at 2 "<mtu>9</mtu>" st_mac.

(* ===================================================================== *)
(** * Properties                                                          *)
(* ===================================================================== *)

(* ===================================================================== *)
(** ** MAC sanitization computes what the specification says              *)
(* ===================================================================== *)

Section SanitizeMac.

Lemma chars_of_chars l : chars (of_chars l) = l.
Proof. apply list_ascii_of_string_of_list_ascii. Qed.

Lemma of_chars_chars s : of_chars (chars s) = s.
Proof. apply string_of_list_ascii_of_string. Qed.

Lemma length_chars s : length (chars s) = String.length s.
Proof. induction s; simpl; auto. Qed.

Lemma length_of_chars l : String.length (of_chars l) = length l.
Proof. rewrite <- length_chars, chars_of_chars. reflexivity. Qed.

Lemma toupper_xdigit_not_nul c : isxdigit c = true -> is_nul (toupper c) = false.
Proof.
  destruct c as [[] [] [] [] [] [] [] []]; vm_compute; congruence.
Qed.

Lemma hex_upper_no_nul src : Forall (fun c => is_nul c = false) (hex_upper src).
Proof.
  unfold hex_upper. induction src as [|c src IH]; simpl; [constructor|].
  destruct (isxdigit c) eqn:E; simpl; auto.
  constructor; auto using toupper_xdigit_not_nul.
Qed.

Lemma length_hex_upper src : (length (hex_upper src) <= length src)%nat.
Proof.
  unfold hex_upper. rewrite length_map.
  induction src as [|c src IH]; simpl; [lia|].
  destruct (isxdigit c); simpl; lia.
Qed.

(** Loop invariant: the buffer holds the digits found so far, then zeros. *)
Lemma sanitize_loop_inv src : forall acc k,
  Forall (fun c => c <> NUL) src ->
  (length (hex_upper src) <= k)%nat ->
  sanitize_loop src (acc ++ replicate k NUL) (length acc)
  = (acc ++ hex_upper src) ++ replicate (k - length (hex_upper src)) NUL.
Proof.
  induction src as [|c src IH]; intros acc k Hwf Hk.
  - simpl. rewrite app_nil_r, Nat.sub_0_r. reflexivity.
  - inversion Hwf as [|? ? Hc Hsrc]; subst.
    cbn [sanitize_loop].
    replace (is_nul c) with false
      by (symmetry; apply Ascii.eqb_neq; exact Hc).
    unfold hex_upper in *. cbn [List.filter] in *.
    destruct (isxdigit c) eqn:Hx; cbn [map length] in *.
    + destruct k as [|k]; [lia|].
      cbn [replicate].
      rewrite insert_app_r_alt by lia.
      rewrite Nat.sub_diag. cbn [insert list_insert].
      replace (acc ++ toupper c :: replicate k NUL)
        with ((acc ++ [toupper c]) ++ replicate k NUL)
        by (rewrite <- app_assoc; reflexivity).
      replace (S (length acc)) with (length (acc ++ [toupper c]))
        by (rewrite length_app; simpl; lia).
      rewrite IH by (auto; lia).
      rewrite <- !app_assoc. reflexivity.
    + apply IH; auto.
Qed.

Lemma c_str_no_nul l : Forall (fun c => is_nul c = false) l -> c_str l = l.
Proof.
  induction 1 as [|c l Hc _ IH]; simpl; [reflexivity|].
  rewrite Hc, IH. reflexivity.
Qed.

Lemma c_str_stops l rest :
  Forall (fun c => is_nul c = false) l -> c_str (l ++ NUL :: rest) = l.
Proof.
  induction 1 as [|c l Hc _ IH]; simpl; [reflexivity|].
  rewrite Hc, IH. reflexivity.
Qed.

(** Cutting the filled buffer at index 12 and reading it back. *)
Lemma c_str_truncate h k :
  Forall (fun c => is_nul c = false) h ->
  (length h < length h + k)%nat ->
  c_str (<[12%nat := NUL]> (h ++ replicate k NUL)) = take 12 h.
Proof.
  intros Hh Hk.
  destruct (Nat.le_gt_cases (length h) 12) as [Hle|Hgt].
  - rewrite take_ge by lia.
    destruct k as [|k]; [lia|].
    assert (Hsame : <[12%nat := NUL]> (h ++ replicate (S k) NUL)
                    = h ++ replicate (S k) NUL).
    { destruct (Nat.lt_ge_cases 12 (length h + S k)) as [Hin|Hout].
      - apply list_insert_id.
        rewrite lookup_app_r by lia.
        apply lookup_replicate_2. lia.
      - apply list_insert_ge. rewrite length_app, length_replicate. lia. }
    rewrite Hsame. cbn [replicate]. apply c_str_stops; auto.
  - rewrite insert_app_l by lia.
    rewrite <- (take_drop 12 h) at 1.
    assert (Hlen : length (take 12 h) = 12%nat) by (rewrite length_take; lia).
    rewrite insert_app_r_alt by lia.
    rewrite Hlen, Nat.sub_diag.
    destruct (drop 12 h) as [|d ds] eqn:Hd.
    { apply (f_equal length) in Hd. rewrite length_drop in Hd. simpl in Hd. lia. }
    cbn [insert list_insert].
    rewrite <- app_assoc. cbn [app].
    apply c_str_stops.
    apply Forall_take. exact Hh.
Qed.

Lemma sanitize_mac_refines src :
  fits_value src -> sanitize_mac src = sanitize_spec src.
Proof.
  intros [Hwf Hlen].
  unfold sanitize_mac, sanitize_spec. f_equal.
  pose proof (length_hex_upper (chars src)) as Hh.
  rewrite length_chars in Hh.
  pose proof (sanitize_loop_inv (chars src) [] 128 Hwf ltac:(lia)) as Hloop.
  cbn [app length] in Hloop. rewrite Hloop.
  apply c_str_truncate; [apply hex_upper_no_nul | lia].
Qed.

End SanitizeMac.

(* ===================================================================== *)
(** ** Array reads and writes                                             *)
(* ===================================================================== *)

Section Arrays.

Lemma length_update_at i g fs : length (update_at i g fs) = length fs.
Proof. unfold update_at. destruct (fs !! i); [apply length_insert | reflexivity]. Qed.

Lemma lookup_update_at i g fs j :
  update_at i g fs !! j = if decide (i = j) then g <$> fs !! j else fs !! j.
Proof.
  unfold update_at. destruct (fs !! i) as [f|] eqn:Hi.
  - case_decide as Hij.
    + subst j. rewrite list_lookup_insert_eq by (eapply lookup_lt_Some; eauto).
      rewrite Hi. reflexivity.
    + apply list_lookup_insert_ne. exact Hij.
  - case_decide as Hij; [subst j; rewrite Hi|]; reflexivity.
Qed.

Lemma field_at_lookup fs i : field_at fs i = default zero_field (fs !! i).
Proof. unfold field_at. rewrite list_lookup_total_alt. reflexivity. Qed.

Lemma field_at_update_at i g fs j :
  field_at (update_at i g fs) j =
  if decide (i = j /\ (j < length fs)%nat) then g (field_at fs j) else field_at fs j.
Proof.
  rewrite !field_at_lookup, lookup_update_at.
  destruct (fs !! j) as [f|] eqn:Hj.
  - pose proof (lookup_lt_Some _ _ _ Hj).
    repeat case_decide; simpl; try reflexivity; exfalso; intuition.
  - apply lookup_ge_None in Hj.
    repeat case_decide; simpl; try reflexivity; exfalso; intuition lia.
Qed.

Lemma map_update_at {B} (p : Field -> B) i g fs :
  (forall f, p (g f) = p f) -> map p (update_at i g fs) = map p fs.
Proof.
  intros Hp. apply list_eq. intros j.
  rewrite !list_lookup_fmap, lookup_update_at.
  case_decide; [|reflexivity].
  destruct (fs !! j); simpl; [rewrite Hp|]; reflexivity.
Qed.

Lemma field_at_map {B} (p : Field -> B) fs fs' i :
  map p fs = map p fs' -> p (field_at fs i) = p (field_at fs' i).
Proof.
  intros H. rewrite !field_at_lookup.
  assert (Hi : p <$> fs !! i = p <$> fs' !! i)
    by (rewrite <- !list_lookup_fmap; f_equal; exact H).
  destruct (fs !! i), (fs' !! i); simpl in *; congruence.
Qed.

End Arrays.

(* ===================================================================== *)
(** ** Visibility                                                         *)
(* ===================================================================== *)

Section Visibility.

Lemma unhide_set_hidden b f : unhide (set_hidden b f) = unhide f.
Proof. reflexivity. Qed.

Lemma field_at_unhide fs fs' i :
  map unhide fs = map unhide fs' -> unhide (field_at fs i) = unhide (field_at fs' i).
Proof. apply field_at_map. Qed.

Lemma label_unhide fs fs' i :
  map unhide fs = map unhide fs' -> label (field_at fs i) = label (field_at fs' i).
Proof. intros H. apply (f_equal label (field_at_unhide fs fs' i H)). Qed.

Lemma xml_unhide fs fs' i :
  map unhide fs = map unhide fs' -> xml (field_at fs i) = xml (field_at fs' i).
Proof. intros H. apply (f_equal xml (field_at_unhide fs fs' i H)). Qed.

Lemma opt_sel_unhide fs fs' i :
  map unhide fs = map unhide fs' -> opt_sel (field_at fs i) = opt_sel (field_at fs' i).
Proof. intros H. apply (f_equal opt_sel (field_at_unhide fs fs' i H)). Qed.

Lemma sel_of_unhide fs fs' src :
  map unhide fs = map unhide fs' -> sel_of fs src = sel_of fs' src.
Proof. intros H. destruct src; simpl; auto using opt_sel_unhide. Qed.

Lemma writes_at_unhide fs fs' i :
  map unhide fs = map unhide fs' -> writes_at fs i = writes_at fs' i.
Proof.
  intros H. unfold writes_at.
  rewrite (label_unhide fs fs' i H), (xml_unhide fs fs' i H). reflexivity.
Qed.

Lemma apply_write_unhide fs0 fs w : map unhide (apply_write fs0 fs w) = map unhide fs.
Proof. unfold apply_write. apply map_update_at. intros f. apply unhide_set_hidden. Qed.

Lemma apply_writes_unhide fs0 ws : forall fs,
  map unhide (apply_writes fs0 ws fs) = map unhide fs.
Proof.
  unfold apply_writes. induction ws as [|w ws IH]; intros fs; simpl; [reflexivity|].
  rewrite IH. apply apply_write_unhide.
Qed.

Lemma apply_writes_app fs0 ws1 ws2 fs :
  apply_writes fs0 (ws1 ++ ws2) fs = apply_writes fs0 ws2 (apply_writes fs0 ws1 fs).
Proof. unfold apply_writes. apply fold_left_app. Qed.

Lemma apply_writes_source fs0 fs0' ws fs :
  map unhide fs0 = map unhide fs0' -> apply_writes fs0 ws fs = apply_writes fs0' ws fs.
Proof.
  intros H. unfold apply_writes. revert fs.
  induction ws as [|w ws IH]; intros fs; simpl; [reflexivity|].
  rewrite IH. unfold apply_write. rewrite (sel_of_unhide fs0 fs0' _ H). reflexivity.
Qed.

Lemma field_before_sel fs i : opt_sel (field_before fs i) = sel_of fs (before i).
Proof. destruct i; reflexivity. Qed.

(** One iteration of the loop performs the writes of [writes_at]. *)
Lemma vis_step_writes i fs : vis_step i fs = apply_writes fs (writes_at fs i) fs.
Proof.
  unfold vis_step, writes_at.
  set (kf := strstr (label (field_at fs i)) "Key Function").
  set (fs1 := if kf then _ else fs).
  assert (H1 : fs1 = apply_writes fs
                 (if kf then
                    [Write (i + 1) (Some i) IsZero; Write (i + 2) (Some i) IsZero;
                     Write (i + 3) (Some i) NotOne; Write (i + 4) (Some i) NotOne;
                     Write (i + 5) (Some i) NotOne; Write (i + 6) (Some i) NotOne;
                     Write (i + 7) (Some i) NotOne; Write (i + 8) (Some i) NotOne]
                  else []) fs).
  { subst fs1. destruct kf; reflexivity. }
  assert (U1 : map unhide fs1 = map unhide fs)
    by (rewrite H1; apply apply_writes_unhide).
  clearbody fs1.
  rewrite apply_writes_app, <- H1.
  cbv zeta.
  (* the three single writes *)
  assert (Hone : forall (tag : string) (r : rule) (g : list Field),
     map unhide g = map unhide fs ->
     (if streq (xml (field_at g i)) tag
      then update_at i (set_hidden (eval_rule r (opt_sel (field_before g i)))) g
      else g)
     = apply_writes fs
         (if streq (xml (field_at fs i)) tag then [Write i (before i) r] else []) g
     /\ map unhide
          (if streq (xml (field_at g i)) tag
           then update_at i (set_hidden (eval_rule r (opt_sel (field_before g i)))) g
           else g) = map unhide fs).
  { intros tag r g Hg.
    rewrite (xml_unhide g fs i Hg).
    destruct (streq (xml (field_at fs i)) tag); [|auto].
    rewrite field_before_sel, (sel_of_unhide g fs _ Hg).
    split; [reflexivity|].
    rewrite <- Hg. apply map_update_at. intros f. apply unhide_set_hidden. }
  destruct (Hone "snmpCommunity"%string IsZero fs1 U1) as [E2 U2].
  cbn [eval_rule] in E2, U2.
  rewrite apply_writes_app, <- E2.
  set (fs2 := if streq (xml (field_at fs1 i)) "snmpCommunity" then _ else fs1) in *.
  clearbody fs2.
  destruct (Hone "natAddress"%string IsZero fs2 U2) as [E3 U3].
  cbn [eval_rule] in E3, U3.
  rewrite apply_writes_app, <- E3.
  set (fs3 := if streq (xml (field_at fs2 i)) "natAddress" then _ else fs2) in *.
  clearbody fs3.
  destruct (Hone "pcPortVlanId"%string NotTwo fs3 U3) as [E4 _].
  cbn [eval_rule] in E4. exact E4.
Qed.

Lemma visibility_loop_from l : forall fs fs',
  map unhide fs' = map unhide fs ->
  fold_left (fun fs i => vis_step i fs) l fs'
  = apply_writes fs (flat_map (writes_at fs) l) fs'.
Proof.
  induction l as [|i l IH]; intros fs fs' H; [reflexivity|].
  cbn [fold_left flat_map].
  rewrite apply_writes_app, vis_step_writes.
  rewrite (writes_at_unhide fs' fs i H), (apply_writes_source fs' fs _ _ H).
  apply IH. rewrite apply_writes_unhide. exact H.
Qed.

(** The loop of [update_visibility] performs all its writes in order. *)
Lemma visibility_loop_writes n fs :
  visibility_loop n fs = apply_writes fs (all_writes n fs) fs.
Proof. apply visibility_loop_from. reflexivity. Qed.

Lemma visibility_loop_unhide n fs :
  map unhide (visibility_loop n fs) = map unhide fs.
Proof. rewrite visibility_loop_writes. apply apply_writes_unhide. Qed.

Lemma set_hidden_same f : set_hidden (hidden f) f = f.
Proof. destruct f; reflexivity. Qed.

(** After a list of writes a field carries the flag of the last write to it. *)
Lemma lookup_apply_writes fs0 ws : forall fs j,
  apply_writes fs0 ws fs !! j
  = (fun f => set_hidden (last_write fs0 ws j (hidden f)) f) <$> fs !! j.
Proof.
  unfold apply_writes, last_write.
  induction ws as [|w ws IH]; intros fs j; cbn [fold_left].
  - destruct (fs !! j) as [f|]; simpl; [rewrite set_hidden_same|]; reflexivity.
  - rewrite IH. unfold apply_write. rewrite lookup_update_at.
    case_decide as Hj.
    + subst j. rewrite Nat.eqb_refl.
      destruct (fs !! target w) as [f|]; reflexivity.
    + apply Nat.eqb_neq in Hj. rewrite Hj. reflexivity.
Qed.

Lemma last_write_twice fs0 ws j : forall d,
  last_write fs0 ws j (last_write fs0 ws j d) = last_write fs0 ws j d.
Proof.
  unfold last_write.
  induction ws as [|w ws IH] using rev_ind; intros d; [reflexivity|].
  rewrite !fold_left_app. cbn [fold_left].
  destruct (Nat.eqb (target w) j); [reflexivity|]. apply IH.
Qed.

(** C9.  [update_visibility] is idempotent: running it a second time,
    with no change to any value or selection in between, leaves every
    field, and so every hidden flag, as the first run left it. *)
Theorem update_visibility_idempotent (st : State) :
  update_visibility (update_visibility st) = update_visibility st.
Proof.
  unfold update_visibility, with_fields. cbn [fields total_fields current disk status_line].
  f_equal.
  set (n := total_fields st). set (fs := fields st).
  pose proof (visibility_loop_unhide n fs) as Hu.
  rewrite (visibility_loop_writes n (visibility_loop n fs)).
  assert (Hw : all_writes n (visibility_loop n fs) = all_writes n fs).
  { unfold all_writes. apply flat_map_ext. intros i. apply writes_at_unhide, Hu. }
  rewrite Hw, (apply_writes_source _ fs _ _ Hu), visibility_loop_writes.
  apply list_eq. intros j.
  rewrite !lookup_apply_writes.
  destruct (fs !! j) as [f|]; [|reflexivity].
  cbn [fmap option_fmap option_map]. f_equal.
  cbn [hidden set_hidden]. rewrite last_write_twice. reflexivity.
Qed.

End Visibility.

(* ===================================================================== *)
(** ** The shape of the registry                                          *)
(* ===================================================================== *)

Section Shape.

Lemma built_total : total_fields built = 105%nat.
Proof. vm_compute. reflexivity. Qed.

Lemma built_length : length (fields built) = MAX_FIELDS.
Proof. vm_compute. reflexivity. Qed.

Lemma built_shape : registry_shape built.
Proof. split; reflexivity. Qed.

Lemma shape_length st : registry_shape st -> length (fields st) = MAX_FIELDS.
Proof.
  intros [Hs _]. apply (f_equal length) in Hs.
  rewrite !length_map, built_length in Hs. exact Hs.
Qed.

Lemma shape_static st i :
  registry_shape st ->
  static (field_at (fields st) i) = static (field_at (fields built) i).
Proof. intros [Hs _]. apply field_at_map, Hs. Qed.

Lemma label_static f : label (static f) = label f.
Proof. reflexivity. Qed.
Lemma xml_static f : xml (static f) = xml f.
Proof. reflexivity. Qed.
Lemma options_static f : options (static f) = options f.
Proof. reflexivity. Qed.
Lemma xml_values_static f : xml_values (static f) = xml_values f.
Proof. reflexivity. Qed.
Lemma opt_count_static f : opt_count (static f) = opt_count f.
Proof. reflexivity. Qed.
Lemma type_static f : type (static f) = type f.
Proof. reflexivity. Qed.

Lemma shape_label st i :
  registry_shape st -> label (field_at (fields st) i) = label (field_at (fields built) i).
Proof. intros H. rewrite <- label_static, <- (label_static (field_at (fields built) i)).
       f_equal. apply shape_static, H. Qed.

Lemma shape_xml st i :
  registry_shape st -> xml (field_at (fields st) i) = xml (field_at (fields built) i).
Proof. intros H. rewrite <- xml_static, <- (xml_static (field_at (fields built) i)).
       f_equal. apply shape_static, H. Qed.

Lemma shape_options st i :
  registry_shape st ->
  options (field_at (fields st) i) = options (field_at (fields built) i).
Proof. intros H. rewrite <- options_static, <- (options_static (field_at (fields built) i)).
       f_equal. apply shape_static, H. Qed.

Lemma shape_xml_values st i :
  registry_shape st ->
  xml_values (field_at (fields st) i) = xml_values (field_at (fields built) i).
Proof. intros H.
       rewrite <- xml_values_static, <- (xml_values_static (field_at (fields built) i)).
       f_equal. apply shape_static, H. Qed.

Lemma shape_opt_count st i :
  registry_shape st ->
  opt_count (field_at (fields st) i) = opt_count (field_at (fields built) i).
Proof. intros H.
       rewrite <- opt_count_static, <- (opt_count_static (field_at (fields built) i)).
       f_equal. apply shape_static, H. Qed.

Lemma shape_type st i :
  registry_shape st -> type (field_at (fields st) i) = type (field_at (fields built) i).
Proof. intros H. rewrite <- type_static, <- (type_static (field_at (fields built) i)).
       f_equal. apply shape_static, H. Qed.

Lemma shape_writes st :
  registry_shape st -> all_writes (total_fields st) (fields st) = built_writes.
Proof.
  intros H. destruct H as [Hs Ht]. rewrite Ht.
  transitivity (all_writes (total_fields built) (fields built));
    [|vm_compute; reflexivity].
  unfold all_writes. apply flat_map_ext. intros i. unfold writes_at.
  rewrite (shape_label st i (conj Hs Ht)), (shape_xml st i (conj Hs Ht)).
  reflexivity.
Qed.

(** The buttons of a registry of that shape sit at rows 66, 76, 86, 96. *)
Lemma shape_buttons st i : registry_shape st -> is_button st i -> In i button_rows.
Proof.
  intros Hsh [Hi Hl].
  rewrite (shape_label st i Hsh) in Hl.
  destruct Hsh as [_ Ht]. rewrite Ht, built_total in Hi.
  assert (Hall : forallb (fun i =>
            implb (strstr (label (field_at (fields built) i)) "Key Function")
                  (existsb (Nat.eqb i) button_rows)) (seq 0 105) = true)
    by (vm_compute; reflexivity).
  rewrite forallb_forall in Hall.
  specialize (Hall i ltac:(apply in_seq; lia)).
  rewrite Hl in Hall. cbn [implb] in Hall.
  apply existsb_exists in Hall. destruct Hall as (j & Hj & Hij).
  apply Nat.eqb_eq in Hij. subst j. exact Hj.
Qed.

Lemma button_rows_are_buttons i : In i button_rows -> is_button built i.
Proof.
  intros Hi. unfold button_rows in Hi. cbn [In] in Hi.
  destruct Hi as [<-|[<-|[<-|[<-|[]]]]]; split; vm_compute; try reflexivity; lia.
Qed.

(** The hidden flag of row [j] after [update_visibility]. *)
Lemma hidden_after st j :
  registry_shape st -> (j < MAX_FIELDS)%nat ->
  hidden (field_at (fields (update_visibility st)) j)
  = last_write (fields st) built_writes j (hidden (field_at (fields st) j)).
Proof.
  intros Hsh Hj.
  unfold update_visibility, with_fields. cbn [fields].
  rewrite visibility_loop_writes, (shape_writes st Hsh).
  rewrite !field_at_lookup, lookup_apply_writes.
  destruct (fields st !! j) as [f|] eqn:Hf; [reflexivity|].
  apply lookup_ge_None in Hf. rewrite (shape_length st Hsh) in Hf. lia.
Qed.

Lemma update_visibility_static st :
  map unhide (fields (update_visibility st)) = map unhide (fields st).
Proof. apply visibility_loop_unhide. Qed.

Lemma update_visibility_shape st :
  registry_shape st -> registry_shape (update_visibility st).
Proof.
  intros [Hs Ht]. split; [|exact Ht].
  rewrite <- Hs.
  pose proof (update_visibility_static st) as Hu.
  apply (f_equal (map static)) in Hu.
  rewrite !map_map in Hu. exact Hu.
Qed.

Lemma selected_disabled t : row btn_types t = "Disabled"%string -> t = 0.
Proof.
  unfold row. destruct ((0 <=? t) && (t <? 100)) eqn:E; [|discriminate].
  intros H.
  assert (Hn : Z.to_nat t = 0%nat).
  { destruct (Z.to_nat t) as [|[|[|[|[|k]]]]]; [reflexivity|discriminate..]. }
  lia.
Qed.

End Shape.

Section ButtonVisibility.

Lemma selected_line t : row btn_types t = "Line"%string -> t = 1.
Proof.
  unfold row. destruct ((0 <=? t) && (t <? 100)) eqn:E; [|discriminate].
  intros H.
  assert (Hn : Z.to_nat t = 1%nat).
  { destruct (Z.to_nat t) as [|[|[|[|[|k]]]]]; try reflexivity; discriminate. }
  lia.
Qed.

Lemma button_options st i :
  registry_shape st -> is_button st i ->
  options (field_at (fields st) i) = btn_types.
Proof.
  intros Hsh Hb. rewrite (shape_options st i Hsh).
  pose proof (shape_buttons st i Hsh Hb) as Hi.
  unfold button_rows in Hi. cbn [In] in Hi.
  destruct Hi as [<-|[<-|[<-|[<-|[]]]]]; vm_compute; reflexivity.
Qed.

Lemma button_sub_labels st i :
  registry_shape st -> is_button st i ->
  map (fun k => label (field_at (fields st) (i + k))) [1; 2; 3; 4; 5; 6; 7; 8]%nat
  = ["Extension"; "Label"; "Auth ID"; "SIP Password"; "Auto Answer";
     "Forward All"; "Pickup Group"; "Voicemail #"]%string.
Proof.
  intros Hsh Hb.
  pose proof (shape_buttons st i Hsh Hb) as Hi.
  cbn [map].
  rewrite (shape_label st (i + 1) Hsh), (shape_label st (i + 2) Hsh),
    (shape_label st (i + 3) Hsh), (shape_label st (i + 4) Hsh),
    (shape_label st (i + 5) Hsh), (shape_label st (i + 6) Hsh),
    (shape_label st (i + 7) Hsh), (shape_label st (i + 8) Hsh).
  unfold button_rows in Hi. cbn [In] in Hi.
  destruct Hi as [<-|[<-|[<-|[<-|[]]]]]; vm_compute; reflexivity.
Qed.

(** The hidden flags of the eight rows after a button, after
    [update_visibility], as a function of the button's selection. *)
Lemma button_hidden_flags st i :
  registry_shape st -> is_button st i ->
  let t := opt_sel (field_at (fields st) i) in
  map (fun k => hidden (field_at (fields (update_visibility st)) (i + k)))
      [1; 2; 3; 4; 5; 6; 7; 8]%nat
  = [t =? 0; t =? 0; negb (t =? 1); negb (t =? 1); negb (t =? 1);
     negb (t =? 1); negb (t =? 1); negb (t =? 1)].
Proof.
  intros Hsh Hb t. subst t.
  pose proof (shape_buttons st i Hsh Hb) as Hi.
  unfold button_rows in Hi. cbn [In] in Hi.
  destruct Hi as [<-|[<-|[<-|[<-|[]]]]]; cbn [map Nat.add];
    rewrite !(hidden_after st _ Hsh) by (unfold MAX_FIELDS; lia);
    unfold built_writes, last_write;
    cbn [fold_left target source how Nat.eqb eval_rule sel_of];
    reflexivity.
Qed.

(** C7.  In a registry of the shape that [init_fields] builds, after
    [update_visibility] the eight rows that follow a button's Key Function
    (Extension, Label, Auth ID, SIP Password, Auto Answer, Forward All,
    Pickup Group, Voicemail) are all hidden when the selection is
    Disabled, all visible when it is Line, and for any other selection
    Extension and Label are visible while the other six are hidden. *)
Theorem visibility_follows_key_function (st : State) (i : nat) :
  registry_shape st -> is_button st i ->
  let st' := update_visibility st in
  let key := field_at (fields st') i in
  let hid := fun k => hidden (field_at (fields st') (i + k)) in
  map (fun k => label (field_at (fields st') (i + k))) [1; 2; 3; 4; 5; 6; 7; 8]%nat
  = ["Extension"; "Label"; "Auth ID"; "SIP Password"; "Auto Answer";
     "Forward All"; "Pickup Group"; "Voicemail #"]%string /\
  (selected_option key = "Disabled"%string ->
   map hid [1; 2; 3; 4; 5; 6; 7; 8]%nat
   = [true; true; true; true; true; true; true; true]) /\
  (selected_option key = "Line"%string ->
   map hid [1; 2; 3; 4; 5; 6; 7; 8]%nat
   = [false; false; false; false; false; false; false; false]) /\
  (selected_option key <> "Disabled"%string ->
   selected_option key <> "Line"%string ->
   map hid [1; 2; 3; 4; 5; 6; 7; 8]%nat
   = [false; false; true; true; true; true; true; true]).
Proof.
  intros Hsh Hb st' key hid.
  assert (Hsh' : registry_shape st') by (apply update_visibility_shape, Hsh).
  assert (Hb' : is_button st' i).
  { destruct Hb as [Hi Hl]. split; [exact Hi|].
    rewrite (shape_label st' i Hsh'), <- (shape_label st i Hsh). exact Hl. }
  assert (Hsel : opt_sel key = opt_sel (field_at (fields st) i))
    by (apply opt_sel_unhide, update_visibility_static).
  assert (Hopt : selected_option key = row btn_types (opt_sel (field_at (fields st) i))).
  { unfold selected_option. rewrite Hsel. subst key.
    rewrite (button_options st' i Hsh' Hb'). reflexivity. }
  pose proof (button_hidden_flags st i Hsh Hb) as Hflags. cbv zeta in Hflags.
  fold st' in Hflags.
  change (fun k => hidden (field_at (fields st') (i + k))) with hid in Hflags.
  rewrite Hopt, Hflags.
  set (t := opt_sel (field_at (fields st) i)).
  split; [apply (button_sub_labels st' i Hsh' Hb')|].
  split; [|split].
  - intros Hd. apply selected_disabled in Hd. rewrite Hd. reflexivity.
  - intros Hl. apply selected_line in Hl. rewrite Hl. reflexivity.
  - intros Hd Hl.
    assert (H0 : (t =? 0) = false).
    { apply Z.eqb_neq. intros E. apply Hd. rewrite E. reflexivity. }
    assert (H1 : (t =? 1) = false).
    { apply Z.eqb_neq. intros E. apply Hl. rewrite E. reflexivity. }
    rewrite H0, H1. reflexivity.
Qed.

Lemma visibility_follows_key_function_witness :
  map (fun k => hidden (field_at (fields (update_visibility built)) (66 + k)))
      [1; 2; 3; 4; 5; 6; 7; 8]%nat
  = [false; false; false; false; false; false; false; false].
Proof.
  assert (Hsh : registry_shape built) by (split; reflexivity).
  assert (Hb : is_button built 66)
    by (split; [vm_compute; lia | vm_compute; reflexivity]).
  apply (visibility_follows_key_function built 66 Hsh Hb).
  vm_compute. reflexivity.
Defined.

End ButtonVisibility.

(* ===================================================================== *)
(** ** What every reachable state satisfies                               *)
(* ===================================================================== *)

Section Invariant.

(** *** The sanitized MAC address *)

Lemma toupper_xdigit_upper_hex c : isxdigit c = true -> upper_hex (toupper c) = true.
Proof. destruct c as [[] [] [] [] [] [] [] []]; vm_compute; congruence. Qed.

Lemma upper_hex_isxdigit c : upper_hex c = true -> isxdigit c = true.
Proof. destruct c as [[] [] [] [] [] [] [] []]; vm_compute; congruence. Qed.

Lemma sanitize_loop_clean src : forall clean j,
  Forall (fun c => clean_byte c = true) clean ->
  Forall (fun c => clean_byte c = true) (sanitize_loop src clean j).
Proof.
  induction src as [|c src IH]; intros clean j H; cbn [sanitize_loop]; [exact H|].
  destruct (is_nul c); [exact H|].
  destruct (isxdigit c) eqn:Hx; [|apply IH, H].
  apply IH, Forall_insert; [exact H|].
  cbn beta. unfold clean_byte. rewrite (toupper_xdigit_upper_hex c Hx). reflexivity.
Qed.

Lemma c_str_clean buf :
  Forall (fun c => clean_byte c = true) buf ->
  Forall (fun c => upper_hex c = true) (c_str buf).
Proof.
  induction 1 as [|c buf Hc _ IH]; cbn [c_str]; [constructor|].
  destruct (is_nul c) eqn:Hn; [constructor|].
  constructor; [|exact IH].
  unfold clean_byte in Hc. rewrite Hn, orb_false_r in Hc. exact Hc.
Qed.

Lemma length_sanitize_loop src : forall clean j,
  length (sanitize_loop src clean j) = length clean.
Proof.
  induction src as [|c src IH]; intros clean j; cbn [sanitize_loop]; [reflexivity|].
  destruct (is_nul c); [reflexivity|].
  destruct (isxdigit c); [|apply IH].
  rewrite IH. apply length_insert.
Qed.

Lemma c_str_bound buf : forall k,
  buf !! k = Some NUL -> (length (c_str buf) <= k)%nat.
Proof.
  induction buf as [|c buf IH]; intros k Hk; [discriminate|].
  cbn [c_str]. destruct k as [|k].
  - injection Hk as ->. cbn. lia.
  - destruct (is_nul c); cbn [length]; [lia|].
    specialize (IH k Hk). lia.
Qed.

(** Whatever is typed, the sanitized value holds at most twelve
    characters, all of them upper-case hexadecimal digits. *)
Lemma sanitize_mac_clean src : mac_clean (sanitize_mac src).
Proof.
  unfold mac_clean, sanitize_mac. split.
  - rewrite chars_of_chars.
    apply c_str_clean, Forall_insert; [|reflexivity].
    apply sanitize_loop_clean.
    apply Forall_forall. intros c Hc.
    apply elem_of_replicate in Hc. destruct Hc as [-> _]. reflexivity.
  - rewrite length_of_chars. apply c_str_bound.
    apply list_lookup_insert_eq.
    rewrite length_sanitize_loop, length_replicate. lia.
Qed.

Lemma upper_hex_not_nul c : upper_hex c = true -> c <> NUL.
Proof. intros H ->. discriminate H. Qed.

Lemma toupper_upper_hex c : upper_hex c = true -> toupper c = c.
Proof. destruct c as [[] [] [] [] [] [] [] []]; vm_compute; congruence. Qed.

Lemma hex_upper_fixed l :
  Forall (fun c => upper_hex c = true) l -> hex_upper l = l.
Proof.
  unfold hex_upper. induction 1 as [|c l Hc _ IH]; [reflexivity|].
  cbn [List.filter]. rewrite (upper_hex_isxdigit c Hc). cbn [map].
  rewrite (toupper_upper_hex c Hc), IH. reflexivity.
Qed.

(** Sanitizing a sanitized value changes nothing. *)
Lemma sanitize_mac_fixed v : mac_clean v -> sanitize_mac v = v.
Proof.
  intros [Hhex Hlen].
  rewrite sanitize_mac_refines.
  - unfold sanitize_spec. fold (hex_upper (chars v)).
    rewrite (hex_upper_fixed _ Hhex), take_ge by (rewrite length_chars; lia).
    apply of_chars_chars.
  - split; [|lia]. unfold well_formed.
    eapply Forall_impl; [exact Hhex|]. intros c Hc. apply upper_hex_not_nul, Hc.
Qed.

(** *** The option picker *)

Lemma popup_loop_range cnt keys : forall sel0 sel,
  popup_loop cnt sel0 keys = Some sel ->
  (0 <= sel0 < cnt -> 0 <= sel < cnt) /\ (sel0 = 0 -> cnt <= 0 -> sel = 0).
Proof.
  induction keys as [|ch keys IH]; intros sel0 sel H; cbn [popup_loop] in H;
    [discriminate|].
  destruct ((ch =? KEY_UP) && (sel0 >? 0)) eqn:Eup.
  { apply andb_true_iff in Eup. destruct Eup as [_ Hpos].
    apply IH in H. destruct H as [Hr Hz]. split; intros; [apply Hr|]; lia. }
  destruct ((ch =? KEY_DOWN) && (sel0 <? cnt - 1)) eqn:Edown.
  { apply andb_true_iff in Edown. destruct Edown as [_ Hlt].
    apply IH in H. destruct H as [Hr Hz]. split; intros; [apply Hr|]; lia. }
  destruct (is_enter ch).
  { injection H as <-. split; intros; lia. }
  destruct (ch =? 27); [discriminate|].
  apply IH in H. exact H.
Qed.

Lemma popup_keeps_sel_ok f keys sel :
  sel_ok f = true ->
  popup_loop (opt_count f) (opt_sel f) keys = Some sel ->
  sel_ok (set_value (row (options f) sel) (set_opt_sel sel f)) = true.
Proof.
  unfold sel_ok. cbn [opt_count opt_sel set_value set_opt_sel].
  intros Hok Hloop. apply popup_loop_range in Hloop. destruct Hloop as [Hr Hz].
  destruct (opt_count f >? 0) eqn:E.
  - apply andb_true_iff in Hok. destruct Hok as [H1 H2].
    apply andb_true_iff. lia.
  - apply Z.eqb_eq in Hok. apply Z.eqb_eq. apply Hz; lia.
Qed.

(** *** Writes that keep the invariant *)

Lemma Forall_update_at (P : Field -> Prop) i g fs :
  Forall P fs ->
  (forall f, fs !! i = Some f -> P f -> P (g f)) ->
  Forall P (update_at i g fs).
Proof.
  intros H Hg. unfold update_at.
  destruct (fs !! i) as [f|] eqn:Hi; [|exact H].
  apply Forall_insert; [exact H|].
  apply Hg; [reflexivity|].
  eapply Forall_lookup_1; eauto.
Qed.

Lemma sel_ok_unhide f : sel_ok (unhide f) = sel_ok f.
Proof. reflexivity. Qed.

Lemma Forall_unhide (p : Field -> bool) fs fs' :
  (forall f, p (unhide f) = p f) ->
  map unhide fs = map unhide fs' ->
  Forall (fun f => p f = true) fs -> Forall (fun f => p f = true) fs'.
Proof.
  intros Hp Hu H.
  assert (H' : Forall (fun f => p f = true) (map unhide fs)).
  { apply Forall_map. eapply Forall_impl; [exact H|].
    intros f Hf. cbn beta. rewrite Hp. exact Hf. }
  rewrite Hu in H'. apply Forall_map in H'.
  eapply Forall_impl; [exact H'|].
  intros f Hf. cbn beta in Hf. rewrite Hp in Hf. exact Hf.
Qed.

Lemma value_unhide fs fs' i :
  map unhide fs = map unhide fs' -> value (field_at fs i) = value (field_at fs' i).
Proof. intros H. apply (f_equal value (field_at_unhide fs fs' i H)). Qed.

Lemma update_visibility_inv st : registry_inv st -> registry_inv (update_visibility st).
Proof.
  intros (Hsh & Hsel & Hmac).
  pose proof (update_visibility_static st) as Hu.
  split; [apply update_visibility_shape, Hsh|]. split.
  - apply (Forall_unhide sel_ok (fields st)); auto using sel_ok_unhide.
  - rewrite (value_unhide _ (fields st) 1 Hu). exact Hmac.
Qed.

Lemma shape_update_at st i g :
  (forall f, static (g f) = static f) ->
  registry_shape st -> registry_shape (with_fields (update_at i g (fields st)) st).
Proof.
  intros Hg [Hs Ht]. split; [|exact Ht].
  cbn [with_fields fields]. rewrite (map_update_at static i g _ Hg). exact Hs.
Qed.

Lemma built_row1 :
  label (field_at (fields built) 1) = "MAC Address"%string /\
  options (field_at (fields built) 1) = [].
Proof. split; vm_compute; reflexivity. Qed.

Lemma show_popup_inv keys i st : registry_inv st -> registry_inv (show_popup keys i st).
Proof.
  intros Hinv. unfold show_popup.
  destruct (popup_loop _ _ keys) as [sel|] eqn:Hloop; [|exact Hinv].
  apply update_visibility_inv.
  destruct Hinv as (Hsh & Hsel & Hmac).
  split; [apply shape_update_at; [reflexivity|exact Hsh]|]. split.
  - cbn [with_fields fields]. apply Forall_update_at; [exact Hsel|].
    intros f Hf Hok. apply (popup_keeps_sel_ok f keys sel Hok).
    assert (Hfi : field_at (fields st) i = f)
      by (rewrite field_at_lookup, Hf; reflexivity).
    rewrite <- Hfi. exact Hloop.
  - cbn [with_fields fields]. rewrite field_at_update_at.
    case_decide as Hi; [|exact Hmac].
    destruct Hi as [-> _]. cbn [value set_value].
    rewrite (shape_options st 1 Hsh), (proj2 built_row1).
    replace (row [] sel) with EmptyString
      by (unfold row; destruct (_ && _); [destruct (Z.to_nat sel)|]; reflexivity).
    split; [constructor | cbn; lia].
Qed.

Lemma show_text_input_inv typed i st :
  registry_inv st -> registry_inv (show_text_input typed i st).
Proof.
  intros (Hsh & Hsel & Hmac). unfold show_text_input.
  split; [apply shape_update_at; [reflexivity|exact Hsh]|]. split.
  - cbn [with_fields fields]. apply Forall_update_at; [exact Hsel|].
    intros f _ Hok. exact Hok.
  - cbn [with_fields fields]. rewrite field_at_update_at.
    case_decide as Hi; [|exact Hmac].
    destruct Hi as [-> _]. cbn [value set_value].
    rewrite (shape_label st 1 Hsh), (proj1 built_row1).
    change (strstr "MAC Address" "MAC") with true. cbv iota.
    apply sanitize_mac_clean.
Qed.

Lemma fields_save_xml ok st :
  fields (save_xml ok st) = fields st /\
  total_fields (save_xml ok st) = total_fields st /\
  current (save_xml ok st) = current st.
Proof.
  unfold save_xml.
  destruct (negb (Nat.eqb _ 12)); [repeat split|].
  destruct (negb ok); repeat split.
Qed.

Lemma registry_inv_ext st st' :
  fields st' = fields st -> total_fields st' = total_fields st ->
  registry_inv st -> registry_inv st'.
Proof.
  intros Hf Ht (Hsh & Hsel & Hmac). unfold registry_inv, registry_shape.
  rewrite Hf, Ht. destruct Hsh. auto.
Qed.

Lemma main_step_inv ch keys typed ok st :
  registry_inv st -> registry_inv (main_step ch keys typed ok st).
Proof.
  intros H. unfold main_step.
  set (st1 := if ch =? code "s" then save_xml ok st else st).
  assert (H1 : registry_inv st1).
  { subst st1. destruct (ch =? code "s"); [|exact H].
    destruct (fields_save_xml ok st) as (Hf & Ht & _).
    exact (registry_inv_ext st _ Hf Ht H). }
  clearbody st1.
  set (st2 := if (ch =? KEY_UP) && _ then key_up st1 else st1).
  assert (H2 : registry_inv st2).
  { subst st2. destruct (_ && _); [|exact H1].
    exact (registry_inv_ext st1 _ eq_refl eq_refl H1). }
  clearbody st2.
  set (st3 := if (ch =? KEY_DOWN) && _ then key_down st2 else st2).
  assert (H3 : registry_inv st3).
  { subst st3. destruct (_ && _); [|exact H2].
    exact (registry_inv_ext st2 _ eq_refl eq_refl H2). }
  clearbody st3.
  destruct (is_enter ch); [|exact H3].
  destruct (_ >? 0); [apply show_popup_inv | apply show_text_input_inv]; exact H3.
Qed.

Lemma init_fields_boot files :
  fields (init_fields (boot files)) = fields built /\
  total_fields (init_fields (boot files)) = total_fields built.
Proof. split; vm_compute; reflexivity. Qed.

Lemma built_inv : registry_inv built.
Proof.
  split; [apply built_shape|]. split.
  - assert (Hall : forallb sel_ok (fields built) = true) by (vm_compute; reflexivity).
    rewrite forallb_forall in Hall.
    apply List.Forall_forall. exact Hall.
  - replace (value (field_at (fields built) 1)) with EmptyString
      by (vm_compute; reflexivity).
    split; [constructor | cbn; lia].
Qed.

(** The invariant holds in every state the program passes through. *)
Lemma reachable_inv st : reachable st -> registry_inv st.
Proof.
  intros [files Hrtc]. revert st Hrtc.
  apply (rtc_ind_r (fun s => registry_inv s)).
  - destruct (init_fields_boot files) as [Hf Ht].
    exact (registry_inv_ext built _ Hf Ht built_inv).
  - intros st st' _ Hstep IH. destruct Hstep. apply main_step_inv, IH.
Qed.

Lemma reachable_built : reachable built.
Proof. exists ∅. apply rtc_refl. Qed.

Lemma reachable_step ch keys typed ok st :
  reachable st -> ch <> code "q" -> well_formed typed ->
  reachable (main_step ch keys typed ok st).
Proof.
  intros [files H] Hq Hwf. exists files.
  eapply rtc_r; [exact H|]. constructor; assumption.
Qed.

End Invariant.

(* ===================================================================== *)
(** ** MAC sanitization (C6)                                              *)
(* ===================================================================== *)

Section SanitizeClaim.

(** C6.  For every string that the value buffer of a field can hold,
    [sanitize_mac] yields what is left after deleting every character that
    is not a hexadecimal digit, upper-casing the rest and keeping at most
    the first 12 characters; nothing is added, so fewer than 12 digits give
    a shorter result.  Sanitizing 00:07:a1-B2.c3d4 yields 0007A1B2C3D4. *)
Theorem sanitize_mac_spec (src : string) :
  fits_value src ->
  sanitize_mac src
  = of_chars (take 12 (map toupper (List.filter isxdigit (chars src)))) /\
  String.length (sanitize_mac src)
  = Nat.min 12 (length (List.filter isxdigit (chars src))) /\
  sanitize_mac "00:07:a1-B2.c3d4" = "0007A1B2C3D4"%string.
Proof.
  intros Hfit.
  pose proof (sanitize_mac_refines src Hfit) as Href.
  unfold sanitize_spec in Href.
  split; [exact Href|]. split; [|vm_compute; reflexivity].
  rewrite Href, length_of_chars, length_take, length_map. reflexivity.
Qed.

Lemma sanitize_mac_spec_witness :
  sanitize_mac "00:07:a1"
  = of_chars (take 12 (map toupper (List.filter isxdigit (chars "00:07:a1")))).
Proof.
  apply (sanitize_mac_spec "00:07:a1").
  split; [|simpl; lia].
  unfold well_formed. simpl. repeat constructor; discriminate.
Defined.

End SanitizeClaim.

(* ===================================================================== *)
(** ** Selections stay within the options (C8)                            *)
(* ===================================================================== *)

Section Selection.

Lemma options_ok_static f : options_ok (static f) = options_ok f.
Proof. reflexivity. Qed.

Lemma built_options_ok : Forall (fun f => options_ok f = true) (fields built).
Proof.
  assert (Hall : forallb options_ok (fields built) = true) by (vm_compute; reflexivity).
  rewrite forallb_forall in Hall. apply List.Forall_forall. exact Hall.
Qed.

Lemma shape_options_ok st :
  registry_shape st -> Forall (fun f => options_ok f = true) (fields st).
Proof.
  intros [Hs _].
  assert (H : Forall (fun f => options_ok f = true) (map static (fields st))).
  { rewrite Hs. apply Forall_map. eapply Forall_impl; [apply built_options_ok|].
    intros f Hf. cbn beta. rewrite options_ok_static. exact Hf. }
  apply Forall_map in H. eapply Forall_impl; [exact H|].
  intros f Hf. cbn beta in Hf. rewrite options_ok_static in Hf. exact Hf.
Qed.

Lemma options_ok_inv f :
  options_ok f = true ->
  length (xml_values f) = length (options f) /\
  opt_count f = Z.of_nat (length (options f)) /\ opt_count f <= 100.
Proof.
  unfold options_ok. intros H.
  apply andb_true_iff in H. destruct H as [H H3].
  apply andb_true_iff in H. destruct H as [H1 H2].
  apply Nat.eqb_eq in H1. lia.
Qed.

Lemma inv_selection_valid st :
  registry_inv st -> Forall selection_valid (fields st).
Proof.
  intros (Hsh & Hsel & _).
  pose proof (shape_options_ok st Hsh) as Hopt.
  apply List.Forall_forall. intros f Hf.
  rewrite List.Forall_forall in Hsel, Hopt.
  specialize (Hsel f Hf). specialize (Hopt f Hf).
  apply options_ok_inv in Hopt. destruct Hopt as (_ & Hc & _).
  unfold selection_valid, sel_ok in *. intros Hne.
  assert (Hpos : (0 < length (options f))%nat)
    by (destruct (options f); [congruence | simpl; lia]).
  destruct (opt_count f >? 0) eqn:E; [|lia].
  apply andb_true_iff in Hsel. lia.
Qed.

(** C8.  In every state the program passes through, from the one that
    [init_fields] constructs onwards, the selection of every dropdown (a
    field with a non-empty option list) is an index into its options; and
    whatever keys are pressed in the option picker opened on any row, the
    same holds of the state that [show_popup] leaves. *)
Theorem selection_within_options (st : State) :
  reachable st ->
  Forall selection_valid (fields st) /\
  forall keys i, Forall selection_valid (fields (show_popup keys i st)).
Proof.
  intros Hr. apply reachable_inv in Hr.
  split; [apply inv_selection_valid, Hr|].
  intros keys i. apply inv_selection_valid, show_popup_inv, Hr.
Qed.

Lemma selection_within_options_witness :
  Forall selection_valid (fields (show_popup [KEY_DOWN; KEY_DOWN; KEY_DOWN; 10] 6 built)).
Proof.
  apply (selection_within_options built).
  exists ∅. apply rtc_refl.
Defined.

End Selection.

(* ===================================================================== *)
(** ** Lookups (C5)                                                       *)
(* ===================================================================== *)

Section Lookups.

Lemma get_field_loop_Some fs tag n : forall i j,
  get_field_loop fs tag i n = Some j ->
  (i <= j < i + n)%nat /\ xml (field_at fs j) = tag /\
  forall k, (i <= k < j)%nat -> xml (field_at fs k) <> tag.
Proof.
  induction n as [|n IH]; intros i j H; cbn [get_field_loop] in H; [discriminate|].
  unfold streq in H.
  destruct (String.eqb (xml (field_at fs i)) tag) eqn:E.
  - injection H as <-. apply String.eqb_eq in E.
    split; [lia|]. split; [exact E|]. intros k Hk. lia.
  - apply IH in H. destruct H as (Hr & Hx & Hmin).
    split; [lia|]. split; [exact Hx|].
    intros k Hk. destruct (decide (k = i)) as [->|Hne].
    + apply String.eqb_neq. exact E.
    + apply Hmin. lia.
Qed.

Lemma get_field_loop_None fs tag n : forall i,
  get_field_loop fs tag i n = None ->
  forall k, (i <= k < i + n)%nat -> xml (field_at fs k) <> tag.
Proof.
  induction n as [|n IH]; intros i H k Hk; [lia|].
  cbn [get_field_loop] in H. unfold streq in H.
  destruct (String.eqb (xml (field_at fs i)) tag) eqn:E; [discriminate|].
  destruct (decide (k = i)) as [->|Hne].
  - apply String.eqb_neq. exact E.
  - apply (IH (S i) H). lia.
Qed.

(** [get_field] finds the first row with the key, or none. *)
Lemma get_field_first st key i : get_field st key = Some i <-> first_match st key i.
Proof.
  unfold get_field, first_match. split.
  - intros H. apply get_field_loop_Some in H. destruct H as (Hr & Hx & Hmin).
    split; [lia|]. split; [exact Hx|]. intros k Hk. apply Hmin. lia.
  - intros (Hi & Hx & Hmin).
    destruct (get_field_loop (fields st) key 0 (total_fields st)) as [j|] eqn:E.
    + apply get_field_loop_Some in E. destruct E as (Hr & Hxj & Hminj).
      f_equal. destruct (Nat.lt_trichotomy i j) as [Hlt|[->|Hgt]]; [|reflexivity|].
      * exfalso. apply (Hminj i); [lia|exact Hx].
      * exfalso. apply (Hmin j); [lia|exact Hxj].
    + exfalso. apply (get_field_loop_None _ _ _ _ E i); [lia|exact Hx].
Qed.

Lemma get_field_absent st key : get_field st key = None <-> absent st key.
Proof.
  unfold get_field, absent. split.
  - intros H k Hk. apply (get_field_loop_None _ _ _ _ H k). lia.
  - intros H.
    destruct (get_field_loop (fields st) key 0 (total_fields st)) as [j|] eqn:E;
      [|reflexivity].
    apply get_field_loop_Some in E. destruct E as (Hr & Hx & _).
    exfalso. apply (H j); [lia|exact Hx].
Qed.

(** In a reachable state [xml_values[opt_sel]] is a read inside the array
    and yields the encoded value of the selected option. *)
Lemma row_selected st i :
  registry_inv st ->
  let f := field_at (fields st) i in
  0 <= opt_sel f < 100 /\ row (xml_values f) (opt_sel f) = selected_encoded f.
Proof.
  intros (Hsh & Hsel & _) f.
  assert (Hin : sel_ok f = true /\ options_ok f = true).
  { subst f. rewrite field_at_lookup.
    destruct (fields st !! i) as [g|] eqn:Hg; [|split; reflexivity].
    change (default zero_field (Some g)) with g. split.
    - exact (Forall_lookup_1 (fun f => sel_ok f = true) _ i g Hsel Hg).
    - exact (Forall_lookup_1 (fun f => options_ok f = true) _ i g
               (shape_options_ok st Hsh) Hg). }
  destruct Hin as [Hok Hopt].
  apply options_ok_inv in Hopt. destruct Hopt as (Hlen & Hc & H100).
  unfold sel_ok in Hok. unfold row, selected_encoded.
  destruct (options f) as [|o os] eqn:Ho.
  - cbn [length] in *. destruct (xml_values f); [|discriminate].
    destruct (opt_count f >? 0) eqn:E; [lia|].
    apply Z.eqb_eq in Hok. rewrite Hok. split; [lia|reflexivity].
  - cbn [length] in Hc.
    destruct (opt_count f >? 0) eqn:E; [|lia].
    apply andb_true_iff in Hok. destruct Hok as [H0 H1].
    split; [lia|].
    replace ((0 <=? opt_sel f) && (opt_sel f <? 100)) with true; [reflexivity|].
    symmetry. apply andb_true_iff. lia.
Qed.

(** C5.  In every state the program passes through and for every key,
    [val] and [opt_val] return without reading outside an array: when the
    key is present, the value of the first field in registry order that
    carries it and the encoded value of the option selected there (the
    empty string when that field has no options); when the key is absent,
    the empty string.  One of the two cases always applies. *)
Theorem lookups_total (st : State) (key : string) :
  reachable st ->
  (forall i, first_match st key i ->
     let f := field_at (fields st) i in
     get_field st key = Some i /\
     val st key = value f /\
     opt_val st key = selected_encoded f /\
     0 <= opt_sel f < 100) /\
  (absent st key ->
     get_field st key = None /\ val st key = EmptyString /\ opt_val st key = EmptyString) /\
  ((exists i, first_match st key i) \/ absent st key).
Proof.
  intros Hr. apply reachable_inv in Hr.
  split; [|split].
  - intros i Hi f. apply get_field_first in Hi.
    unfold val, opt_val. rewrite Hi. cbv zeta.
    destruct (row_selected st i Hr) as [Hrange Hrow].
    fold f in Hrange, Hrow. auto.
  - intros Ha. apply get_field_absent in Ha.
    unfold val, opt_val. rewrite Ha. auto.
  - destruct (get_field st key) as [i|] eqn:E.
    + left. exists i. apply get_field_first, E.
    + right. apply get_field_absent, E.
Qed.

Lemma lookups_total_witness :
  val built "name" = value (field_at (fields built) 67) /\
  opt_val built "lineType" = "1"%string.
Proof.
  assert (Hr : reachable built) by (exists ∅; apply rtc_refl).
  split.
  - apply (proj1 (lookups_total built "name" Hr) 67%nat).
    split; [vm_compute; lia|]. split; [vm_compute; reflexivity|].
    intros k Hk.
    assert (Hall : forallb (fun k => negb (String.eqb (xml (field_at (fields built) k)) "name"))
                     (seq 0 67) = true) by (vm_compute; reflexivity).
    rewrite forallb_forall in Hall.
    specialize (Hall k ltac:(apply in_seq; lia)).
    apply negb_true_iff, String.eqb_neq in Hall. exact Hall.
  - transitivity (selected_encoded (field_at (fields built) 66));
      [|vm_compute; reflexivity].
    apply (proj1 (lookups_total built "lineType" Hr) 66%nat).
    split; [vm_compute; lia|]. split; [vm_compute; reflexivity|].
    intros k Hk.
    assert (Hall : forallb (fun k => negb (String.eqb (xml (field_at (fields built) k)) "lineType"))
                     (seq 0 66) = true) by (vm_compute; reflexivity).
    rewrite forallb_forall in Hall.
    specialize (Hall k ltac:(apply in_seq; lia)).
    apply negb_true_iff, String.eqb_neq in Hall. exact Hall.
Defined.

End Lookups.

(* ===================================================================== *)
(** ** The document, element by element                                   *)
(* ===================================================================== *)

Section Document.

Context {A : Type} (p : call -> list A).

Lemma proj_when c s : flat_map p (when c s) = if c then flat_map p s else [].
Proof. destruct c; reflexivity. Qed.

Lemma proj_fprintf fmt args : flat_map p (fprintf fmt args) = p (Fprintf (lit fmt) args).
Proof. unfold fprintf. cbn [flat_map]. apply app_nil_r. Qed.

Lemma proj_rows (g : nat -> list call) l :
  flat_map p (flat_map g l) = flat_map (fun i => flat_map p (g i)) l.
Proof.
  induction l as [|i l IH]; [reflexivity|].
  cbn [flat_map]. rewrite flat_map_app, IH. reflexivity.
Qed.

Lemma if_nil (c : bool) : (if c then [] else []) = @nil A.
Proof. destruct c; reflexivity. Qed.

End Document.

Lemma flat_map_nil {A B} (l : list A) : flat_map (fun _ => @nil B) l = [].
Proof. induction l; auto. Qed.

Lemma proj_lines {A} (p : call -> list A) st :
  flat_map p (flat_map (line_block st) (seq 0 (total_fields st)))
  = per_row st (fun i => flat_map p (line_block st i)).
Proof. apply proj_rows. Qed.

Lemma per_row_ext {A} st (g h : nat -> list A) :
  (forall i, (i < total_fields st)%nat -> g i = h i) -> per_row st g = per_row st h.
Proof.
  intros H. unfold per_row.
  assert (Hl : forall l, (forall i, In i l -> (i < total_fields st)%nat) ->
                         flat_map g l = flat_map h l).
  { induction l as [|i l IH]; intros Hin; [reflexivity|].
    cbn [flat_map]. rewrite (H i), IH; auto using in_cons, in_eq. }
  apply Hl. intros i Hi. apply in_seq in Hi. lia.
Qed.

Lemma per_row_nil {A} st : per_row st (fun _ => @nil A) = [].
Proof. apply flat_map_nil. Qed.

(** Pushing a projection of the calls down to the single calls. *)
Ltac push_proj :=
  cbv zeta;
  repeat first
    [ rewrite proj_lines
    | rewrite flat_map_app
    | rewrite proj_when
    | rewrite proj_fprintf ].

(** The projection of the document and of a [line] block, with the
    projection pushed down to the single calls. *)
Lemma document_projection {A} (p : call -> list A) (st : State) :
  { l : list A | flat_map p (xml_document st) = l }.
Proof. eexists. unfold xml_document. push_proj. reflexivity. Defined.

Lemma line_projection {A} (p : call -> list A) (st : State) (i : nat) :
  { l : list A | flat_map p (line_block st i) = l }.
Proof. eexists. unfold line_block. push_proj. reflexivity. Defined.

Ltac tidy := repeat (progress (cbn [app]; rewrite ?if_nil, ?app_nil_r)).

Ltac eval_contents :=
  cbv [proj1_sig document_projection line_projection
       call_contents c_fmt c_args hits hits_from rev_string rev_onto lit
       String.append starts_with Ascii.eqb Bool.eqb orb andb
       newline dquote select show_arg].

(** The contents written as [tag] by the [line] block of row [i]. *)
Ltac line_contents :=
  unfold contents;
  match goal with
  | |- flat_map ?p (line_block ?st ?i) = _ =>
      rewrite (proj2_sig (line_projection p st i))
  end;
  eval_contents; tidy; try reflexivity.

(** The contents written as [tag] by the document, given by [Hline] what
    the [line] blocks write. *)
Ltac doc_contents Hline :=
  unfold contents;
  match goal with
  | |- flat_map ?p (xml_document ?st) = _ =>
      rewrite (proj2_sig (document_projection p st))
  end;
  cbv [proj1_sig document_projection];
  rewrite (per_row_ext _ _ _ (fun i _ => Hline i));
  eval_contents; rewrite ?per_row_nil; tidy; try reflexivity.

Section Leaves.

Variable st : State.

Lemma line_silent i : flat_map (call_contents "ntpServerAddr") (line_block st i) = [].
Proof. line_contents. Qed.

Lemma ntpServerAddr_contents :
  contents "ntpServerAddr" (xml_document st) = if_nonempty (val st "ntpServerAddr").
Proof. doc_contents line_silent. Qed.



End Leaves.

(* ===================================================================== *)
(** ** The text of the document, call by call                             *)
(* ===================================================================== *)

Section Text.

Lemma append_cons c s t : String.append (String c s) t = String c (String.append s t).
Proof. reflexivity. Qed.

Lemma append_empty_r s : String.append s EmptyString = s.
Proof. induction s as [|c s IH]; [reflexivity|]. rewrite append_cons. f_equal. exact IH. Qed.

Lemma append_append a b c :
  String.append (String.append a b) c = String.append a (String.append b c).
Proof. induction a as [|x a IH]; [reflexivity|]. rewrite !append_cons. f_equal. exact IH. Qed.

(** The tokens of a call are its text. *)
Lemma flatten_tokens_upto n : forall fmt args,
  (String.length fmt <= n)%nat -> flatten (tokens fmt args) = sprintf fmt args.
Proof.
  induction n as [|n IH]; intros fmt args Hn.
  - destruct fmt; [reflexivity | cbn in Hn; lia].
  - destruct fmt as [|c rest]; [reflexivity|].
    cbn [tokens sprintf]. cbn [String.length] in Hn.
    destruct (Ascii.eqb c "%").
    + destruct rest as [|d rest']; [reflexivity|]. cbn [String.length] in Hn.
      destruct (Ascii.eqb d "s" || Ascii.eqb d "d").
      * destruct args as [|a args']; cbn [flatten]; rewrite IH by lia; reflexivity.
      * cbn [flatten]. rewrite IH by lia. reflexivity.
    + cbn [flatten]. rewrite IH by lia. reflexivity.
Qed.

Lemma flatten_tokens c : flatten (call_tokens c) = render c.
Proof. apply (flatten_tokens_upto (String.length (c_fmt c))). lia. Qed.

Lemma tokens_clean_upto n : forall fmt args,
  (String.length fmt <= n)%nat ->
  forallb (fun a => no_lt (show_arg a)) args = true ->
  clean_tokens (tokens fmt args) = true.
Proof.
  induction n as [|n IH]; intros fmt args Hn Hc.
  - destruct fmt; [reflexivity | cbn in Hn; lia].
  - destruct fmt as [|c rest]; [reflexivity|].
    cbn [tokens]. cbn [String.length] in Hn.
    destruct (Ascii.eqb c "%").
    + destruct rest as [|d rest']; [reflexivity|]. cbn [String.length] in Hn.
      destruct (Ascii.eqb d "s" || Ascii.eqb d "d").
      * destruct args as [|a args']; [apply IH; [lia | reflexivity]|].
        cbn [forallb] in Hc. apply andb_true_iff in Hc. destruct Hc as [Ha Hc].
        unfold clean_tokens. cbn [forallb]. rewrite Ha. cbn [andb].
        apply IH; [lia | exact Hc].
      * unfold clean_tokens. cbn [forallb andb]. apply IH; [lia | exact Hc].
    + unfold clean_tokens. cbn [forallb andb]. apply IH; [lia | exact Hc].
Qed.

Lemma call_tokens_clean c : clean_call c = true -> clean_tokens (call_tokens c) = true.
Proof. apply (tokens_clean_upto (String.length (c_fmt c))). lia. Qed.

(** *** What the tokens decide holds of the text, whatever follows *)

Lemma clean_cons t ts :
  clean_tokens (t :: ts) = true ->
  match t with Arg s => no_lt s = true | Lit _ => True end /\ clean_tokens ts = true.
Proof.
  unfold clean_tokens. cbn [forallb]. intros H. apply andb_true_iff in H.
  destruct H as [H1 H2]. split; [destruct t; auto | exact H2].
Qed.

Lemma strip_lit_yes pre : forall ts r s2,
  strip_lit pre ts = Yes r ->
  strip pre (String.append (flatten ts) s2) = Some (String.append (flatten r) s2).
Proof.
  induction pre as [|a pre IH]; intros ts r s2 H; cbn [strip_lit strip] in *.
  - injection H as <-. reflexivity.
  - destruct ts as [|[b|s] ts]; try discriminate H.
    cbn [flatten]. rewrite append_cons. destruct (Ascii.eqb a b); [|discriminate H].
    apply IH, H.
Qed.

Lemma strip_lit_no pre : forall ts s2,
  strip_lit pre ts = No -> strip pre (String.append (flatten ts) s2) = None.
Proof.
  induction pre as [|a pre IH]; intros ts s2 H; cbn [strip_lit strip] in *.
  - discriminate H.
  - destruct ts as [|[b|s] ts]; try discriminate H.
    cbn [flatten]. rewrite append_cons. destruct (Ascii.eqb a b); [|reflexivity].
    apply IH, H.
Qed.

Lemma strip_lit_clean pre : forall ts r,
  strip_lit pre ts = Yes r -> clean_tokens ts = true -> clean_tokens r = true.
Proof.
  induction pre as [|a pre IH]; intros ts r H Hc; cbn [strip_lit] in H.
  - injection H as <-. exact Hc.
  - destruct ts as [|[b|s] ts]; try discriminate H.
    destruct (Ascii.eqb a b); [|discriminate H].
    apply (IH ts r H). apply clean_cons in Hc. apply Hc.
Qed.

Lemma ends_name_lit_text ts b s2 :
  ends_name_lit ts = Some b -> ends_name (String.append (flatten ts) s2) = b.
Proof.
  destruct ts as [|[c|s] ts]; cbn [ends_name_lit]; try discriminate.
  intros H. injection H as <-. reflexivity.
Qed.

Lemma after_gt_lit_text ts : forall r s2,
  after_gt_lit ts = Some r ->
  after_gt (String.append (flatten ts) s2) = String.append (flatten r) s2.
Proof.
  induction ts as [|[c|s] ts IH]; intros r s2 H; cbn [after_gt_lit] in H;
    try discriminate H.
  cbn [flatten]. rewrite append_cons. cbn [after_gt]. destruct (Ascii.eqb c ">").
  - injection H as <-. reflexivity.
  - apply IH, H.
Qed.

Lemma after_gt_lit_clean ts : forall r,
  after_gt_lit ts = Some r -> clean_tokens ts = true -> clean_tokens r = true.
Proof.
  induction ts as [|[c|s] ts IH]; intros r H Hc; cbn [after_gt_lit] in H;
    try discriminate H.
  apply clean_cons in Hc. destruct Hc as [_ Hc].
  destruct (Ascii.eqb c ">"); [injection H as <-; exact Hc | apply IH; assumption].
Qed.

Lemma start_tag_lit_yes tag ts body s2 :
  start_tag_lit tag ts = Yes body ->
  start_tag tag (String.append (flatten ts) s2) = Some (String.append (flatten body) s2).
Proof.
  unfold start_tag_lit, start_tag. intros H.
  destruct (strip_lit (start_of tag) ts) as [rest| |] eqn:Hs; try discriminate H.
  rewrite (strip_lit_yes _ _ _ s2 Hs).
  destruct (ends_name_lit rest) as [[|]|] eqn:He; try discriminate H.
  rewrite (ends_name_lit_text _ _ s2 He).
  destruct (after_gt_lit rest) as [b|] eqn:Ha; [|discriminate H].
  injection H as <-. rewrite (after_gt_lit_text _ _ s2 Ha). reflexivity.
Qed.

Lemma start_tag_lit_no tag ts s2 :
  start_tag_lit tag ts = No -> start_tag tag (String.append (flatten ts) s2) = None.
Proof.
  unfold start_tag_lit, start_tag. intros H.
  destruct (strip_lit (start_of tag) ts) as [rest| |] eqn:Hs; try discriminate H.
  - rewrite (strip_lit_yes _ _ _ s2 Hs).
    destruct (ends_name_lit rest) as [[|]|] eqn:He; try discriminate H.
    + destruct (after_gt_lit rest); discriminate H.
    + rewrite (ends_name_lit_text _ _ s2 He). reflexivity.
  - rewrite (strip_lit_no _ _ s2 Hs). reflexivity.
Qed.

Lemma start_tag_lit_clean tag ts body :
  start_tag_lit tag ts = Yes body -> clean_tokens ts = true -> clean_tokens body = true.
Proof.
  unfold start_tag_lit. intros H Hc.
  destruct (strip_lit (start_of tag) ts) as [rest| |] eqn:Hs; try discriminate H.
  destruct (ends_name_lit rest) as [[|]|]; try discriminate H.
  destruct (after_gt_lit rest) as [b|] eqn:Ha; [|discriminate H].
  injection H as <-.
  apply (after_gt_lit_clean rest b Ha), (strip_lit_clean _ ts rest Hs Hc).
Qed.

(** A value without [<] holds neither a start tag nor an end tag. *)
Lemma content_until_value tag s : forall rest,
  no_lt s = true ->
  content_until (end_of tag) (String.append s rest)
  = String.append s (content_until (end_of tag) rest).
Proof.
  induction s as [|c s IH]; intros rest H; [reflexivity|].
  cbn [no_lt] in H. apply andb_true_iff in H. destruct H as [Hc Hs].
  rewrite append_cons. cbn [content_until end_of strip].
  rewrite Ascii.eqb_sym. apply negb_true_iff in Hc. rewrite Hc.
  rewrite IH by exact Hs. reflexivity.
Qed.

Lemma elements_value tag s : forall rest,
  no_lt s = true -> elements tag (String.append s rest) = elements tag rest.
Proof.
  induction s as [|c s IH]; intros rest H; [reflexivity|].
  cbn [no_lt] in H. apply andb_true_iff in H. destruct H as [Hc Hs].
  rewrite append_cons. cbn [elements]. unfold start_tag. cbn [start_of strip].
  rewrite Ascii.eqb_sym. apply negb_true_iff in Hc. rewrite Hc.
  apply IH, Hs.
Qed.

Lemma content_tok_text tag ts : forall cnt s2,
  clean_tokens ts = true ->
  content_tok (end_of tag) ts = Some cnt ->
  content_until (end_of tag) (String.append (flatten ts) s2) = cnt.
Proof.
  induction ts as [|[c|s] ts IH]; intros cnt s2 Hc H; cbn [content_tok] in H.
  - discriminate H.
  - apply clean_cons in Hc. destruct Hc as [_ Hc].
    destruct (strip_lit (end_of tag) (Lit c :: ts)) as [r| |] eqn:Hs;
      try discriminate H.
    + injection H as <-.
      pose proof (strip_lit_yes _ _ _ s2 Hs) as Ht.
      cbn [flatten] in Ht |- *. rewrite ?append_cons in Ht |- *. cbn [content_until].
      rewrite Ht. reflexivity.
    + pose proof (strip_lit_no _ _ s2 Hs) as Ht.
      cbn [flatten] in Ht |- *. rewrite ?append_cons in Ht |- *. cbn [content_until].
      rewrite Ht.
      destruct (content_tok (end_of tag) ts) as [cnt'|] eqn:Hk; [|discriminate H].
      cbn [option_map] in H. injection H as <-.
      rewrite (IH cnt' s2 Hc eq_refl). reflexivity.
  - apply clean_cons in Hc. destruct Hc as [Hv Hc].
    destruct (content_tok (end_of tag) ts) as [cnt'|] eqn:Hk; [|discriminate H].
    cbn [option_map] in H. injection H as <-.
    cbn [flatten]. rewrite append_append, (content_until_value tag s _ Hv).
    rewrite (IH cnt' s2 Hc eq_refl). reflexivity.
Qed.

Lemma piece_text tag ts : forall l s2,
  clean_tokens ts = true ->
  piece tag ts = Some l ->
  elements tag (String.append (flatten ts) s2) = l ++ elements tag s2.
Proof.
  induction ts as [|[c|s] ts IH]; intros l s2 Hc H; cbn [piece] in H.
  - injection H as <-. reflexivity.
  - pose proof (proj2 (clean_cons _ _ Hc)) as Hc'.
    destruct (start_tag_lit tag (Lit c :: ts)) as [body| |] eqn:Hs;
      try discriminate H.
    + destruct (content_tok (end_of tag) body) as [cnt|] eqn:Hk; [|discriminate H].
      destruct (piece tag ts) as [l'|] eqn:Hp; [|discriminate H].
      injection H as <-.
      pose proof (start_tag_lit_yes _ _ _ s2 Hs) as Ht.
      cbn [flatten] in Ht |- *. rewrite ?append_cons in Ht |- *. cbn [elements]. rewrite Ht.
      rewrite (content_tok_text tag body cnt s2
                 (start_tag_lit_clean _ _ _ Hs Hc) Hk).
      rewrite (IH l' s2 Hc' eq_refl). reflexivity.
    + pose proof (start_tag_lit_no _ _ s2 Hs) as Ht.
      cbn [flatten] in Ht |- *. rewrite ?append_cons in Ht |- *. cbn [elements]. rewrite Ht.
      apply IH; assumption.
  - apply clean_cons in Hc. destruct Hc as [Hv Hc].
    cbn [flatten]. rewrite append_append, (elements_value tag s _ Hv).
    apply IH; assumption.
Qed.

(** The elements of the text that a sequence of calls writes are those of
    the single calls, when every call decides alone and no argument holds
    a [<]. *)
Lemma elements_written tag (doc : list call) :
  Forall (fun c => clean_call c = true) doc ->
  flat_map (call_open tag) doc = [] ->
  elements tag (written doc) = flat_map (call_elements tag) doc.
Proof.
  induction doc as [|c doc IH]; intros Hc Ho; [reflexivity|].
  apply Forall_cons in Hc. destruct Hc as [Hc Hd].
  cbn [flat_map] in Ho |- *. apply app_eq_nil in Ho. destruct Ho as [Ho Ho'].
  unfold written in *. cbn [map fold_right].
  unfold call_open in Ho. unfold call_elements at 1.
  destruct (piece tag (call_tokens c)) as [l|] eqn:Hp; [|discriminate Ho].
  rewrite <- flatten_tokens.
  rewrite (piece_text tag _ l _ (call_tokens_clean c Hc) Hp).
  rewrite (IH Hd Ho'). reflexivity.
Qed.

End Text.

(* ===================================================================== *)
(** ** No argument of the serializer holds markup                         *)
(* ===================================================================== *)

Section Clean.

Lemma no_lt_uint d : no_lt (NilEmpty.string_of_uint d) = true.
Proof. induction d; cbn [NilEmpty.string_of_uint no_lt]; try exact IHd; reflexivity. Qed.

Lemma no_lt_dec z : no_lt (dec z) = true.
Proof.
  unfold dec, NilZero.string_of_int, NilZero.string_of_uint.
  destruct (Z.to_int z) as [d|d]; destruct d; try reflexivity;
    cbn [no_lt]; try apply no_lt_uint;
    change (no_lt (NilEmpty.string_of_uint d) = true); apply no_lt_uint.
Qed.

Variable st : State.
Hypothesis Hfree : markup_free st = true.

Lemma field_clean i :
  no_lt (value (field_at (fields st) i)) = true /\
  forallb no_lt (xml_values (field_at (fields st) i)) = true.
Proof.
  unfold field_at. rewrite list_lookup_total_alt.
  destruct (fields st !! i) as [f|] eqn:Hf; cbn [default]; [|split; reflexivity].
  unfold markup_free in Hfree. rewrite forallb_forall in Hfree.
  apply list_elem_of_lookup_2, list_elem_of_In, Hfree in Hf.
  apply andb_true_iff in Hf. exact Hf.
Qed.

Lemma value_clean i : no_lt (value (field_at (fields st) i)) = true.
Proof. apply field_clean. Qed.

Lemma val_clean key : no_lt (val st key) = true.
Proof. unfold val. destruct (get_field st key); [apply value_clean | reflexivity]. Qed.

Lemma opt_val_clean key : no_lt (opt_val st key) = true.
Proof.
  unfold opt_val. destruct (get_field st key) as [i|]; [|reflexivity].
  cbv zeta. unfold row.
  destruct ((0 <=? _) && (_ <? 100)); [|reflexivity].
  pose proof (proj2 (field_clean i)) as Hx. rewrite forallb_forall in Hx.
  destruct (nth_in_or_default (Z.to_nat (opt_sel (field_at (fields st) i)))
              (xml_values (field_at (fields st) i)) EmptyString) as [Hin | ->];
    [apply Hx, Hin | reflexivity].
Qed.

Lemma no_lt_if (c : bool) a b :
  no_lt a = true -> no_lt b = true -> no_lt (if c then a else b) = true.
Proof. destruct c; auto. Qed.

Lemma clean_when c body :
  Forall (fun c => clean_call c = true) body ->
  Forall (fun c => clean_call c = true) (when c body).
Proof. destruct c; [auto | constructor]. Qed.

Lemma clean_fprintf fmt args :
  forallb (fun a => no_lt (show_arg a)) args = true ->
  Forall (fun c => clean_call c = true) (fprintf fmt args).
Proof. intros H. unfold fprintf. constructor; [exact H | constructor]. Qed.

Lemma clean_rows (g : nat -> list call) l :
  (forall i, Forall (fun c => clean_call c = true) (g i)) ->
  Forall (fun c => clean_call c = true) (flat_map g l).
Proof.
  intros Hg. induction l as [|i l IH]; [constructor|].
  cbn [flat_map]. apply Forall_app. split; [apply Hg | exact IH].
Qed.

Ltac clean_args :=
  cbn [forallb show_arg];
  rewrite ?val_clean, ?opt_val_clean, ?value_clean, ?no_lt_dec;
  try reflexivity.

Ltac clean_calls :=
  cbv zeta;
  repeat first
    [ apply Forall_app; split
    | apply clean_when
    | apply clean_fprintf; clean_args ].

Lemma line_block_clean i : Forall (fun c => clean_call c = true) (line_block st i).
Proof.
  unfold line_block. clean_calls.
  destruct (_ =? 1)%Z; reflexivity.
Qed.

Lemma document_clean : Forall (fun c => clean_call c = true) (xml_document st).
Proof.
  unfold xml_document.
  assert (Hport : no_lt (if negb (nonempty (val st "voipControlPort"))
                         then "5060"%string else val st "voipControlPort") = true)
    by (apply no_lt_if; [reflexivity | apply val_clean]).
  cbv zeta. revert Hport.
  generalize (if negb (nonempty (val st "voipControlPort"))
              then "5060"%string else val st "voipControlPort").
  intros port Hport.
  repeat first
    [ apply Forall_app; split
    | apply clean_when
    | apply clean_rows; intros i; apply line_block_clean
    | apply clean_fprintf; cbn [forallb show_arg];
      rewrite ?val_clean, ?opt_val_clean, ?value_clean, ?Hport; reflexivity ].
Qed.

End Clean.

(* ===================================================================== *)
(** ** The elements of the text of the document                           *)
(* ===================================================================== *)

Ltac eval_elements :=
  cbv [proj1_sig document_projection line_projection
       call_elements call_open piece call_tokens tokens c_fmt c_args lit
       start_tag_lit strip_lit ends_name_lit after_gt_lit content_tok
       start_of end_of followed_by is_name_end option_map
       Ascii.eqb Bool.eqb orb andb newline dquote show_arg].

(** What the [line] block of row [i] holds of the elements [tag]. *)
Ltac line_elements :=
  match goal with
  | |- flat_map ?p (line_block ?st ?i) = _ =>
      rewrite (proj2_sig (line_projection p st i))
  end;
  eval_elements; rewrite ?append_empty_r; tidy; try reflexivity.

(** What the document holds of them, given by [Hline] what the [line]
    blocks hold. *)
Ltac doc_elements Hline :=
  match goal with
  | |- flat_map ?p (xml_document ?st) = _ =>
      rewrite (proj2_sig (document_projection p st))
  end;
  cbv [proj1_sig document_projection];
  rewrite (per_row_ext _ _ _ (fun i _ => Hline i));
  eval_elements; rewrite ?append_empty_r, ?per_row_nil; tidy; try reflexivity.

Section Elements.

Variable st : State.

(** Every call decides alone on the leaves below. *)
Lemma line_decides tag :
  In tag (guarded_raw ++ guarded_encoded ++
          ["natAddress"; "snmpCommunity"; "stopMediaPort"; "processNodeName";
           "ntpServerAddr"; "name"; "displayName"; "authName"; "authPassword";
           "callForwardURI"; "callPickupGroupURI"]%string) ->
  forall i, flat_map (call_open tag) (line_block st i) = [].
Proof.
  intros Hin i. cbn [guarded_raw guarded_encoded app In] in Hin.
  repeat (destruct Hin as [<-|Hin]; [line_elements|]).
  destruct Hin.
Qed.

Lemma document_decides tag :
  In tag (guarded_raw ++ guarded_encoded ++
          ["natAddress"; "snmpCommunity"; "stopMediaPort"; "processNodeName";
           "ntpServerAddr"; "name"; "displayName"; "authName"; "authPassword";
           "callForwardURI"; "callPickupGroupURI"]%string) ->
  flat_map (call_open tag) (xml_document st) = [].
Proof.
  intros Hin. assert (Hl := line_decides tag Hin).
  cbn [guarded_raw guarded_encoded app In] in Hin.
  repeat (destruct Hin as [<-|Hin]; [doc_elements Hl|]).
  destruct Hin.
Qed.

(** The [line] blocks hold none of the leaves of the rest of the document. *)
Lemma line_holds_none tag :
  In tag (guarded_raw ++ guarded_encoded ++
          ["natAddress"; "snmpCommunity"; "stopMediaPort"; "processNodeName";
           "ntpServerAddr"]%string) ->
  forall i, flat_map (call_elements tag) (line_block st i) = [].
Proof.
  intros Hin i. cbn [guarded_raw guarded_encoded app In] in Hin.
  repeat (destruct Hin as [<-|Hin]; [line_elements|]).
  destruct Hin.
Qed.

(** The leaves written under a test of their own value. *)
Lemma guarded_raw_calls tag :
  In tag guarded_raw ->
  flat_map (call_elements tag) (xml_document st) = if_nonempty (val st tag).
Proof.
  intros Hin.
  assert (Hl := line_holds_none tag ltac:(apply in_or_app; left; exact Hin)).
  cbn [guarded_raw In] in Hin.
  repeat (destruct Hin as [<-|Hin]; [doc_elements Hl|]).
  destruct Hin.
Qed.

Lemma guarded_encoded_calls tag :
  In tag guarded_encoded ->
  flat_map (call_elements tag) (xml_document st) = if_nonempty (opt_val st tag).
Proof.
  intros Hin.
  assert (Hl := line_holds_none tag
            ltac:(apply in_or_app; right; apply in_or_app; left; exact Hin)).
  cbn [guarded_encoded In] in Hin.
  repeat (destruct Hin as [<-|Hin]; [doc_elements Hl|]).
  destruct Hin.
Qed.

(** The leaves written under a test of another field. *)
Lemma natAddress_calls :
  flat_map (call_elements "natAddress") (xml_document st)
  = if selected st "natEnabled" 1 then [val st "natAddress"] else [].
Proof.
  assert (Hl := line_holds_none "natAddress" ltac:(cbn; tauto)).
  doc_elements Hl.
Qed.

Lemma snmpCommunity_calls :
  flat_map (call_elements "snmpCommunity") (xml_document st)
  = if selected st "snmpEnabled" 1 then [val st "snmpCommunity"] else [].
Proof.
  assert (Hl := line_holds_none "snmpCommunity" ltac:(cbn; tauto)).
  doc_elements Hl.
Qed.

Lemma stopMediaPort_calls :
  flat_map (call_elements "stopMediaPort") (xml_document st)
  = if nonempty (val st "startMediaPort") then [val st "stopMediaPort"] else [].
Proof.
  assert (Hl := line_holds_none "stopMediaPort" ltac:(cbn; tauto)).
  doc_elements Hl.
Qed.

Lemma processNodeName_calls :
  flat_map (call_elements "processNodeName") (xml_document st)
  = val st "processNodeName1" ::
    if_nonempty (val st "processNodeName2") ++ if_nonempty (val st "processNodeName3").
Proof.
  assert (Hl := line_holds_none "processNodeName" ltac:(cbn; tauto)).
  doc_elements Hl.
Qed.

Lemma ntpServerAddr_calls :
  flat_map (call_elements "ntpServerAddr") (xml_document st)
  = if_nonempty (val st "ntpServerAddr").
Proof.
  assert (Hl := line_holds_none "ntpServerAddr" ltac:(cbn; tauto)).
  doc_elements Hl.
Qed.

(** The leaves of the [line] elements. *)
Lemma line_name_calls i :
  flat_map (call_elements "name") (line_block st i)
  = if button_on st i then [value (field_at (fields st) (i + 1))] else [].
Proof. line_elements. Qed.

Lemma line_displayName_calls i :
  flat_map (call_elements "displayName") (line_block st i)
  = if button_on st i then [value (field_at (fields st) (i + 2))] else [].
Proof. line_elements. Qed.

Lemma line_authName_calls i :
  flat_map (call_elements "authName") (line_block st i)
  = if button_line st i then [value (field_at (fields st) (i + 3))] else [].
Proof.
  line_elements. unfold button_line, button_on.
  destruct (strstr _ _), (_ >? 0), (_ =? 1); reflexivity.
Qed.

Lemma line_authPassword_calls i :
  flat_map (call_elements "authPassword") (line_block st i)
  = if button_line st i then [value (field_at (fields st) (i + 4))] else [].
Proof.
  line_elements. unfold button_line, button_on.
  destruct (strstr _ _), (_ >? 0), (_ =? 1); reflexivity.
Qed.

Lemma line_callForwardURI_calls i :
  flat_map (call_elements "callForwardURI") (line_block st i)
  = if button_line st i then if_nonempty (value (field_at (fields st) (i + 6))) else [].
Proof.
  line_elements. unfold button_line, button_on, if_nonempty.
  destruct (strstr _ _), (_ >? 0), (_ =? 1); reflexivity.
Qed.

Lemma line_callPickupGroupURI_calls i :
  flat_map (call_elements "callPickupGroupURI") (line_block st i)
  = if button_line st i then if_nonempty (value (field_at (fields st) (i + 7))) else [].
Proof.
  line_elements. unfold button_line, button_on, if_nonempty.
  destruct (strstr _ _), (_ >? 0), (_ =? 1); reflexivity.
Qed.

Lemma name_calls :
  flat_map (call_elements "name") (xml_document st)
  = opt_val st "userLocale" ::
    per_row st (fun i => if button_on st i
                         then [value (field_at (fields st) (i + 1))] else []).
Proof. doc_elements line_name_calls. Qed.

Lemma displayName_calls :
  flat_map (call_elements "displayName") (xml_document st)
  = per_row st (fun i => if button_on st i
                         then [value (field_at (fields st) (i + 2))] else []).
Proof. doc_elements line_displayName_calls. Qed.

Lemma authName_calls :
  flat_map (call_elements "authName") (xml_document st)
  = per_row st (fun i => if button_line st i
                         then [value (field_at (fields st) (i + 3))] else []).
Proof. doc_elements line_authName_calls. Qed.

Lemma authPassword_calls :
  flat_map (call_elements "authPassword") (xml_document st)
  = per_row st (fun i => if button_line st i
                         then [value (field_at (fields st) (i + 4))] else []).
Proof. doc_elements line_authPassword_calls. Qed.

Lemma callForwardURI_calls :
  flat_map (call_elements "callForwardURI") (xml_document st)
  = per_row st (fun i => if button_line st i
                         then if_nonempty (value (field_at (fields st) (i + 6))) else []).
Proof. doc_elements line_callForwardURI_calls. Qed.

Lemma callPickupGroupURI_calls :
  flat_map (call_elements "callPickupGroupURI") (xml_document st)
  = per_row st (fun i => if button_line st i
                         then if_nonempty (value (field_at (fields st) (i + 7))) else []).
Proof. doc_elements line_callPickupGroupURI_calls. Qed.

(** From the calls to the text. *)
Lemma elements_document tag :
  markup_free st = true ->
  flat_map (call_open tag) (xml_document st) = [] ->
  elements tag (written (xml_document st))
  = flat_map (call_elements tag) (xml_document st).
Proof.
  intros Hfree Ho. apply elements_written; [apply document_clean, Hfree | exact Ho].
Qed.

End Elements.

(* ===================================================================== *)
(** ** The MAC precondition (C4)                                          *)
(* ===================================================================== *)

Section Precondition.

Lemma shape_device st :
  registry_shape st -> val st "device" = value (field_at (fields st) 1).
Proof.
  intros Hsh. unfold val.
  assert (Hg : get_field st "device" = Some 1%nat).
  { apply get_field_first. split; [|split].
    - destruct Hsh as [_ Ht]. rewrite Ht, built_total. lia.
    - rewrite (shape_xml st 1 Hsh). vm_compute. reflexivity.
    - intros k Hk. assert (k = 0%nat) as -> by lia.
      rewrite (shape_xml st 0 Hsh). vm_compute. discriminate. }
  rewrite Hg. reflexivity.
Qed.

Lemma inv_mac_clean st : registry_inv st -> mac_clean (val st "device").
Proof. intros (Hsh & _ & Hmac). rewrite (shape_device st Hsh). exact Hmac. Qed.

Lemma mac_clean_hex12 v : mac_clean v -> (hex12 v <-> String.length v = 12%nat).
Proof.
  intros [Hhex _]. unfold hex12. split; [tauto|].
  intros Hlen. split; [exact Hlen|].
  eapply Forall_impl; [exact Hhex|]. intros c Hc. apply upper_hex_isxdigit, Hc.
Qed.

Lemma file_name mac :
  sprintf "SEP%s.cnf.xml" [AStr mac] = String.append "SEP" (String.append mac ".cnf.xml").
Proof. reflexivity. Qed.

(** C4.  In every state the program passes through, the MAC address field
    holds a sanitized value.  When that value is not exactly 12
    hexadecimal characters, [save_xml] only reports the error: no document
    is produced, the files are as before and so are all the fields, their
    values, selections and hidden flags.  When it is, the check lets the
    save through: the document goes to the file named after the address
    if [fopen] succeeds, and nothing changes if it fails. *)
Theorem mac_precondition (st : State) :
  reachable st ->
  let mac := val st "device" in
  let fn := String.append "SEP" (String.append mac ".cnf.xml") in
  sanitize_mac mac = mac /\
  (~ hex12 mac ->
     serialize st = None /\
     forall fopen_ok,
       save_xml fopen_ok st
       = mkState (fields st) (total_fields st) (current st) (disk st)
                 "ERR: MAC MUST BE 12 CHARS!") /\
  (hex12 mac ->
     serialize st = Some (fn, xml_document st) /\
     save_xml true st
     = mkState (fields st) (total_fields st) (current st)
               (<[fn := written (xml_document st)]> (disk st))
               (String.append "SUCCESS: " (String.append fn " SAVED.")) /\
     save_xml false st = st).
Proof.
  intros Hr mac fn. apply reachable_inv in Hr.
  pose proof (inv_mac_clean st Hr) as Hclean. fold mac in Hclean.
  pose proof (mac_clean_hex12 mac Hclean) as Hhex.
  split; [apply sanitize_mac_fixed, Hclean|]. split.
  - intros Hno.
    assert (Hlen : Nat.eqb (String.length mac) 12 = false).
    { apply Nat.eqb_neq. intros E. apply Hno, Hhex, E. }
    unfold serialize, save_xml. fold mac. rewrite Hlen. split; reflexivity.
  - intros Hyes. apply Hhex in Hyes.
    assert (Hlen : Nat.eqb (String.length mac) 12 = true) by (apply Nat.eqb_eq, Hyes).
    unfold serialize, save_xml. fold mac. rewrite Hlen, !file_name. fold fn.
    split; [reflexivity|]. split; reflexivity.
Qed.

End Precondition.

(* ===================================================================== *)
(** ** Sessions                                                           *)
(* ===================================================================== *)

Section Sessions.

Lemma well_formed_check s :
  forallb (fun c => negb (is_nul c)) (chars s) = true -> well_formed s.
Proof.
  intros H. rewrite forallb_forall in H.
  apply List.Forall_forall. intros c Hc ->.
  specialize (H NUL Hc). discriminate H.
Qed.

Lemma reachable_press ch st : ch <> code "q" -> reachable st -> reachable (press ch st).
Proof.
  intros Hq Hr. apply reachable_step; [exact Hr | exact Hq | constructor].
Qed.

Lemma reachable_walk n row : forall st, reachable st -> reachable (walk_to n row st).
Proof.
  induction n as [|n IH]; intros st Hr; cbn [walk_to]; [exact Hr|].
  destruct (Nat.eqb (current st) row); [exact Hr|].
  apply IH, reachable_press; [discriminate | exact Hr].
Qed.

Lemma reachable_type_at row typed st :
  forallb (fun c => negb (is_nul c)) (chars typed) = true ->
  reachable st -> reachable (type_at row typed st).
Proof.
  intros Hwf Hr. unfold type_at.
  apply reachable_step; [apply reachable_walk, Hr | discriminate |].
  apply well_formed_check, Hwf.
Qed.

Lemma reachable_choose_at row keys st :
  reachable st -> reachable (choose_at row keys st).
Proof.
  intros Hr. unfold choose_at.
  apply reachable_step; [apply reachable_walk, Hr | discriminate | constructor].
Qed.

Lemma reachable_st_mac : reachable st_mac.
Proof. apply reachable_type_at; [reflexivity | apply reachable_built]. Qed.

Lemma reachable_st_ntp : reachable st_ntp.
Proof. apply reachable_type_at; [reflexivity | apply reachable_st_mac]. Qed.

Lemma reachable_st_nat : reachable st_nat.
Proof. apply reachable_choose_at, reachable_st_mac. Qed.

Lemma reachable_st_vm : reachable st_vm.
Proof.
  apply reachable_type_at; [reflexivity|].
  apply reachable_choose_at.
  apply reachable_type_at; [reflexivity | apply reachable_st_mac].
Qed.

Lemma mac_precondition_witness :
  serialize st_mac = Some ("SEP0007A1B2C3D4.cnf.xml"%string, xml_document st_mac) /\
  serialize built = None.
Proof.
  split.
  - apply (mac_precondition st_mac reachable_st_mac).
    split; [vm_compute; reflexivity|].
    apply List.Forall_forall. intros c Hc.
    assert (Hall : forallb isxdigit (chars (val st_mac "device")) = true)
      by (vm_compute; reflexivity).
    rewrite forallb_forall in Hall. apply Hall, Hc.
  - apply (mac_precondition built reachable_built).
    intros [Hlen _]. vm_compute in Hlen. discriminate Hlen.
Defined.

End Sessions.

(* ===================================================================== *)
(** ** Optional leaves (C2), the date and time block (C1), voicemail (C3) *)
(* ===================================================================== *)

Section OptionalLeaves.

Lemma serialize_Some st fn doc :
  serialize st = Some (fn, doc) -> mac_ok st /\ doc = xml_document st.
Proof.
  unfold serialize, mac_ok.
  destruct (Nat.eqb (String.length (val st "device")) 12) eqn:E; [|discriminate].
  intros H. injection H as _ <-. apply Nat.eqb_eq in E. auto.
Qed.

Lemma if_nonempty_never_empty s : ~ In EmptyString (if_nonempty s).
Proof.
  unfold if_nonempty. destruct s; cbn; [tauto|].
  intros [H|[]]. discriminate H.
Qed.

Lemma per_row_never_empty st (g : nat -> list string) :
  (forall i, ~ In EmptyString (g i)) -> ~ In EmptyString (per_row st g).
Proof.
  intros Hg Hin. unfold per_row in Hin.
  apply in_flat_map in Hin. destruct Hin as (i & _ & Hi). exact (Hg i Hi).
Qed.

(** The tags of the leaves below, for [document_decides]. *)
Lemma leaf_tag_raw tag :
  In tag guarded_raw ->
  In tag (guarded_raw ++ guarded_encoded ++
          ["natAddress"; "snmpCommunity"; "stopMediaPort"; "processNodeName";
           "ntpServerAddr"; "name"; "displayName"; "authName"; "authPassword";
           "callForwardURI"; "callPickupGroupURI"]%string).
Proof. intros H. apply in_or_app. left. exact H. Qed.

Lemma leaf_tag_encoded tag :
  In tag guarded_encoded ->
  In tag (guarded_raw ++ guarded_encoded ++
          ["natAddress"; "snmpCommunity"; "stopMediaPort"; "processNodeName";
           "ntpServerAddr"; "name"; "displayName"; "authName"; "authPassword";
           "callForwardURI"; "callPickupGroupURI"]%string).
Proof. intros H. apply in_or_app. right. apply in_or_app. left. exact H. Qed.

Lemma leaf_tag_other tag :
  In tag ["natAddress"; "snmpCommunity"; "stopMediaPort"; "processNodeName";
          "ntpServerAddr"; "name"; "displayName"; "authName"; "authPassword";
          "callForwardURI"; "callPickupGroupURI"]%string ->
  In tag (guarded_raw ++ guarded_encoded ++
          ["natAddress"; "snmpCommunity"; "stopMediaPort"; "processNodeName";
           "ntpServerAddr"; "name"; "displayName"; "authName"; "authPassword";
           "callForwardURI"; "callPickupGroupURI"]%string).
Proof. intros H. apply in_or_app. right. apply in_or_app. right. exact H. Qed.

(** The elements of the text of the document, for the leaves of the
    lists above. *)
Lemma text_elements st tag :
  markup_free st = true ->
  In tag (guarded_raw ++ guarded_encoded ++
          ["natAddress"; "snmpCommunity"; "stopMediaPort"; "processNodeName";
           "ntpServerAddr"; "name"; "displayName"; "authName"; "authPassword";
           "callForwardURI"; "callPickupGroupURI"]%string) ->
  elements tag (written (xml_document st))
  = flat_map (call_elements tag) (xml_document st).
Proof.
  intros Hfree Hin. apply elements_document; [exact Hfree|].
  apply document_decides, Hin.
Qed.

(** C2, as the code has it.  [save_xml] writes the values as they are, so
    the statement is about values without [<].  In the text that a state
    passing the MAC check writes, each leaf that the serializer writes
    under a test of its own value is there exactly when that value (raw
    for a text field, encoded for a dropdown) is not empty, once, with that
    value as content, and so never empty: the 22 raw and 2 encoded leaves
    listed in [guarded_raw] and [guarded_encoded], callForwardURI and
    callPickupGroupURI of each Line button, and the processNodeName of the
    secondary and tertiary call manager.  The other optional leaves follow
    the test of another field and are written whatever their own value:
    natAddress when NAT Enabled is Yes, snmpCommunity when SNMP Enable is
    Enabled, stopMediaPort when the start port is not empty, name and
    displayName for each button that is not Disabled, authName and
    authPassword for each Line button. *)
Theorem optional_leaves (st : State) (fn : string) (doc : list call) :
  serialize st = Some (fn, doc) ->
  markup_free st = true ->
  (forall tag, In tag guarded_raw ->
     elements tag (written doc) = if_nonempty (val st tag) /\
     ~ In EmptyString (elements tag (written doc))) /\
  (forall tag, In tag guarded_encoded ->
     elements tag (written doc) = if_nonempty (opt_val st tag) /\
     ~ In EmptyString (elements tag (written doc))) /\
  (elements "callForwardURI" (written doc)
   = per_row st (fun i => if button_line st i
                 then if_nonempty (value (field_at (fields st) (i + 6))) else []) /\
   ~ In EmptyString (elements "callForwardURI" (written doc))) /\
  (elements "callPickupGroupURI" (written doc)
   = per_row st (fun i => if button_line st i
                 then if_nonempty (value (field_at (fields st) (i + 7))) else []) /\
   ~ In EmptyString (elements "callPickupGroupURI" (written doc))) /\
  elements "processNodeName" (written doc)
  = val st "processNodeName1" ::
    if_nonempty (val st "processNodeName2") ++ if_nonempty (val st "processNodeName3") /\
  elements "natAddress" (written doc)
  = (if selected st "natEnabled" 1 then [val st "natAddress"] else []) /\
  elements "snmpCommunity" (written doc)
  = (if selected st "snmpEnabled" 1 then [val st "snmpCommunity"] else []) /\
  elements "stopMediaPort" (written doc)
  = (if nonempty (val st "startMediaPort") then [val st "stopMediaPort"] else []) /\
  elements "name" (written doc)
  = opt_val st "userLocale" ::
    per_row st (fun i => if button_on st i
                 then [value (field_at (fields st) (i + 1))] else []) /\
  elements "displayName" (written doc)
  = per_row st (fun i => if button_on st i
                 then [value (field_at (fields st) (i + 2))] else []) /\
  elements "authName" (written doc)
  = per_row st (fun i => if button_line st i
                 then [value (field_at (fields st) (i + 3))] else []) /\
  elements "authPassword" (written doc)
  = per_row st (fun i => if button_line st i
                 then [value (field_at (fields st) (i + 4))] else []).
Proof.
  intros Hs Hfree. apply serialize_Some in Hs. destruct Hs as [_ ->].
  split.
  { intros tag Hin.
    rewrite (text_elements st tag Hfree (leaf_tag_raw tag Hin)),
            (guarded_raw_calls st tag Hin).
    split; [reflexivity | apply if_nonempty_never_empty]. }
  split.
  { intros tag Hin.
    rewrite (text_elements st tag Hfree (leaf_tag_encoded tag Hin)),
            (guarded_encoded_calls st tag Hin).
    split; [reflexivity | apply if_nonempty_never_empty]. }
  split.
  { rewrite (text_elements st _ Hfree (leaf_tag_other "callForwardURI" ltac:(cbn; tauto))),
            callForwardURI_calls.
    split; [reflexivity|].
    apply per_row_never_empty. intros i.
    destruct (button_line st i); [apply if_nonempty_never_empty | intros []]. }
  split.
  { rewrite (text_elements st _ Hfree
               (leaf_tag_other "callPickupGroupURI" ltac:(cbn; tauto))),
            callPickupGroupURI_calls.
    split; [reflexivity|].
    apply per_row_never_empty. intros i.
    destruct (button_line st i); [apply if_nonempty_never_empty | intros []]. }
  rewrite (text_elements st _ Hfree (leaf_tag_other "processNodeName" ltac:(cbn; tauto))),
          (text_elements st _ Hfree (leaf_tag_other "natAddress" ltac:(cbn; tauto))),
          (text_elements st _ Hfree (leaf_tag_other "snmpCommunity" ltac:(cbn; tauto))),
          (text_elements st _ Hfree (leaf_tag_other "stopMediaPort" ltac:(cbn; tauto))),
          (text_elements st _ Hfree (leaf_tag_other "name" ltac:(cbn; tauto))),
          (text_elements st _ Hfree (leaf_tag_other "displayName" ltac:(cbn; tauto))),
          (text_elements st _ Hfree (leaf_tag_other "authName" ltac:(cbn; tauto))),
          (text_elements st _ Hfree (leaf_tag_other "authPassword" ltac:(cbn; tauto))).
  rewrite processNodeName_calls,
    natAddress_calls, snmpCommunity_calls, stopMediaPort_calls,
    name_calls, displayName_calls, authName_calls, authPassword_calls.
  repeat (match goal with |- _ /\ _ => split end); reflexivity.
Qed.

Lemma optional_leaves_witness :
  elements "deviceLabel" (written (xml_document st_label)) = ["Lobby phone"%string] /\
  elements "mtu" (written (xml_document st_label)) = [].
Proof.
  assert (Hs : serialize st_label
               = Some ("SEP0007A1B2C3D4.cnf.xml"%string, xml_document st_label))
    by (vm_compute; reflexivity).
  assert (Hfree : markup_free st_label = true) by (vm_compute; reflexivity).
  pose proof (proj1 (optional_leaves st_label _ _ Hs Hfree)) as Hraw.
  assert (Hlabel : if_nonempty (val st_label "deviceLabel") = ["Lobby phone"%string])
    by (vm_compute; reflexivity).
  assert (Hmtu : if_nonempty (val st_label "mtu") = []) by (vm_compute; reflexivity).
  split.
  - rewrite (proj1 (Hraw "deviceLabel"%string ltac:(cbn; tauto))). exact Hlabel.
  - rewrite (proj1 (Hraw "mtu"%string ltac:(cbn; tauto))). exact Hmtu.
Defined.

(** C2 as stated fails: with NAT switched on and the NAT address left
    empty, the document has a natAddress element with empty content. *)
Lemma empty_natAddress_counterexample :
  reachable st_nat /\ mac_ok st_nat /\ markup_free st_nat = true /\
  val st_nat "natAddress" = EmptyString /\
  In EmptyString (contents "natAddress" (xml_document st_nat)) /\
  In EmptyString (elements "natAddress" (written (xml_document st_nat))) /\
  strstr (written (xml_document st_nat)) "<natAddress></natAddress>" = true.
Proof.
  split; [apply reachable_st_nat|].
  split; [vm_compute; reflexivity|].
  split; [vm_compute; reflexivity|].
  split; [vm_compute; reflexivity|].
  split; [|split; [|vm_compute; reflexivity]].
  - replace (contents "natAddress" (xml_document st_nat)) with [EmptyString]
      by (vm_compute; reflexivity).
    left. reflexivity.
  - replace (elements "natAddress" (written (xml_document st_nat))) with [EmptyString]
      by (vm_compute; reflexivity).
    left. reflexivity.
Qed.

(** Values are written as they are: markup typed into one field shows
    up as an element of another, here an mtu element although the MTU
    field is empty.  This is why the leaves are read for values without
    [<]. *)
Lemma values_are_not_escaped :
  reachable st_markup /\ mac_ok st_markup /\ markup_free st_markup = false /\
  val st_markup "mtu" = EmptyString /\
  elements "mtu" (written (xml_document st_markup)) = ["9"%string].
Proof.
  split; [apply reachable_type_at; [reflexivity | apply reachable_st_mac]|].
  repeat (match goal with |- _ /\ _ => split end); vm_compute; reflexivity.
Qed.

Lemma shape_get_field_loop st key n : forall i,
  registry_shape st ->
  get_field_loop (fields st) key i n = get_field_loop (fields built) key i n.
Proof.
  induction n as [|n IH]; intros i Hsh; cbn [get_field_loop]; [reflexivity|].
  rewrite (shape_xml st i Hsh), (IH (S i) Hsh). reflexivity.
Qed.

Lemma shape_get_field st key :
  registry_shape st -> get_field st key = get_field built key.
Proof.
  intros Hsh. unfold get_field. rewrite (proj2 Hsh).
  apply shape_get_field_loop, Hsh.
Qed.

(** In no state that the program passes through does the document have
    an ntpServerAddr element: no field carries that key. *)
Lemma ntpServerAddr_never_written st :
  reachable st -> contents "ntpServerAddr" (xml_document st) = [].
Proof.
  intros Hr. apply reachable_inv in Hr. destruct Hr as (Hsh & _ & _).
  rewrite ntpServerAddr_contents. unfold val.
  rewrite (shape_get_field st _ Hsh).
  replace (get_field built "ntpServerAddr") with (@None nat) by (vm_compute; reflexivity).
  reflexivity.
Qed.

Lemma ntpServerAddr_never_in_text st :
  reachable st -> markup_free st = true ->
  elements "ntpServerAddr" (written (xml_document st)) = [].
Proof.
  intros Hr Hfree. apply reachable_inv in Hr. destruct Hr as (Hsh & _ & _).
  rewrite (text_elements st _ Hfree (leaf_tag_other "ntpServerAddr" ltac:(cbn; tauto))),
          ntpServerAddr_calls.
  unfold val. rewrite (shape_get_field st _ Hsh).
  replace (get_field built "ntpServerAddr") with (@None nat) by (vm_compute; reflexivity).
  reflexivity.
Qed.

(** C1 at the failing input: an NTP server is stored in the NTP Server
    field, whose key is ntpServer, and the document, which looks the
    value up under ntpServerAddr, has no ntpServerAddr element; timeZone,
    dateTemplate and timeFormat are there. *)
Lemma ntp_server_not_written :
  reachable st_ntp /\ mac_ok st_ntp /\
  label (field_at (fields st_ntp) 53) = "NTP Server"%string /\
  xml (field_at (fields st_ntp) 53) = "ntpServer"%string /\
  value (field_at (fields st_ntp) 53) = "pool.ntp.org"%string /\
  val st_ntp "ntpServerAddr" = EmptyString /\
  contents "ntpServerAddr" (xml_document st_ntp) = [] /\
  strstr (written (xml_document st_ntp)) "ntpServerAddr" = false /\
  contents "timeZone" (xml_document st_ntp) = ["Pacific Standard/Daylight Time"%string] /\
  contents "dateTemplate" (xml_document st_ntp) = ["M/D/Y"%string] /\
  contents "timeFormat" (xml_document st_ntp) = ["12"%string].
Proof.
  split; [apply reachable_st_ntp|].
  repeat (match goal with |- _ /\ _ => split end); vm_compute; reflexivity.
Qed.

(** C3 at the failing input: buttons 1 and 2 are Lines with voicemail
    numbers 100 and 200, and the line element of button 2 carries 100. *)
Lemma voicemail_of_first_button :
  reachable st_vm /\ mac_ok st_vm /\
  button_line st_vm 66 = true /\ button_line st_vm 76 = true /\
  value (field_at (fields st_vm) (66 + 8)) = "100"%string /\
  value (field_at (fields st_vm) (76 + 8)) = "200"%string /\
  contents "voiceMailPilot" (line_block st_vm 76) = ["100"%string] /\
  contents "voiceMailPilot" (xml_document st_vm) = ["100"; "100"]%string.
Proof.
  split; [apply reachable_st_vm|].
  repeat (match goal with |- _ /\ _ => split end); vm_compute; reflexivity.
Qed.

End OptionalLeaves.

(* ===================================================================== *)
(** ** The button attribute (C10)                                         *)
(* ===================================================================== *)

Section ButtonAttribute.




End ButtonAttribute.

(* ===================================================================== *)
(** ** A session, end to end                                              *)
(* ===================================================================== *)

Section Session.

(** The document of the smallest session that can be saved: only the MAC
    address is set.  Button 1 is a Line by construction, so there is one
    line element; no optional leaf is written. *)
Example minimal_document :
  written (xml_document st_mac)
  = lit (String.concat EmptyString [
     "<?xml version=\q1.0\q encoding=\qUTF-8\q?>\n";
     "<device>\n";
     "  <deviceProtocol>SIP</deviceProtocol>\n";
     "  <callManagerGroup>\n";
     "    <members>\n";
     "      <member priority=\q0\q>\n";
     "        <callManager>\n";
     "          <ports>\n";
     "            <ethernetPhonePort>5060</ethernetPhonePort>\n";
     "          </ports>\n";
     "          <processNodeName></processNodeName>\n";
     "        </callManager>\n";
     "      </member>\n";
     "    </members>\n";
     "  </callManagerGroup>\n";
     "  <dateTimeSetting>\n";
     "    <timeZone>Pacific Standard/Daylight Time</timeZone>\n";
     "    <dateTemplate>M/D/Y</dateTemplate>\n";
     "    <timeFormat>12</timeFormat>\n";
     "  </dateTimeSetting>\n";
     "  <sipStack>\n";
     "    <transportLayerProtocol>1</transportLayerProtocol>\n";
     "  </sipStack>\n";
     "  <userLocale>\n";
     "    <name>United_States</name>\n";
     "    <langCode>United_States</langCode>\n";
     "  </userLocale>\n";
     "  <networkLocale>United_States</networkLocale>\n";
     "  <ethernetConfig>\n";
     "  </ethernetConfig>\n";
     "  <sipLines>\n";
     "    <line button=\q53\q>\n";
     "      <featureID>9</featureID>\n";
     "      <name></name>\n";
     "      <displayName></displayName>\n";
     "      <authName></authName>\n";
     "      <authPassword></authPassword>\n";
     "    </line>\n";
     "  </sipLines>\n";
     "  <vendorConfig>\n";
     "    <settingsAccess>1</settingsAccess>\n";
     "    <webAccess>1</webAccess>\n";
     "    <sshAccess>0</sshAccess>\n";
     "    <pcPort>1</pcPort>\n";
     "    <pcVoiceVlanAccess>0</pcVoiceVlanAccess>\n";
     "    <spanToPCPort>0</spanToPCPort>\n";
     "    <gratuitousARP>1</gratuitousARP>\n";
     "    <bluetooth>1</bluetooth>\n";
     "    <bluetoothProfile>Handsfree,Headset</bluetoothProfile>\n";
     "    <preferredCodec>PCMU</preferredCodec>\n";
     "    <advertiseG722Codec>1</advertiseG722Codec>\n";
     "    <videoCapability>true</videoCapability>\n";
     "    <autoTransmitVideo>false</autoTransmitVideo>\n";
     "    <videoBitRate>1500</videoBitRate>\n";
     "    <rtcp>1</rtcp>\n";
     "    <dndControl>1</dndControl>\n";
     "    <dndCallAlert>5</dndCallAlert>\n";
     "  </vendorConfig>\n";
     "</device>\n"]).
Proof. vm_compute. reflexivity. Qed.

End Session.

(* ===================================================================== *)
(** ** More on sanitization and visibility                                *)
(* ===================================================================== *)

Section MoreVisibility.

(** X1.  For every string that the value buffer of a field can hold,
    [sanitize_mac] yields at most 12 characters, all of them upper-case
    hexadecimal digits, and sanitizing the result again changes nothing. *)
Theorem sanitize_mac_idempotent (src : string) :
  fits_value src ->
  (String.length (sanitize_mac src) <= 12)%nat /\
  Forall (fun c => upper_hex c = true) (chars (sanitize_mac src)) /\
  sanitize_mac (sanitize_mac src) = sanitize_mac src.
Proof.
  intros _. pose proof (sanitize_mac_clean src) as Hc.
  split; [apply Hc|]. split; [apply Hc|].
  apply sanitize_mac_fixed, Hc.
Qed.

Lemma sanitize_mac_idempotent_witness :
  sanitize_mac (sanitize_mac "de:ad:be:ef:00:01:ff") = sanitize_mac "de:ad:be:ef:00:01:ff".
Proof.
  apply (sanitize_mac_idempotent "de:ad:be:ef:00:01:ff").
  split; [|simpl; lia].
  unfold well_formed. simpl. repeat constructor; discriminate.
Defined.

(** X2.  [update_visibility] changes hidden flags and nothing else: the
    label, value, key, options and selection of every field, the number
    of fields, the cursor, the files and the status line are as before. *)
Theorem update_visibility_only_hides (st : State) :
  map unhide (fields (update_visibility st)) = map unhide (fields st) /\
  length (fields (update_visibility st)) = length (fields st) /\
  total_fields (update_visibility st) = total_fields st /\
  current (update_visibility st) = current st /\
  disk (update_visibility st) = disk st /\
  status_line (update_visibility st) = status_line st.
Proof.
  pose proof (update_visibility_static st) as Hu.
  split; [exact Hu|]. split; [|repeat (split; [reflexivity|]); reflexivity].
  apply (f_equal length) in Hu. rewrite !length_map in Hu. exact Hu.
Qed.

(** The rows of the three dependent fields outside the buttons. *)
Lemma shape_dependent_row st i key r :
  registry_shape st -> (i < total_fields st)%nat ->
  xml (field_at (fields st) i) = key ->
  get_field built key = Some r ->
  In key ["snmpCommunity"; "natAddress"; "pcPortVlanId"]%string ->
  i = r.
Proof.
  intros Hsh Hi Hx Hr Hin.
  rewrite (shape_xml st i Hsh) in Hx.
  rewrite (proj2 Hsh), built_total in Hi.
  assert (Hall : forallb (fun i =>
     forallb (fun key =>
        implb (String.eqb (xml (field_at (fields built) i)) key)
              (match get_field built key with
               | Some r => Nat.eqb i r
               | None => false
               end))
       ["snmpCommunity"; "natAddress"; "pcPortVlanId"]%string) (seq 0 105) = true)
    by (vm_compute; reflexivity).
  rewrite forallb_forall in Hall.
  specialize (Hall i ltac:(apply in_seq; lia)).
  rewrite forallb_forall in Hall. specialize (Hall key Hin).
  rewrite Hx, String.eqb_refl, Hr in Hall. cbn [implb] in Hall.
  apply Nat.eqb_eq, Hall.
Qed.

(** X3.  In a registry of the shape that [init_fields] builds, after
    [update_visibility] the Community String row is hidden exactly when the
    selection of the row before it, SNMP Enable, is 0 (Disabled); the NAT
    Address row exactly when that of NAT Enabled is 0 (No); and the PC VLAN
    ID row exactly when that of PC Port VLAN Mode is not 2 (Tag with
    Specific VLAN). *)
Theorem dependent_rows_visibility (st : State) (i : nat) :
  registry_shape st -> (i < total_fields st)%nat ->
  let fs := fields st in
  let hid := hidden (field_at (fields (update_visibility st)) i) in
  (xml (field_at fs i) = "snmpCommunity"%string ->
   label (field_before fs i) = "SNMP Enable"%string /\
   hid = (opt_sel (field_before fs i) =? 0)) /\
  (xml (field_at fs i) = "natAddress"%string ->
   label (field_before fs i) = "NAT Enabled"%string /\
   hid = (opt_sel (field_before fs i) =? 0)) /\
  (xml (field_at fs i) = "pcPortVlanId"%string ->
   label (field_before fs i) = "PC Port VLAN Mode"%string /\
   hid = negb (opt_sel (field_before fs i) =? 2)).
Proof.
  intros Hsh Hi fs hid. subst fs hid.
  split; [|split]; intros Hx.
  - assert (i = 46%nat) as ->.
    { apply (shape_dependent_row st i _ 46 Hsh Hi Hx); [vm_compute; reflexivity|].
      cbn; tauto. }
    cbn [field_before]. split.
    + rewrite (shape_label st 45 Hsh). vm_compute. reflexivity.
    + rewrite (hidden_after st 46 Hsh) by (unfold MAX_FIELDS; lia).
      unfold built_writes, last_write.
      cbn [fold_left target source how Nat.eqb eval_rule sel_of]. reflexivity.
  - assert (i = 43%nat) as ->.
    { apply (shape_dependent_row st i _ 43 Hsh Hi Hx); [vm_compute; reflexivity|].
      cbn; tauto. }
    cbn [field_before]. split.
    + rewrite (shape_label st 42 Hsh). vm_compute. reflexivity.
    + rewrite (hidden_after st 43 Hsh) by (unfold MAX_FIELDS; lia).
      unfold built_writes, last_write.
      cbn [fold_left target source how Nat.eqb eval_rule sel_of]. reflexivity.
  - assert (i = 12%nat) as ->.
    { apply (shape_dependent_row st i _ 12 Hsh Hi Hx); [vm_compute; reflexivity|].
      cbn; tauto. }
    cbn [field_before]. split.
    + rewrite (shape_label st 11 Hsh). vm_compute. reflexivity.
    + rewrite (hidden_after st 12 Hsh) by (unfold MAX_FIELDS; lia).
      unfold built_writes, last_write.
      cbn [fold_left target source how Nat.eqb eval_rule sel_of]. reflexivity.
Qed.

Lemma dependent_rows_visibility_witness :
  hidden (field_at (fields (update_visibility st_nat)) 43) = false.
Proof.
  assert (Hsh : registry_shape st_nat) by (split; vm_compute; reflexivity).
  assert (Hi : (43 < total_fields st_nat)%nat) by (vm_compute; lia).
  assert (Hx : xml (field_at (fields st_nat) 43) = "natAddress"%string)
    by (vm_compute; reflexivity).
  rewrite (proj2 (proj1 (proj2 (dependent_rows_visibility st_nat 43 Hsh Hi)) Hx)).
  vm_compute. reflexivity.
Defined.

End MoreVisibility.

(* ===================================================================== *)
(** ** The session invariant                                              *)
(* ===================================================================== *)

Section SessionInvariant.

(** *** Writes and edits of values commute *)

Lemma writes_at_same fs fs' i :
  (forall j, label (field_at fs j) = label (field_at fs' j)) ->
  (forall j, xml (field_at fs j) = xml (field_at fs' j)) ->
  writes_at fs i = writes_at fs' i.
Proof. intros Hl Hx. unfold writes_at. rewrite (Hl i), (Hx i). reflexivity. Qed.

Lemma apply_writes_same fs0 fs0' ws : forall fs,
  (forall j, opt_sel (field_at fs0 j) = opt_sel (field_at fs0' j)) ->
  apply_writes fs0 ws fs = apply_writes fs0' ws fs.
Proof.
  unfold apply_writes. induction ws as [|w ws IH]; intros fs H; [reflexivity|].
  cbn [fold_left]. rewrite (IH _ H). f_equal. unfold apply_write.
  destruct (source w) as [j|]; cbn [sel_of]; [rewrite (H j)|]; reflexivity.
Qed.

(** An edit [g] of one row that keeps its label, key, selection and hidden
    flag goes through [update_visibility]. *)
Lemma visibility_loop_edit n i g fs :
  (forall f, label (g f) = label f) -> (forall f, xml (g f) = xml f) ->
  (forall f, opt_sel (g f) = opt_sel f) ->
  (forall f b, g (set_hidden b f) = set_hidden b (g f)) ->
  (forall f, hidden (g f) = hidden f) ->
  visibility_loop n (update_at i g fs) = update_at i g (visibility_loop n fs).
Proof.
  intros Hl Hx Hs Hc Hh.
  assert (Hfield : forall (B : Type) (p : Field -> B) j,
            (forall f, p (g f) = p f) ->
            p (field_at (update_at i g fs) j) = p (field_at fs j)).
  { intros B p j Hp. rewrite field_at_update_at. case_decide; [apply Hp|reflexivity]. }
  rewrite !visibility_loop_writes.
  assert (Hw : all_writes n (update_at i g fs) = all_writes n fs).
  { unfold all_writes. apply flat_map_ext. intros j. apply writes_at_same; intros k.
    - apply (Hfield _ label k Hl).
    - apply (Hfield _ xml k Hx). }
  rewrite Hw.
  rewrite (apply_writes_same (update_at i g fs) fs)
    by (intros k; apply (Hfield _ opt_sel k Hs)).
  apply list_eq. intros j.
  rewrite lookup_apply_writes, !lookup_update_at, lookup_apply_writes.
  case_decide; [|reflexivity].
  destruct (fs !! j) as [f|]; [|reflexivity].
  cbn [fmap option_fmap option_map]. rewrite Hc, Hh. reflexivity.
Qed.

Lemma up_to_date_edit st i g :
  (forall f, label (g f) = label f) -> (forall f, xml (g f) = xml f) ->
  (forall f, opt_sel (g f) = opt_sel f) ->
  (forall f b, g (set_hidden b f) = set_hidden b (g f)) ->
  (forall f, hidden (g f) = hidden f) ->
  up_to_date st -> up_to_date (with_fields (update_at i g (fields st)) st).
Proof.
  intros Hl Hx Hs Hc Hh H. unfold up_to_date in *.
  cbn [with_fields fields total_fields].
  rewrite (visibility_loop_edit _ _ _ _ Hl Hx Hs Hc Hh), H. reflexivity.
Qed.

Lemma up_to_date_update_visibility st : up_to_date (update_visibility st).
Proof.
  unfold up_to_date, update_visibility, with_fields. cbn [fields total_fields].
  set (n := total_fields st). set (fs := fields st).
  pose proof (visibility_loop_unhide n fs) as Hu.
  rewrite (visibility_loop_writes n (visibility_loop n fs)).
  assert (Hw : all_writes n (visibility_loop n fs) = all_writes n fs).
  { unfold all_writes. apply flat_map_ext. intros i. apply writes_at_unhide, Hu. }
  rewrite Hw, (apply_writes_source _ fs _ _ Hu), visibility_loop_writes.
  apply list_eq. intros j.
  rewrite !lookup_apply_writes.
  destruct (fs !! j) as [f|]; [|reflexivity].
  cbn [fmap option_fmap option_map]. f_equal.
  cbn [hidden set_hidden]. rewrite last_write_twice. reflexivity.
Qed.

(** *** The MAC address row stays visible *)

Lemma hidden_row1_update_visibility st :
  registry_shape st ->
  hidden (field_at (fields (update_visibility st)) 1) = hidden (field_at (fields st) 1).
Proof.
  intros Hsh. rewrite (hidden_after st 1 Hsh) by (unfold MAX_FIELDS; lia).
  unfold built_writes, last_write.
  cbn [fold_left target source how Nat.eqb eval_rule sel_of]. reflexivity.
Qed.

Lemma hidden_update_at i g fs j :
  (forall f, hidden (g f) = hidden f) ->
  hidden (field_at (update_at i g fs) j) = hidden (field_at fs j).
Proof.
  intros Hg. rewrite field_at_update_at. case_decide; [apply Hg|reflexivity].
Qed.

(** *** The cursor *)

Lemma up_while_row fs c :
  skipped fs 1 = false -> (1 <= c)%nat ->
  (1 <= up_while fs c <= c)%nat /\ skipped fs (up_while fs c) = false.
Proof.
  intros H1. induction c as [|c IH]; intros Hc; [lia|].
  cbn [up_while]. destruct (skipped fs (S c)) eqn:Hs.
  - destruct c as [|c]; [congruence|].
    destruct (IH ltac:(lia)) as [Hr Hk]. split; [lia|exact Hk].
  - split; [lia|exact Hs].
Qed.

Lemma down_while_row fs d : forall c,
  (c <= down_while fs d c <= c + d)%nat /\
  (down_while fs d c = (c + d)%nat \/ skipped fs (down_while fs d c) = false).
Proof.
  induction d as [|d IH]; intros c; cbn [down_while].
  - split; [lia|]. left. lia.
  - destruct (skipped fs c) eqn:Hs.
    + destruct (IH (S c)) as [Hr Hk]. split; [lia|].
      destruct Hk as [Hk|Hk]; [left; lia | right; exact Hk].
    + split; [lia|]. right. exact Hs.
Qed.

Lemma not_skipped_not_header fs c : skipped fs c = false -> type (field_at fs c) <> FT_HEADER.
Proof.
  unfold skipped. intros H Ht. rewrite Ht, orb_true_r in H. discriminate H.
Qed.

Lemma built_rows :
  type (field_at (fields built) 1) = FT_MANDATORY /\
  type (field_at (fields built) 104) = FT_OPTIONAL.
Proof. split; vm_compute; reflexivity. Qed.

Lemma key_up_cursor st :
  registry_shape st -> hidden (field_at (fields st) 1) = false ->
  (1 < current st)%nat -> cursor_ok st -> cursor_ok (key_up st).
Proof.
  intros Hsh Hh Hc [Hr _]. unfold cursor_ok, key_up.
  cbn [with_current current fields total_fields].
  assert (H1 : skipped (fields st) 1 = false).
  { unfold skipped. rewrite Hh, (shape_type st 1 Hsh), (proj1 built_rows). reflexivity. }
  destruct (up_while_row (fields st) (current st - 1) H1 ltac:(lia)) as [Hb Hk].
  split; [lia | apply not_skipped_not_header, Hk].
Qed.

Lemma key_down_cursor st :
  registry_shape st ->
  (current st < total_fields st - 1)%nat -> cursor_ok st -> cursor_ok (key_down st).
Proof.
  intros Hsh Hc [Hr _]. unfold cursor_ok, key_down.
  cbn [with_current current fields total_fields].
  set (d := (total_fields st - 1 - S (current st))%nat).
  destruct (down_while_row (fields st) d (S (current st))) as [Hb Hk].
  split; [lia|].
  destruct Hk as [Hk|Hk]; [|apply not_skipped_not_header, Hk].
  rewrite Hk. replace (S (current st) + d)%nat with 104%nat
    by (pose proof (proj2 Hsh) as Ht; rewrite built_total in Ht; lia).
  rewrite (shape_type st 104 Hsh), (proj2 built_rows). discriminate.
Qed.

Lemma cursor_ok_ext st st' :
  registry_shape st -> registry_shape st' ->
  current st' = current st -> total_fields st' = total_fields st ->
  cursor_ok st -> cursor_ok st'.
Proof.
  intros Hsh Hsh' Hc Ht [Hr Hty]. unfold cursor_ok. rewrite Hc, Ht.
  split; [exact Hr|].
  rewrite (shape_type st' _ Hsh'), <- (shape_type st _ Hsh). exact Hty.
Qed.

(** *** Dropdowns show their selection *)

Lemma shows_selection_unhide f : shows_selection (unhide f) = shows_selection f.
Proof. reflexivity. Qed.

Lemma options_none st i :
  registry_shape st -> (opt_count (field_at (fields st) i) >? 0) = false ->
  options (field_at (fields st) i) = [].
Proof.
  intros Hsh Hc.
  assert (Hok : options_ok (field_at (fields st) i) = true).
  { rewrite field_at_lookup. destruct (fields st !! i) as [g|] eqn:Hg; [|reflexivity].
    exact (Forall_lookup_1 (fun f => options_ok f = true) _ i g
             (shape_options_ok st Hsh) Hg). }
  apply options_ok_inv in Hok. destruct Hok as (_ & Hn & _).
  destruct (options (field_at (fields st) i)); [reflexivity|].
  cbn [length] in Hn. lia.
Qed.

(** *** The operations keep the invariant *)

Lemma session_inv_fields st st' :
  fields st' = fields st -> total_fields st' = total_fields st ->
  current st' = current st -> session_inv st -> session_inv st'.
Proof.
  intros Hf Ht Hc (Hinv & Hup & Hh & Hcur & Hshow).
  unfold session_inv, up_to_date, cursor_ok. rewrite Hf, Ht, Hc.
  split; [exact (registry_inv_ext st st' Hf Ht Hinv)|]. auto.
Qed.

Lemma show_popup_session keys i st : session_inv st -> session_inv (show_popup keys i st).
Proof.
  intros Hs. pose proof Hs as (Hinv & Hup & Hh & Hcur & Hshow).
  pose proof (show_popup_inv keys i st Hinv) as Hinv'.
  unfold show_popup in *.
  destruct (popup_loop _ _ keys) as [sel|] eqn:Hloop; [|exact Hs].
  set (g := fun f => set_value (row (options f) sel) (set_opt_sel sel f)) in *.
  set (st1 := with_fields (update_at i g (fields st)) st) in *.
  assert (Hsh1 : registry_shape st1)
    by (apply shape_update_at; [reflexivity | apply Hinv]).
  split; [exact Hinv'|]. split; [apply up_to_date_update_visibility|].
  split; [|split].
  - rewrite (hidden_row1_update_visibility st1 Hsh1). subst st1.
    cbn [with_fields fields]. rewrite hidden_update_at; [exact Hh | reflexivity].
  - apply (cursor_ok_ext st); [apply Hinv | apply Hinv' | reflexivity.. | exact Hcur].
  - apply (Forall_unhide shows_selection (fields st1));
      [apply shows_selection_unhide | symmetry; apply update_visibility_static |].
    subst st1. cbn [with_fields fields].
    apply Forall_update_at; [exact Hshow|].
    intros f _ _. subst g. unfold shows_selection, selected_option.
    cbn [options value opt_sel set_value set_opt_sel].
    destruct (options f); [reflexivity | apply String.eqb_refl].
Qed.

Lemma show_text_input_session typed st :
  (opt_count (field_at (fields st) (current st)) >? 0) = false ->
  session_inv st -> session_inv (show_text_input typed (current st) st).
Proof.
  intros Hgate Hs. pose proof Hs as (Hinv & Hup & Hh & Hcur & Hshow).
  pose proof (show_text_input_inv typed (current st) st Hinv) as Hinv'.
  unfold show_text_input in *.
  set (g := fun f => set_value _ f) in *.
  split; [exact Hinv'|]. split; [|split; [|split]].
  - apply up_to_date_edit; try reflexivity. exact Hup.
  - cbn [with_fields fields]. rewrite hidden_update_at; [exact Hh | reflexivity].
  - apply (cursor_ok_ext st); [apply Hinv | apply Hinv' | reflexivity.. | exact Hcur].
  - cbn [with_fields fields]. apply Forall_update_at; [exact Hshow|].
    intros f Hf _.
    assert (Hfi : field_at (fields st) (current st) = f)
      by (rewrite field_at_lookup, Hf; reflexivity).
    pose proof (options_none st (current st) (proj1 Hinv) Hgate) as Ho.
    rewrite Hfi in Ho. subst g. unfold shows_selection.
    cbn [options set_value]. rewrite Ho. reflexivity.
Qed.

Lemma main_step_session ch keys typed ok st :
  session_inv st -> session_inv (main_step ch keys typed ok st).
Proof.
  intros H. unfold main_step.
  set (st1 := if ch =? code "s" then save_xml ok st else st).
  assert (H1 : session_inv st1).
  { subst st1. destruct (ch =? code "s"); [|exact H].
    destruct (fields_save_xml ok st) as (Hf & Ht & Hc).
    exact (session_inv_fields st _ Hf Ht Hc H). }
  clearbody st1.
  set (st2 := if (ch =? KEY_UP) && _ then key_up st1 else st1).
  assert (H2 : session_inv st2).
  { subst st2. destruct ((ch =? KEY_UP) && _) eqn:E; [|exact H1].
    apply andb_true_iff in E. destruct E as [_ E]. apply Z.gtb_lt in E.
    destruct H1 as (Hinv & Hup & Hh & Hcur & Hshow).
    split; [exact (registry_inv_ext st1 _ eq_refl eq_refl Hinv)|].
    split; [exact Hup|]. split; [exact Hh|]. split; [|exact Hshow].
    apply key_up_cursor; [apply Hinv | exact Hh | lia | exact Hcur]. }
  clearbody st2.
  set (st3 := if (ch =? KEY_DOWN) && _ then key_down st2 else st2).
  assert (H3 : session_inv st3).
  { subst st3. destruct ((ch =? KEY_DOWN) && _) eqn:E; [|exact H2].
    apply andb_true_iff in E. destruct E as [_ E]. apply Z.ltb_lt in E.
    destruct H2 as (Hinv & Hup & Hh & Hcur & Hshow).
    split; [exact (registry_inv_ext st2 _ eq_refl eq_refl Hinv)|].
    split; [exact Hup|]. split; [exact Hh|]. split; [|exact Hshow].
    apply key_down_cursor; [apply Hinv | lia | exact Hcur]. }
  clearbody st3.
  destruct (is_enter ch); [|exact H3].
  destruct (_ >? 0) eqn:Hg;
    [apply show_popup_session | apply show_text_input_session]; assumption.
Qed.

Lemma built_session : session_inv built.
Proof.
  split; [apply built_inv|]. split; [|split; [|split]].
  - unfold up_to_date. vm_compute. reflexivity.
  - vm_compute. reflexivity.
  - split; [vm_compute; lia|].
    replace (type (field_at (fields built) (current built))) with FT_MANDATORY
      by (vm_compute; reflexivity).
    discriminate.
  - assert (Hall : forallb shows_selection (fields built) = true)
      by (vm_compute; reflexivity).
    rewrite forallb_forall in Hall. apply List.Forall_forall. exact Hall.
Qed.

Lemma boot_session files : session_inv (init_fields (boot files)).
Proof.
  destruct (init_fields_boot files) as [Hf Ht].
  apply (session_inv_fields built _ Hf Ht); [|apply built_session].
  vm_compute. reflexivity.
Qed.

Lemma reachable_session st : reachable st -> session_inv st.
Proof.
  intros [files Hrtc]. revert st Hrtc.
  apply (rtc_ind_r (fun s => session_inv s)).
  - apply boot_session.
  - intros st st' _ Hstep IH. destruct Hstep. apply main_step_session, IH.
Qed.

(** X4.  In every state the program passes through, the hidden flags are
    those that [update_visibility] computes from the selections: running
    it changes nothing, also after a text was typed (which does not call
    it). *)
Theorem visibility_always_up_to_date (st : State) :
  reachable st -> update_visibility st = st.
Proof.
  intros Hr. apply reachable_session in Hr. destruct Hr as (_ & Hup & _).
  unfold update_visibility, with_fields. unfold up_to_date in Hup. rewrite Hup.
  destruct st; reflexivity.
Qed.

Lemma visibility_always_up_to_date_witness : update_visibility st_vm = st_vm.
Proof. apply (visibility_always_up_to_date st_vm). apply reachable_st_vm. Defined.

(** X5.  In every state the program passes through, the cursor is on a
    row of the form, never on row 0 and never on a section header, so that
    Enter always opens a field. *)
Theorem cursor_on_a_field (st : State) :
  reachable st ->
  (1 <= current st < total_fields st)%nat /\
  type (field_at (fields st) (current st)) <> FT_HEADER.
Proof. intros Hr. apply reachable_session in Hr. apply Hr. Qed.

Lemma cursor_on_a_field_witness :
  type (field_at (fields st_nat) (current st_nat)) <> FT_HEADER.
Proof. apply (cursor_on_a_field st_nat). apply reachable_st_nat. Defined.

(** X6.  In every state the program passes through, the value of every
    dropdown (a field with options) is the label of its selected option:
    what the form shows and what the serializer encodes do not drift
    apart. *)
Theorem dropdown_shows_selection (st : State) (i : nat) :
  reachable st ->
  let f := field_at (fields st) i in
  options f <> [] -> value f = row (options f) (opt_sel f).
Proof.
  intros Hr f Hne. apply reachable_session in Hr.
  destruct Hr as (_ & _ & _ & _ & Hshow).
  assert (Hf : shows_selection f = true).
  { subst f. rewrite field_at_lookup.
    destruct (fields st !! i) as [g|] eqn:Hg; [|reflexivity].
    exact (Forall_lookup_1 (fun f => shows_selection f = true) _ i g Hshow Hg). }
  unfold shows_selection in Hf. destruct (options f) eqn:Ho; [congruence|].
  apply String.eqb_eq in Hf. rewrite Hf. unfold selected_option. rewrite Ho.
  reflexivity.
Qed.

Lemma dropdown_shows_selection_witness :
  value (field_at (fields st_nat) 42) = "Yes"%string.
Proof.
  transitivity (row (options (field_at (fields st_nat) 42))
                    (opt_sel (field_at (fields st_nat) 42)));
    [|vm_compute; reflexivity].
  apply (dropdown_shows_selection st_nat 42 reachable_st_nat).
  replace (options (field_at (fields st_nat) 42)) with no_yes by (vm_compute; reflexivity).
  discriminate.
Defined.

End SessionInvariant.

(* ===================================================================== *)
(** ** The option picker and the text editor                              *)
(* ===================================================================== *)

Section Editing.

Lemma popup_down_step cnt sel rest :
  0 <= sel < cnt ->
  popup_loop cnt sel (KEY_DOWN :: rest) = popup_loop cnt (Z.min (sel + 1) (cnt - 1)) rest.
Proof.
  intros Hs. cbn [popup_loop].
  change (KEY_DOWN =? KEY_UP) with false. change (KEY_DOWN =? KEY_DOWN) with true.
  cbn [andb]. destruct (sel <? cnt - 1) eqn:E.
  - apply Z.ltb_lt in E. f_equal. lia.
  - apply Z.ltb_ge in E. change (is_enter KEY_DOWN) with false.
    change (KEY_DOWN =? 27) with false. cbv iota. f_equal. lia.
Qed.

Lemma popup_up_step cnt sel rest :
  0 <= sel < cnt ->
  popup_loop cnt sel (KEY_UP :: rest) = popup_loop cnt (Z.max (sel - 1) 0) rest.
Proof.
  intros Hs. cbn [popup_loop].
  change (KEY_UP =? KEY_UP) with true. cbn [andb]. destruct (sel >? 0) eqn:E.
  - apply Z.gtb_lt in E. f_equal. lia.
  - assert (sel = 0) as -> by (pose proof (Zgt_cases sel 0) as H; rewrite E in H; lia).
    change (KEY_UP =? KEY_DOWN) with false. cbn [andb].
    change (is_enter KEY_UP) with false. change (KEY_UP =? 27) with false.
    cbv iota. reflexivity.
Qed.

(** X7.  In the option picker the selection moves one option per arrow
    key and stops at the ends: [n] times Down from option [sel] and Enter
    choose option [min (sel + n) (count - 1)], [n] times Up and Enter choose
    [max (sel - n) 0]; there is no wrap-around. *)
Theorem popup_navigation_clamps (cnt sel : Z) (n : nat) (rest : list Z) :
  0 <= sel < cnt ->
  popup_loop cnt sel (replicate n KEY_DOWN ++ 10 :: rest)
  = Some (Z.min (sel + Z.of_nat n) (cnt - 1)) /\
  popup_loop cnt sel (replicate n KEY_UP ++ 10 :: rest)
  = Some (Z.max (sel - Z.of_nat n) 0).
Proof.
  revert sel. induction n as [|n IH]; intros sel Hs.
  - cbn [replicate app popup_loop].
    change (10 =? KEY_UP) with false. change (10 =? KEY_DOWN) with false.
    cbn [andb]. change (is_enter 10) with true. cbv iota.
    split; f_equal; lia.
  - cbn [replicate app]. rewrite (popup_down_step cnt sel _ Hs), (popup_up_step cnt sel _ Hs).
    destruct (IH (Z.min (sel + 1) (cnt - 1)) ltac:(lia)) as [Hd _].
    destruct (IH (Z.max (sel - 1) 0) ltac:(lia)) as [_ Hu].
    rewrite Hd, Hu. split; f_equal; lia.
Qed.

Lemma popup_navigation_clamps_witness :
  popup_loop 3 1 (replicate 5 KEY_DOWN ++ [10]) = Some 2.
Proof.
  apply (popup_navigation_clamps 3 1 5 []). lia.
Defined.

Lemma popup_loop_escape cnt ks rest : forall sel,
  Forall (fun k => is_enter k = false) ks ->
  popup_loop cnt sel (ks ++ 27 :: rest) = None /\ popup_loop cnt sel ks = None.
Proof.
  induction ks as [|k ks IH]; intros sel Hks.
  - cbn [app popup_loop]. change (27 =? KEY_UP) with false.
    change (27 =? KEY_DOWN) with false. cbn [andb].
    change (is_enter 27) with false. change (27 =? 27) with true. auto.
  - inversion Hks as [|? ? Hk Hks']; subst.
    cbn [app popup_loop]. rewrite Hk.
    destruct ((k =? KEY_UP) && (sel >? 0)); [apply IH, Hks'|].
    destruct ((k =? KEY_DOWN) && (sel <? cnt - 1)); [apply IH, Hks'|].
    destruct (k =? 27); [auto|]. apply IH, Hks'.
Qed.

(** X8.  Escape cancels the option picker: whatever keys other than Enter
    were pressed before it, and whatever follows, [show_popup] leaves the
    whole state as it was; so it does while it still waits for a key. *)
Theorem popup_escape_cancels (ks rest : list Z) (i : nat) (st : State) :
  Forall (fun k => is_enter k = false) ks ->
  show_popup (ks ++ 27 :: rest) i st = st /\ show_popup ks i st = st.
Proof.
  intros Hks. unfold show_popup.
  destruct (popup_loop_escape (opt_count (field_at (fields st) i)) ks rest
              (opt_sel (field_at (fields st) i)) Hks) as [H1 H2].
  rewrite H1, H2. auto.
Qed.

Lemma popup_escape_cancels_witness :
  show_popup ([KEY_DOWN; KEY_DOWN; KEY_UP] ++ 27 :: [10]) 6 built = built.
Proof.
  apply (popup_escape_cancels [KEY_DOWN; KEY_DOWN; KEY_UP] [10] 6 built).
  repeat constructor.
Defined.

(** X9.  The option picker edits the row it is opened on and no other:
    in every other row only the hidden flag can differ afterwards, and in
    the row itself the label, the key and the options stay; the number of
    fields, the cursor, the files and the status line are as before. *)
Theorem popup_edits_one_row (keys : list Z) (i : nat) (st : State) :
  let st' := show_popup keys i st in
  (forall j, j <> i ->
     unhide (field_at (fields st') j) = unhide (field_at (fields st) j)) /\
  static (field_at (fields st') i) = static (field_at (fields st) i) /\
  total_fields st' = total_fields st /\ current st' = current st /\
  disk st' = disk st /\ status_line st' = status_line st.
Proof.
  intros st'. subst st'. unfold show_popup.
  destruct (popup_loop _ _ keys) as [sel|]; [|repeat split; reflexivity].
  set (g := fun f => set_value (row (options f) sel) (set_opt_sel sel f)).
  set (st1 := with_fields (update_at i g (fields st)) st).
  pose proof (update_visibility_static st1) as Hu.
  split; [|split; [|repeat split; reflexivity]].
  - intros j Hj. rewrite (field_at_unhide _ _ j Hu). subst st1.
    cbn [with_fields fields]. rewrite field_at_update_at.
    case_decide as H; [destruct H; congruence | reflexivity].
  - assert (Hs : static (field_at (fields (update_visibility st1)) i)
                 = static (field_at (fields st1) i)).
    { apply (f_equal static (field_at_unhide _ _ i Hu)). }
    rewrite Hs. subst st1. cbn [with_fields fields]. rewrite field_at_update_at.
    case_decide; reflexivity.
Qed.

Lemma substring_all s : forall n, (String.length s <= n)%nat -> String.substring 0 n s = s.
Proof.
  induction s as [|c s IH]; intros n Hn; destruct n as [|n]; cbn in *;
    try reflexivity; try lia.
  rewrite IH by lia. reflexivity.
Qed.

Lemma get_field_loop_xml fs fs' key n : forall i,
  (forall j, xml (field_at fs j) = xml (field_at fs' j)) ->
  get_field_loop fs key i n = get_field_loop fs' key i n.
Proof.
  induction n as [|n IH]; intros i H; cbn [get_field_loop]; [reflexivity|].
  rewrite (H i), (IH (S i) H). reflexivity.
Qed.

(** X10.  A line typed into a row whose label does not contain MAC is
    stored as it is (a line that fits the 128-byte buffer is not cut), and
    a lookup of the row's key returns it when the row is the first with
    that key; every other row, and everything of the row but its value, is
    as before. *)
Theorem typed_text_is_stored (typed key : string) (i : nat) (st : State) :
  (i < length (fields st))%nat ->
  strstr (label (field_at (fields st) i)) "MAC" = false ->
  fits_value typed ->
  let st' := show_text_input typed i st in
  field_at (fields st') i = set_value typed (field_at (fields st) i) /\
  (forall j, j <> i -> field_at (fields st') j = field_at (fields st) j) /\
  (first_match st key i -> val st' key = typed).
Proof.
  intros Hi Hmac [_ Hlen] st'. subst st'. unfold show_text_input.
  cbn [with_fields fields].
  assert (Hrow : field_at (update_at i
             (fun f => set_value
                (if strstr (label f) "MAC" then sanitize_mac (strncpy 127 typed)
                 else strncpy 127 typed) f) (fields st)) i
          = set_value typed (field_at (fields st) i)).
  { rewrite field_at_update_at. case_decide as H; [|exfalso; apply H; auto].
    rewrite Hmac. unfold strncpy. rewrite substring_all by lia. reflexivity. }
  split; [exact Hrow|]. split.
  - intros j Hj. rewrite field_at_update_at.
    case_decide as H; [destruct H; congruence | reflexivity].
  - intros Hfirst. apply get_field_first in Hfirst.
    unfold val, get_field in *. cbn [fields total_fields with_fields].
    rewrite (get_field_loop_xml _ (fields st)).
    + rewrite Hfirst, Hrow. reflexivity.
    + intros j. rewrite field_at_update_at. case_decide; reflexivity.
Qed.

Lemma typed_text_is_stored_witness :
  val (show_text_input "192.168.1.10" 3 built) "processNodeName1" = "192.168.1.10"%string.
Proof.
  apply (typed_text_is_stored "192.168.1.10" "processNodeName1" 3 built).
  - vm_compute. lia.
  - vm_compute. reflexivity.
  - split; [|simpl; lia]. unfold well_formed. simpl. repeat constructor; discriminate.
  - split; [vm_compute; lia|]. split; [vm_compute; reflexivity|].
    intros k Hk.
    assert (Hall : forallb (fun k =>
               negb (String.eqb (xml (field_at (fields built) k)) "processNodeName1"))
                     (seq 0 3) = true) by (vm_compute; reflexivity).
    rewrite forallb_forall in Hall.
    specialize (Hall k ltac:(apply in_seq; lia)).
    apply negb_true_iff, String.eqb_neq in Hall. exact Hall.
Defined.

(** X11.  A line typed into the MAC Address row is stored sanitized, and
    the save that follows passes the MAC check exactly when the line has at
    least 12 hexadecimal digits, whatever separates them; digits after the
    twelfth are dropped. *)
Theorem typed_mac_is_accepted (typed : string) (st : State) :
  registry_shape st -> fits_value typed ->
  let st' := show_text_input typed 1 st in
  val st' "device" = of_chars (take 12 (hex_upper (chars typed))) /\
  (serialize st' <> None <->
   (12 <= length (List.filter isxdigit (chars typed)))%nat).
Proof.
  intros Hsh Hfit st'.
  assert (Hsh' : registry_shape st')
    by (apply shape_update_at; [reflexivity | exact Hsh]).
  assert (Hval : val st' "device" = sanitize_mac typed).
  { rewrite (shape_device st' Hsh'). subst st'. unfold show_text_input.
    cbn [with_fields fields]. rewrite field_at_update_at.
    case_decide as H.
    - rewrite (shape_label st 1 Hsh), (proj1 built_row1).
      change (strstr "MAC Address" "MAC") with true. cbv iota. cbn [value set_value].
      unfold strncpy. rewrite substring_all by (destruct Hfit; lia). reflexivity.
    - exfalso. apply H. split; [reflexivity|].
      rewrite (shape_length st Hsh). unfold MAX_FIELDS. lia. }
  rewrite (sanitize_mac_refines typed Hfit) in Hval. unfold sanitize_spec in Hval.
  fold (hex_upper (chars typed)) in Hval.
  split; [exact Hval|].
  unfold serialize. rewrite Hval, length_of_chars, length_take.
  unfold hex_upper. rewrite length_map.
  destruct (Nat.eqb _ 12) eqn:E.
  - apply Nat.eqb_eq in E. split; [intros _; lia | intros _; discriminate].
  - apply Nat.eqb_neq in E. split; [congruence | lia].
Qed.

Lemma typed_mac_is_accepted_witness :
  serialize (show_text_input "00-07-a1-b2-c3-d4-e5" 1 built) <> None.
Proof.
  apply (typed_mac_is_accepted "00-07-a1-b2-c3-d4-e5" built).
  - apply built_shape.
  - split; [|simpl; lia]. unfold well_formed. simpl. repeat constructor; discriminate.
  - vm_compute. lia.
Defined.

End Editing.

(* ===================================================================== *)
(** ** Saving                                                             *)
(* ===================================================================== *)

Section Saving.

Lemma get_field_fields st st' key :
  fields st' = fields st -> total_fields st' = total_fields st ->
  get_field st' key = get_field st key.
Proof. intros Hf Ht. unfold get_field. rewrite Hf, Ht. reflexivity. Qed.

Lemma val_fields st st' key :
  fields st' = fields st -> total_fields st' = total_fields st ->
  val st' key = val st key.
Proof. intros Hf Ht. unfold val. rewrite (get_field_fields st st' key Hf Ht), Hf. reflexivity. Qed.

End Saving.

Section SavingMore.

(** *** The document reads labels, values, keys and selections only *)

Section SameButHidden.

Variables st st' : State.
Hypothesis Hu : map unhide (fields st) = map unhide (fields st').
Hypothesis Ht : total_fields st = total_fields st'.

Lemma same_label j : label (field_at (fields st) j) = label (field_at (fields st') j).
Proof. apply label_unhide, Hu. Qed.

Lemma same_value j : value (field_at (fields st) j) = value (field_at (fields st') j).
Proof. apply value_unhide, Hu. Qed.

Lemma same_opt_sel j : opt_sel (field_at (fields st) j) = opt_sel (field_at (fields st') j).
Proof. apply opt_sel_unhide, Hu. Qed.

Lemma same_xml_values j :
  xml_values (field_at (fields st) j) = xml_values (field_at (fields st') j).
Proof. apply (f_equal xml_values (field_at_unhide _ _ j Hu)). Qed.

Lemma same_get_field key : get_field st key = get_field st' key.
Proof.
  unfold get_field. rewrite Ht. apply get_field_loop_xml.
  intros j. apply xml_unhide, Hu.
Qed.

Lemma same_val key : val st key = val st' key.
Proof. unfold val. rewrite same_get_field. destruct (get_field st' key); [apply same_value|reflexivity]. Qed.

Lemma same_opt_val key : opt_val st key = opt_val st' key.
Proof.
  unfold opt_val. rewrite same_get_field.
  destruct (get_field st' key); [|reflexivity].
  cbv zeta. rewrite same_xml_values, same_opt_sel. reflexivity.
Qed.

Lemma same_line_block i : line_block st i = line_block st' i.
Proof.
  unfold line_block. cbv zeta.
  rewrite (same_label i), (same_opt_sel i), (same_opt_sel (i + 5)),
    (same_value (i + 1)), (same_value (i + 2)), (same_value (i + 3)),
    (same_value (i + 4)), (same_value (i + 6)), (same_value (i + 7)),
    (same_val "voiceMailPilot").
  reflexivity.
Qed.

Lemma same_document : xml_document st = xml_document st'.
Proof.
  unfold xml_document. cbv zeta.
  rewrite Ht, (flat_map_ext _ _ same_line_block).
  rewrite !same_val, !same_opt_val, !same_get_field.
  destruct (get_field st' "natEnabled"), (get_field st' "snmpEnabled");
    rewrite ?same_opt_sel; reflexivity.
Qed.

End SameButHidden.

(** X13.  The document does not depend on the hidden flags: two states
    that have the same number of fields and differ at most in hidden flags
    have the same document; so [update_visibility] never changes what a
    save writes, and a field that is hidden is written like a visible
    one. *)
Theorem document_ignores_hidden (st st' : State) :
  map unhide (fields st) = map unhide (fields st') ->
  total_fields st = total_fields st' ->
  xml_document st = xml_document st' /\
  xml_document (update_visibility st) = xml_document st.
Proof.
  intros Hu Ht. split; [apply same_document; assumption|].
  apply same_document; [apply update_visibility_static | reflexivity].
Qed.

Lemma document_ignores_hidden_witness :
  xml_document (with_fields (map unhide (fields st_nat)) st_nat) = xml_document st_nat.
Proof.
  assert (H1 : map unhide (fields (with_fields (map unhide (fields st_nat)) st_nat))
               = map unhide (fields st_nat)) by (vm_compute; reflexivity).
  assert (H2 : total_fields (with_fields (map unhide (fields st_nat)) st_nat)
               = total_fields st_nat) by (vm_compute; reflexivity).
  exact (proj1 (document_ignores_hidden _ _ H1 H2)).
Defined.

(** *** What a save does to the state *)

Lemma save_xml_result ok st :
  save_xml ok st
  = match serialize st with
    | None => mkState (fields st) (total_fields st) (current st) (disk st)
                      "ERR: MAC MUST BE 12 CHARS!"
    | Some (fn, doc) =>
        if ok
        then mkState (fields st) (total_fields st) (current st)
                     (<[fn := written doc]> (disk st))
                     (sprintf "SUCCESS: %s SAVED." [AStr fn])
        else st
    end.
Proof.
  unfold save_xml, serialize.
  destruct (Nat.eqb (String.length (val st "device")) 12); [|reflexivity].
  destruct ok; reflexivity.
Qed.

Lemma serialize_fields st st' :
  fields st' = fields st -> total_fields st' = total_fields st ->
  serialize st' = serialize st.
Proof.
  intros Hf Ht. unfold serialize.
  rewrite (val_fields st st' _ Hf Ht).
  rewrite (same_document st' st); [reflexivity | rewrite Hf; reflexivity | exact Ht].
Qed.

(** X12.  A save, whether it fails on the MAC check, fails to open the
    file or succeeds, leaves the fields, their number and the cursor as
    they were, and touches no file but the one named after the MAC
    address; saving a second time right away changes nothing more. *)
Theorem save_is_contained (ok : bool) (st : State) :
  let st' := save_xml ok st in
  fields st' = fields st /\ total_fields st' = total_fields st /\
  current st' = current st /\
  (forall name, name <> sprintf "SEP%s.cnf.xml" [AStr (val st "device")] ->
     disk st' !! name = disk st !! name) /\
  save_xml ok st' = st'.
Proof.
  intros st'. subst st'.
  destruct (fields_save_xml ok st) as (Hf & Ht & Hc).
  split; [exact Hf|]. split; [exact Ht|]. split; [exact Hc|]. split.
  - intros name Hname. unfold save_xml.
    destruct (negb (Nat.eqb _ 12)); [reflexivity|].
    destruct (negb ok); [reflexivity|].
    cbn [disk]. apply lookup_insert_ne. congruence.
  - rewrite (save_xml_result ok (save_xml ok st)).
    rewrite (serialize_fields st _ Hf Ht).
    rewrite (save_xml_result ok st).
    destruct (serialize st) as [[fn doc]|]; [|reflexivity].
    destruct ok; [|destruct st; reflexivity].
    cbn [fields total_fields current disk]. rewrite insert_insert_eq. reflexivity.
Qed.

(** *** More leaves *)

Lemma line_decides_more st tag :
  In tag ("ethernetPhonePort" :: "featureID" :: always_encoded)%string ->
  forall i, flat_map (call_open tag) (line_block st i) = [].
Proof.
  intros Hin i. cbn [always_encoded In] in Hin.
  repeat (destruct Hin as [<-|Hin]; [line_elements|]).
  destruct Hin.
Qed.

Lemma document_decides_more st tag :
  In tag ("ethernetPhonePort" :: "featureID" :: always_encoded)%string ->
  flat_map (call_open tag) (xml_document st) = [].
Proof.
  intros Hin. assert (Hl := line_decides_more st tag Hin).
  cbn [always_encoded In] in Hin.
  repeat (destruct Hin as [<-|Hin]; [doc_elements Hl|]).
  destruct Hin.
Qed.

Lemma line_holds_none_more st tag :
  In tag ("ethernetPhonePort" :: always_encoded)%string ->
  forall i, flat_map (call_elements tag) (line_block st i) = [].
Proof.
  intros Hin i. cbn [always_encoded In] in Hin.
  repeat (destruct Hin as [<-|Hin]; [line_elements|]).
  destruct Hin.
Qed.

Lemma ethernetPhonePort_calls st :
  flat_map (call_elements "ethernetPhonePort") (xml_document st)
  = sip_port st ::
    (if nonempty (val st "processNodeName2") then [sip_port st] else []) ++
    (if nonempty (val st "processNodeName3") then [sip_port st] else []).
Proof.
  assert (Hl := line_holds_none_more st "ethernetPhonePort" ltac:(cbn; tauto)).
  doc_elements Hl.
Qed.

Lemma line_featureID_calls st i :
  flat_map (call_elements "featureID") (line_block st i)
  = if button_on st i
    then [if (opt_sel (field_at (fields st) i) =? 1)%Z then "9" else "21"]%string else [].
Proof. line_elements. Qed.

Lemma featureID_calls st :
  flat_map (call_elements "featureID") (xml_document st)
  = per_row st (fun i => if button_on st i
       then [if (opt_sel (field_at (fields st) i) =? 1)%Z then "9" else "21"]%string
       else []).
Proof. doc_elements (line_featureID_calls st). Qed.

Lemma always_encoded_calls st tag :
  In tag always_encoded ->
  flat_map (call_elements tag) (xml_document st) = [opt_val st tag].
Proof.
  intros Hin.
  assert (Hl := line_holds_none_more st tag ltac:(right; exact Hin)).
  cbn [always_encoded In] in Hin.
  repeat (destruct Hin as [<-|Hin]; [doc_elements Hl|]).
  destruct Hin.
Qed.

(** X14.  In the text that [save_xml] writes for values without [<],
    every call manager member carries the same port: the value of the SIP
    Port field, or 5060 when that field is empty.  There is one
    processNodeName for the primary PBX, whose address is written even when
    empty, and one more for each of the secondary and tertiary PBX whose
    address is not empty; there are as many ethernetPhonePort elements,
    each with the port as its whole content. *)
Theorem members_share_the_port (st : State) :
  markup_free st = true ->
  let port := if nonempty (val st "voipControlPort")
              then val st "voipControlPort" else "5060"%string in
  let members := val st "processNodeName1" ::
                 if_nonempty (val st "processNodeName2") ++
                 if_nonempty (val st "processNodeName3") in
  elements "processNodeName" (written (xml_document st)) = members /\
  elements "ethernetPhonePort" (written (xml_document st))
  = map (fun _ => port) members.
Proof.
  intros Hfree port members. subst port members.
  rewrite (text_elements st _ Hfree (leaf_tag_other "processNodeName" ltac:(cbn; tauto))),
          processNodeName_calls.
  rewrite (elements_document st _ Hfree
             (document_decides_more st "ethernetPhonePort" ltac:(cbn; tauto))),
          ethernetPhonePort_calls.
  split; [reflexivity|]. unfold sip_port, if_nonempty.
  destruct (nonempty (val st "voipControlPort")),
    (nonempty (val st "processNodeName2")), (nonempty (val st "processNodeName3"));
    reflexivity.
Qed.

Lemma members_share_the_port_witness :
  elements "processNodeName" (written (xml_document st_pbx))
  = ["10.0.0.1"; "10.0.0.2"]%string /\
  elements "ethernetPhonePort" (written (xml_document st_pbx))
  = ["5070"; "5070"]%string.
Proof.
  assert (Hfree : markup_free st_pbx = true) by (vm_compute; reflexivity).
  pose proof (members_share_the_port st_pbx Hfree) as H. cbv zeta in H.
  destruct H as [H1 H2]. rewrite H1, H2.
  split; vm_compute; reflexivity.
Defined.

(** X15.  The text that [save_xml] writes for values without [<] has one
    featureID element for each button that is not Disabled, in the order
    of the buttons, and no other: its content is 9 when the button is a
    Line and 21 for any other kind (SpeedDial and BLF are not told
    apart). *)
Theorem feature_id_of_buttons (st : State) :
  markup_free st = true ->
  elements "featureID" (written (xml_document st))
  = per_row st (fun i =>
      if button_on st i
      then [if button_line st i then "9" else "21"]%string else []).
Proof.
  intros Hfree.
  rewrite (elements_document st _ Hfree
             (document_decides_more st "featureID" ltac:(cbn; tauto))),
          featureID_calls.
  apply per_row_ext. intros i _.
  unfold button_line. destruct (button_on st i); reflexivity.
Qed.

Lemma feature_id_of_buttons_witness :
  elements "featureID" (written (xml_document st_sd)) = ["9"; "21"]%string.
Proof.
  assert (Hfree : markup_free st_sd = true) by (vm_compute; reflexivity).
  rewrite (feature_id_of_buttons st_sd Hfree).
  vm_compute. reflexivity.
Defined.

End SavingMore.

Section EncodedLeaves.

Lemma encoded_nonempty_static f : encoded_nonempty (static f) = encoded_nonempty f.
Proof. reflexivity. Qed.

Lemma shape_encoded_nonempty st :
  registry_shape st -> Forall (fun f => encoded_nonempty f = true) (fields st).
Proof.
  intros [Hs _].
  assert (Hb : Forall (fun f => encoded_nonempty f = true) (fields built)).
  { assert (Hall : forallb encoded_nonempty (fields built) = true)
      by (vm_compute; reflexivity).
    rewrite forallb_forall in Hall. apply List.Forall_forall. exact Hall. }
  assert (H : Forall (fun f => encoded_nonempty f = true) (map static (fields st))).
  { rewrite Hs. apply Forall_map. eapply Forall_impl; [exact Hb|].
    intros f Hf. cbn beta. rewrite encoded_nonempty_static. exact Hf. }
  apply Forall_map in H. eapply Forall_impl; [exact H|].
  intros f Hf. cbn beta in Hf. rewrite encoded_nonempty_static in Hf. exact Hf.
Qed.

(** The encoded value of the selection of a dropdown is one of its
    encoded values, none of which is empty. *)
Lemma selection_encodes st i :
  registry_inv st ->
  let f := field_at (fields st) i in
  options f <> [] ->
  In (selected_encoded f) (xml_values f) /\ nonempty (selected_encoded f) = true.
Proof.
  intros (Hsh & Hsel & _) f Hne.
  assert (Hin : sel_ok f = true /\ options_ok f = true /\ encoded_nonempty f = true).
  { subst f. rewrite field_at_lookup in *.
    destruct (fields st !! i) as [g|] eqn:Hg; [|exfalso; apply Hne; reflexivity].
    change (default zero_field (Some g)) with g. split; [|split].
    - exact (Forall_lookup_1 (fun f => sel_ok f = true) _ i g Hsel Hg).
    - exact (Forall_lookup_1 (fun f => options_ok f = true) _ i g
               (shape_options_ok st Hsh) Hg).
    - exact (Forall_lookup_1 (fun f => encoded_nonempty f = true) _ i g
               (shape_encoded_nonempty st Hsh) Hg). }
  destruct Hin as (Hok & Hopt & Henc).
  apply options_ok_inv in Hopt. destruct Hopt as (Hlen & Hc & _).
  unfold sel_ok in Hok. unfold selected_encoded.
  destruct (options f) as [|o os] eqn:Ho; [congruence|].
  cbn [length] in Hc, Hlen.
  destruct (opt_count f >? 0) eqn:E; [|lia].
  apply andb_true_iff in Hok. destruct Hok as [H0 H1].
  assert (Hnth : In (nth (Z.to_nat (opt_sel f)) (xml_values f) EmptyString) (xml_values f))
    by (apply nth_In; lia).
  split; [exact Hnth|].
  unfold encoded_nonempty in Henc. rewrite forallb_forall in Henc.
  apply Henc, Hnth.
Qed.

Lemma nonempty_not_empty s : nonempty s = true -> s <> EmptyString.
Proof. intros H ->. discriminate H. Qed.

(** X16.  In every state the program passes through, for values without
    [<], each leaf that the serializer fills with the encoded value of a
    dropdown (the twenty it writes without a test, and dateTemplate and
    timeFormat, which it tests) is in the text of the document exactly
    once, with a content that is not empty and is one of the encoded
    values of the dropdown of that key. *)
Theorem dropdown_leaves_never_empty (st : State) (key : string) :
  reachable st -> markup_free st = true ->
  In key (always_encoded ++ guarded_encoded) ->
  elements key (written (xml_document st)) = [opt_val st key] /\
  opt_val st key <> EmptyString /\
  exists i, first_match st key i /\
            In (opt_val st key) (xml_values (field_at (fields st) i)).
Proof.
  intros Hr Hfree Hin. apply reachable_inv in Hr. pose proof Hr as (Hsh & _ & _).
  assert (Hrow : exists r, get_field st key = Some r /\
                           options (field_at (fields st) r) <> []).
  { assert (Hall : forallb (fun key =>
              match get_field built key with
              | Some r => nonempty_list (options (field_at (fields built) r))
              | None => false
              end) (always_encoded ++ guarded_encoded) = true)
      by (vm_compute; reflexivity).
    rewrite forallb_forall in Hall. specialize (Hall key Hin).
    rewrite (shape_get_field st key Hsh).
    destruct (get_field built key) as [r|]; [|discriminate].
    exists r. split; [reflexivity|].
    rewrite (shape_options st r Hsh).
    destruct (options (field_at (fields built) r)); [discriminate|discriminate]. }
  destruct Hrow as (r & Hg & Hne).
  destruct (selection_encodes st r Hr Hne) as [Hmem Hnon].
  destruct (row_selected st r Hr) as [_ Hrowsel].
  assert (Hov : opt_val st key = selected_encoded (field_at (fields st) r)).
  { unfold opt_val. rewrite Hg. exact Hrowsel. }
  rewrite Hov. split; [|split].
  - apply in_app_or in Hin. destruct Hin as [Hin|Hin].
    + rewrite (elements_document st key Hfree
                 (document_decides_more st key ltac:(right; right; exact Hin))),
              (always_encoded_calls st key Hin), Hov. reflexivity.
    + rewrite (text_elements st key Hfree (leaf_tag_encoded key Hin)),
              (guarded_encoded_calls st key Hin), Hov.
      unfold if_nonempty. rewrite Hnon. reflexivity.
  - apply nonempty_not_empty, Hnon.
  - exists r. split; [apply get_field_first, Hg | exact Hmem].
Qed.

Lemma dropdown_leaves_never_empty_witness :
  elements "timeFormat" (written (xml_document st_vm)) = ["12"%string] /\
  elements "timeZone" (written (xml_document st_vm))
  = ["Pacific Standard/Daylight Time"%string].
Proof.
  assert (Hfree : markup_free st_vm = true) by (vm_compute; reflexivity).
  assert (H1 : [opt_val st_vm "timeFormat"] = ["12"%string]) by (vm_compute; reflexivity).
  assert (H2 : [opt_val st_vm "timeZone"] = ["Pacific Standard/Daylight Time"%string])
    by (vm_compute; reflexivity).
  split.
  - rewrite (proj1 (dropdown_leaves_never_empty st_vm "timeFormat" reachable_st_vm Hfree
                      ltac:(cbn; tauto))).
    exact H1.
  - rewrite (proj1 (dropdown_leaves_never_empty st_vm "timeZone" reachable_st_vm Hfree
                      ltac:(cbn; tauto))).
    exact H2.
Defined.

End EncodedLeaves.

(* ===================================================================== *)
(** ** Defining fields                                                    *)
(* ===================================================================== *)

Section Defining.

Lemma get_field_loop_range fs fs' key n : forall i,
  (forall j, (i <= j < i + n)%nat -> xml (field_at fs j) = xml (field_at fs' j)) ->
  get_field_loop fs key i n = get_field_loop fs' key i n.
Proof.
  induction n as [|n IH]; intros i H; cbn [get_field_loop]; [reflexivity|].
  rewrite (H i) by lia. rewrite (IH (S i)); [reflexivity|].
  intros j Hj. apply H. lia.
Qed.

Lemma get_field_loop_last fs key n : forall i,
  get_field_loop fs key i (S n)
  = match get_field_loop fs key i n with
    | Some j => Some j
    | None => if streq (xml (field_at fs (i + n))) key then Some (i + n)%nat else None
    end.
Proof.
  induction n as [|n IH]; intros i.
  - cbn [get_field_loop]. rewrite Nat.add_0_r.
    destruct (streq _ key); reflexivity.
  - change (get_field_loop fs key i (S (S n)))
      with (if streq (xml (field_at fs i)) key then Some i
            else get_field_loop fs key (S i) (S n)).
    rewrite (IH (S i)). cbn [get_field_loop].
    destruct (streq (xml (field_at fs i)) key); [reflexivity|].
    replace (S i + n)%nat with (i + S n)%nat by lia. reflexivity.
Qed.

(** The effect of [add_field] while the array has room. *)
Lemma add_field_row (lbl key hlp : string) (t : FieldType) (hide : Z)
    (st : State) (key' : string) :
  (total_fields st < length (fields st))%nat ->
  (String.length key <= 63)%nat ->
  let st' := add_field lbl (Some key) t hlp hide st in
  total_fields st' = S (total_fields st) /\
  (forall j, j <> total_fields st -> field_at (fields st') j = field_at (fields st) j) /\
  xml (field_at (fields st') (total_fields st)) = key /\
  value (field_at (fields st') (total_fields st)) = EmptyString /\
  hidden (field_at (fields st') (total_fields st)) = negb (hide =? 0) /\
  get_field st' key'
  = match get_field st key' with
    | Some i => Some i
    | None => if String.eqb key key' then Some (total_fields st) else None
    end.
Proof.
  intros Hroom Hlen st'. subst st'. unfold add_field.
  cbn [fields total_fields].
  set (g := fun f : Field => mkField _ _ _ _ _ _ _ _ _ _).
  assert (Hnew : field_at (update_at (total_fields st) g (fields st)) (total_fields st)
                 = g (field_at (fields st) (total_fields st))).
  { rewrite field_at_update_at. case_decide as H; [reflexivity|].
    exfalso. apply H. auto. }
  assert (Hold : forall j, j <> total_fields st ->
            field_at (update_at (total_fields st) g (fields st)) j
            = field_at (fields st) j).
  { intros j Hj. rewrite field_at_update_at.
    case_decide as H; [destruct H; congruence | reflexivity]. }
  assert (Hkey : xml (g (field_at (fields st) (total_fields st))) = key).
  { subst g. cbn [xml default from_option]. unfold strncpy, id.
    apply substring_all, Hlen. }
  split; [reflexivity|]. split; [exact Hold|].
  rewrite Hnew. split; [exact Hkey|]. split; [reflexivity|]. split; [reflexivity|].
  unfold get_field. cbn [fields total_fields].
  rewrite get_field_loop_last. cbn [Nat.add].
  rewrite (get_field_loop_range _ (fields st)).
  2:{ intros j Hj. rewrite Hold by lia. reflexivity. }
  destruct (get_field_loop (fields st) key' 0 (total_fields st)); [reflexivity|].
  rewrite Hnew, Hkey. reflexivity.
Qed.

(** X17.  [add_field] appends: while the array has room, the new field
    takes the row after the last one with an empty value, all other rows
    stay, and a lookup finds what it found before, or the new row when the
    key (of at most 63 characters) was not there yet; a key that was
    there keeps resolving to its first row. *)
Theorem add_field_appends (lbl key hlp : string) (t : FieldType) (hide : Z)
    (st : State) (key' : string) :
  (total_fields st < length (fields st))%nat ->
  (String.length key <= 63)%nat ->
  let st' := add_field lbl (Some key) t hlp hide st in
  total_fields st' = S (total_fields st) /\
  (forall j, j <> total_fields st -> field_at (fields st') j = field_at (fields st) j) /\
  xml (field_at (fields st') (total_fields st)) = key /\
  value (field_at (fields st') (total_fields st)) = EmptyString /\
  hidden (field_at (fields st') (total_fields st)) = negb (hide =? 0) /\
  get_field st' key'
  = match get_field st key' with
    | Some i => Some i
    | None => if String.eqb key key' then Some (total_fields st) else None
    end.
Proof. apply add_field_row. Qed.

Lemma add_field_appends_witness :
  get_field (add_field "Proxy" (Some "outboundProxy"%string) FT_OPTIONAL "Outbound proxy." 0
               built) "outboundProxy"
  = Some 105%nat.
Proof.
  assert (Hroom : (total_fields built < length (fields built))%nat)
    by (vm_compute; lia).
  assert (Hlen : (String.length "outboundProxy" <= 63)%nat) by (simpl; lia).
  transitivity (match get_field built "outboundProxy" with
                | Some i => Some i
                | None => if String.eqb "outboundProxy" "outboundProxy"
                          then Some (total_fields built) else None
                end); [|vm_compute; reflexivity].
  exact (proj2 (proj2 (proj2 (proj2 (proj2
          (add_field_appends "Proxy" "outboundProxy" "Outbound proxy." FT_OPTIONAL 0
             built "outboundProxy" Hroom Hlen)))))).
Defined.

Lemma nth_fill_rows count src old n :
  (n < Z.to_nat count)%nat -> (Z.to_nat count <= length src)%nat ->
  nth n (fill_rows count src old) EmptyString = strncpy 63 (nth n src EmptyString).
Proof.
  intros Hn Hc. unfold fill_rows.
  rewrite app_nth1 by (rewrite length_map, length_take; lia).
  change EmptyString with (strncpy 63 EmptyString) at 1.
  rewrite map_nth. f_equal.
  rewrite <- (take_drop (Z.to_nat count) src) at 2.
  rewrite app_nth1 by (rewrite length_take; lia). reflexivity.
Qed.

(** Every value that [init_fields] stores fits the value buffer: no
    default label is cut or runs over. *)
Lemma built_values_fit :
  Forall (fun f => (String.length (value f) < 128)%nat) (fields built).
Proof.
  assert (H : forallb (fun f => Nat.ltb (String.length (value f)) 128) (fields built)
              = true) by (vm_compute; reflexivity).
  rewrite forallb_forall in H. apply List.Forall_forall.
  intros f Hf. apply Nat.ltb_lt, H, Hf.
Qed.

(** X18.  A dropdown defined by [add_dropdown] with a default inside its
    options, whose label fits the 128-byte value buffer into which
    [strcpy] copies it, shows and encodes that default: while the array
    has room, and for a key of at most 63 characters that no field carries
    yet, a lookup of the key returns the label of the default option as
    value and its encoded value (cut to 63 characters) as encoded value,
    and the selection is the default. *)
Theorem add_dropdown_selects_default (lbl key hlp : string) (opts vals : list string)
    (count def hide : Z) (st : State) :
  (total_fields st < length (fields st))%nat ->
  (String.length key <= 63)%nat ->
  absent st key ->
  0 <= def < count -> count <= 100 ->
  count <= Z.of_nat (length opts) -> count <= Z.of_nat (length vals) ->
  fits_value (nth (Z.to_nat def) opts EmptyString) ->
  let st' := add_dropdown lbl (Some key) hlp opts vals count def hide st in
  let f := field_at (fields st') (total_fields st) in
  total_fields st' = S (total_fields st) /\
  get_field st' key = Some (total_fields st) /\
  opt_sel f = def /\ opt_count f = count /\
  val st' key = nth (Z.to_nat def) opts EmptyString /\
  opt_val st' key = strncpy 63 (nth (Z.to_nat def) vals EmptyString) /\
  selected_option f = strncpy 63 (nth (Z.to_nat def) opts EmptyString).
Proof.
  intros Hroom Hlen Habs Hdef H100 Hopts Hvals _ st' f.
  pose proof (add_field_row lbl key hlp FT_OPTIONAL hide st key Hroom Hlen)
    as (Ht & Hold & Hkey & _ & _ & Hget).
  cbv zeta in Ht, Hold, Hkey, Hget.
  set (st1 := add_field lbl (Some key) FT_OPTIONAL hlp hide st) in *.
  assert (Hlen1 : length (fields st1) = length (fields st)).
  { subst st1. unfold add_field. cbn [fields]. apply length_update_at. }
  assert (Hst' : st' = with_fields
            (update_at (total_fields st) (fun f =>
               mkField (label f) (elem opts def) (xml f) (help f) (type f)
                       (fill_rows count opts (options f))
                       (fill_rows count vals (xml_values f))
                       count def (hidden f)) (fields st1)) st1).
  { subst st'. unfold add_dropdown. fold st1. cbv zeta. rewrite Ht.
    replace (S (total_fields st) - 1)%nat with (total_fields st) by lia.
    reflexivity. }
  assert (Hf : f = (fun f =>
               mkField (label f) (elem opts def) (xml f) (help f) (type f)
                       (fill_rows count opts (options f))
                       (fill_rows count vals (xml_values f))
                       count def (hidden f)) (field_at (fields st1) (total_fields st))).
  { subst f. rewrite Hst'. cbn [with_fields fields]. rewrite field_at_update_at.
    case_decide as H; [reflexivity|]. exfalso. apply H. split; [reflexivity|lia]. }
  cbv beta in Hf.
  assert (Hg : get_field st' key = Some (total_fields st)).
  { rewrite Hst'. unfold get_field. cbn [with_fields fields total_fields].
    rewrite (get_field_loop_xml _ (fields st1)).
    - fold (get_field st1 key). rewrite Hget.
      apply get_field_absent in Habs. rewrite Habs, String.eqb_refl. reflexivity.
    - intros j. rewrite field_at_update_at. case_decide; reflexivity. }
  split; [rewrite Hst'; exact Ht|]. split; [exact Hg|].
  split; [rewrite Hf; reflexivity|]. split; [rewrite Hf; reflexivity|].
  assert (Hn : (Z.to_nat def < Z.to_nat count)%nat) by lia.
  split; [|split].
  - unfold val. rewrite Hg. fold f. rewrite Hf. cbn [value]. unfold elem.
    replace (def <? 0) with false by (symmetry; apply Z.ltb_ge; lia). reflexivity.
  - unfold opt_val. rewrite Hg. fold f. cbv zeta. rewrite Hf. cbn [xml_values opt_sel].
    unfold row. replace ((0 <=? def) && (def <? 100)) with true
      by (symmetry; apply andb_true_iff; lia).
    apply nth_fill_rows; lia.
  - unfold selected_option. rewrite Hf. cbn [options opt_sel].
    unfold row. replace ((0 <=? def) && (def <? 100)) with true
      by (symmetry; apply andb_true_iff; lia).
    apply nth_fill_rows; lia.
Qed.

Lemma add_dropdown_selects_default_witness :
  opt_val (add_dropdown "Ring Tone" (Some "ringTone"%string) "Tone played on a call."
             ["Chirp"; "Bell"; "Classic"]%string ["1"; "2"; "3"]%string 3 1 0 built)
          "ringTone"
  = "2"%string.
Proof.
  assert (Hroom : (total_fields built < length (fields built))%nat)
    by (vm_compute; lia).
  assert (Hlen : (String.length "ringTone" <= 63)%nat) by (simpl; lia).
  assert (Habs : absent built "ringTone").
  { apply get_field_absent. vm_compute. reflexivity. }
  assert (Hfit : fits_value (nth (Z.to_nat 1) ["Chirp"; "Bell"; "Classic"]%string
                               EmptyString)).
  { split; [|simpl; lia]. unfold well_formed. simpl. repeat constructor; discriminate. }
  exact (proj1 (proj2 (proj2 (proj2 (proj2 (proj2
          (add_dropdown_selects_default "Ring Tone" "ringTone" "Tone played on a call."
             ["Chirp"; "Bell"; "Classic"]%string ["1"; "2"; "3"]%string 3 1 0 built
             Hroom Hlen Habs ltac:(lia) ltac:(lia) ltac:(simpl; lia) ltac:(simpl; lia)
             Hfit))))))).
Defined.

End Defining.

(* ===================================================================== *)
(** ** What the screens show                                              *)
(* ===================================================================== *)

Section Screens.

(** *** Wrapping the help text *)

Lemma nonspaces_app l1 l2 : nonspaces (l1 ++ l2) = nonspaces l1 ++ nonspaces l2.
Proof. unfold nonspaces. apply List.filter_app. Qed.

Lemma nonspaces_skip p : nonspaces (skip_spaces p) = nonspaces p.
Proof.
  induction p as [|c p IH]; [reflexivity|].
  cbn [skip_spaces]. destruct (is_space c) eqn:E; [|reflexivity].
  rewrite IH. unfold nonspaces. cbn [List.filter]. rewrite E. reflexivity.
Qed.

Lemma strrchr_from_bound line : forall i found sp,
  strrchr_from line i found = Some sp ->
  found = Some sp \/ (i <= sp < i + length line)%nat.
Proof.
  induction line as [|c line IH]; intros i found sp H; cbn [strrchr_from] in H.
  - left. exact H.
  - apply IH in H. cbn [length]. destruct H as [H|H]; [|right; lia].
    destruct (is_space c); [|left; exact H].
    injection H as <-. right. lia.
Qed.

Lemma take_length_take {A} (n : nat) (p : list A) :
  take (length (take n p)) p = take n p.
Proof.
  rewrite length_take. destruct (le_lt_dec n (length p)) as [H|H].
  - f_equal. lia.
  - rewrite !take_ge by lia. reflexivity.
Qed.

(** The line printed is the beginning of the text, no wider than the
    column width. *)
Lemma wrap_step_line help_w p :
  exists k, fst (wrap_step help_w p) = take k p /\
            (k <= Z.to_nat help_w)%nat /\ (k <= length p)%nat.
Proof.
  unfold wrap_step. cbn [fst].
  set (line := take (Z.to_nat help_w) p).
  assert (Hl : (length line <= Z.to_nat help_w)%nat /\ (length line <= length p)%nat)
    by (subst line; rewrite length_take; lia).
  destruct ((Z.of_nat (length line) =? help_w) && Nat.ltb (length line) (length p)).
  - destruct (strrchr_space line) as [sp|] eqn:Hsp.
    + apply strrchr_from_bound in Hsp. destruct Hsp as [Hsp|Hsp]; [discriminate|].
      exists sp. subst line. rewrite take_take.
      replace (sp `min` Z.to_nat help_w)%nat with sp by lia.
      split; [reflexivity|lia].
    + exists (length line). subst line.
      split; [symmetry; apply take_length_take|]. rewrite length_take. lia.
  - exists (length line). subst line.
    split; [symmetry; apply take_length_take|]. rewrite length_take. lia.
Qed.

Lemma wrap_step_rest help_w p :
  nonspaces p
  = nonspaces (fst (wrap_step help_w p)) ++ nonspaces (snd (wrap_step help_w p)).
Proof.
  destruct (wrap_step_line help_w p) as (k & Hk & _ & Hlen).
  unfold wrap_step in *. cbn [fst snd] in *. cbv zeta in *.
  rewrite !Hk, nonspaces_skip, <- nonspaces_app, length_take.
  replace (k `min` length p)%nat with k by lia.
  rewrite take_drop. reflexivity.
Qed.

Lemma wrap_loop_spec rows help_w : forall p,
  let lines := wrap_loop rows help_w p in
  (length lines <= rows)%nat /\
  Forall (fun l => (length l <= Z.to_nat help_w)%nat) lines /\
  exists rest, nonspaces p = nonspaces (concat lines) ++ nonspaces rest /\
               ((length lines < rows)%nat -> rest = []).
Proof.
  induction rows as [|rows IH]; intros p; cbn [wrap_loop].
  - split; [cbn; lia|]. split; [constructor|].
    exists p. split; [reflexivity|]. cbn. lia.
  - destruct p as [|c p'].
    + split; [cbn; lia|]. split; [constructor|]. exists []. auto.
    + set (p := c :: p').
      pose proof (wrap_step_rest help_w p) as Hrest.
      destruct (wrap_step_line help_w p) as (k & Hk & Hw & _).
      destruct (wrap_step help_w p) as [line rest]. cbn [fst snd] in *.
      destruct (IH rest) as (Hn & Hall & tl & Htl & Hdone).
      split; [cbn [length]; lia|]. split.
      * constructor; [|exact Hall]. rewrite Hk, length_take. lia.
      * exists tl. split.
        -- cbn [concat]. rewrite nonspaces_app, <- app_assoc, <- Htl. exact Hrest.
        -- cbn [length]. intros H. apply Hdone. lia.
Qed.

Lemma text_box_bounds h w : text_box_w w - 4 <= 60 /\ (help_rows h <= 6)%nat.
Proof.
  unfold text_box_w, help_rows, text_box_h.
  destruct (64 >? w) eqn:E1, (14 >? h) eqn:E2;
    try apply Z.gtb_lt in E1; try apply Z.gtb_lt in E2; lia.
Qed.

(** X19.  The help text shown under the input line of [show_text_input]
    is wrapped without loss: there are at most 6 lines, none wider than
    the box allows (at most 60 characters), and the characters other than
    spaces of the lines, read in order, are the beginning of those of the
    help text, and all of them unless the box ran out of lines. *)
Theorem help_text_wraps (h w : Z) (help : string) :
  (String.length help < 511)%nat ->
  let lines := map chars (help_lines h w help) in
  (length lines <= help_rows h <= 6)%nat /\
  Forall (fun l => (length l <= Z.to_nat (text_box_w w - 4) <= 60)%nat) lines /\
  exists rest,
    nonspaces (chars help) = nonspaces (concat lines) ++ nonspaces rest /\
    ((length lines < help_rows h)%nat -> rest = []).
Proof.
  intros Hlen lines.
  destruct (text_box_bounds h w) as [Hw Hrows].
  assert (Hlines : lines = wrap_loop (help_rows h) (text_box_w w - 4) (chars help)).
  { subst lines. unfold help_lines. cbv zeta.
    unfold strncpy. rewrite substring_all by lia.
    rewrite map_map. rewrite (map_ext _ id); [apply map_id|].
    intros l. apply chars_of_chars. }
  rewrite Hlines.
  destruct (wrap_loop_spec (help_rows h) (text_box_w w - 4) (chars help))
    as (Hn & Hall & rest & Hrest & Hdone).
  split; [lia|]. split.
  - eapply Forall_impl; [exact Hall|]. intros l Hl. cbn beta in *. lia.
  - exists rest. auto.
Qed.

Lemma help_text_wraps_witness :
  (length (map chars (help_lines 24 80
     "Number to forward calls to unconditionally.")) <= help_rows 24 <= 6)%nat.
Proof.
  apply (help_text_wraps 24 80 "Number to forward calls to unconditionally.").
  simpl. lia.
Defined.

(** *** The window of the option picker *)

Lemma geb_false a b : a < b -> (a >=? b) = false.
Proof. intros H. rewrite Z.geb_leb. apply Z.leb_gt. exact H. Qed.

Lemma geb_false_lt a b : (a >=? b) = false -> a < b.
Proof. rewrite Z.geb_leb. apply Z.leb_gt. Qed.

Lemma drawn_from_full list_len n : forall idx,
  idx + Z.of_nat n <= list_len -> drawn_from list_len n idx = seqZ idx (Z.of_nat n).
Proof.
  induction n as [|n IH]; intros idx H; cbn [drawn_from]; [reflexivity|].
  rewrite geb_false by lia.
  rewrite IH by lia.
  replace (Z.of_nat (S n)) with (Z.succ (Z.of_nat n)) by lia.
  rewrite (seqZ_cons idx) by lia. f_equal. f_equal; lia.
Qed.

Lemma scroll_check_window visible cnt sel top :
  1 <= visible <= cnt -> 0 <= sel < cnt -> 0 <= top -> top + visible <= cnt ->
  let top' := scroll_check visible sel top in
  0 <= top' /\ top' + visible <= cnt /\ top' <= sel < top' + visible.
Proof.
  intros Hv Hs Ht Hc. unfold scroll_check.
  destruct (sel <? top) eqn:E1; [apply Z.ltb_lt in E1 | apply Z.ltb_ge in E1].
  - cbv zeta. rewrite geb_false by lia. lia.
  - cbv zeta. destruct (sel >=? top + visible) eqn:E2.
    + apply Z.geb_le in E2. lia.
    + apply geb_false_lt in E2. lia.
Qed.

Lemma popup_screens_window cnt visible keys : forall sel top,
  1 <= visible <= cnt -> 0 <= sel < cnt -> 0 <= top -> top + visible <= cnt ->
  Forall (fun s =>
            0 <= highlighted s < cnt /\
            shown s = seqZ (scrolled s) visible /\
            0 <= scrolled s /\ scrolled s + visible <= cnt /\
            scrolled s <= highlighted s < scrolled s + visible)
         (popup_screens cnt visible sel top keys).
Proof.
  induction keys as [|ch keys IH]; intros sel top Hv Hs Ht Hc;
    cbn [popup_screens];
    destruct (scroll_check_window visible cnt sel top Hv Hs Ht Hc) as (H0 & H1 & H2);
    set (top' := scroll_check visible sel top) in *;
    (constructor;
     [cbn [highlighted scrolled shown]; split; [lia|]; split; [|lia];
      unfold drawn_options; rewrite drawn_from_full by lia; f_equal; lia|]).
  - constructor.
  - destruct ((ch =? KEY_UP) && (sel >? 0)) eqn:Eup.
    { apply andb_true_iff in Eup. destruct Eup as [_ Hp]. apply Z.gtb_lt in Hp.
      apply IH; lia. }
    destruct ((ch =? KEY_DOWN) && (sel <? cnt - 1)) eqn:Edown.
    { apply andb_true_iff in Edown. destruct Edown as [_ Hp]. apply Z.ltb_lt in Hp.
      apply IH; lia. }
    destruct (is_enter ch); [constructor|].
    destruct (ch =? 27); [constructor|].
    apply IH; lia.
Qed.

(** X20.  On a terminal of at least 9 rows, every screen that the option
    picker draws shows a full window of consecutive options that contains
    the highlighted one: the selection never scrolls out of sight, and the
    window never runs past either end of the list. *)
Theorem popup_keeps_selection_in_view (h : Z) (keys : list Z) (i : nat) (st : State) :
  9 <= h ->
  let f := field_at (fields st) i in
  0 <= opt_sel f < opt_count f ->
  let visible := visible_items h (opt_count f) in
  1 <= visible /\
  Forall (fun s =>
            In (highlighted s) (shown s) /\
            shown s = seqZ (scrolled s) visible /\
            0 <= scrolled s /\ scrolled s + visible <= opt_count f)
         (show_popup_screens h keys i st).
Proof.
  intros Hh f Hsel visible.
  assert (Hv : 1 <= visible <= opt_count f).
  { subst visible. unfold visible_items, popup_box_h. cbv zeta.
    destruct (opt_count f + 2 >? h - 6) eqn:E;
      [apply Z.gtb_lt in E | rewrite Z.gtb_ltb in E; apply Z.ltb_ge in E]; lia. }
  split; [lia|].
  unfold show_popup_screens. fold f. cbv zeta. fold visible.
  assert (Hinit : 0 <= initial_scroll visible (opt_sel f) /\
                  initial_scroll visible (opt_sel f) + visible <= opt_count f).
  { unfold initial_scroll. destruct (opt_sel f >=? visible) eqn:E.
    - apply Z.geb_le in E. lia.
    - apply geb_false_lt in E. lia. }
  eapply Forall_impl;
    [apply (popup_screens_window (opt_count f) visible keys); try lia|].
  intros s (Hs & Hshown & H0 & H1 & H2). cbn beta.
  split; [|auto].
  rewrite Hshown. apply list_elem_of_In, elem_of_seqZ. lia.
Qed.

Lemma popup_keeps_selection_in_view_witness :
  Forall (fun s => In (highlighted s) (shown s))
         (show_popup_screens 24 (replicate 40 KEY_DOWN) 52 built).
Proof.
  assert (Hsel : 0 <= opt_sel (field_at (fields built) 52)
                 < opt_count (field_at (fields built) 52)) by (vm_compute; split; congruence).
  eapply Forall_impl;
    [exact (proj2 (popup_keeps_selection_in_view 24 (replicate 40 KEY_DOWN) 52 built
                     ltac:(lia) Hsel))|].
  intros s Hs. apply Hs.
Defined.

(** *** The rows of the form *)

Lemma draw_rows_spec fs h so rows : forall py f_cnt,
  draw_rows fs h so rows py f_cnt
  = take (Z.to_nat (h - 4 - py))
      (drop (Z.to_nat (so - f_cnt))
         (List.filter (fun i => negb (hidden (field_at fs i))) rows)).
Proof.
  induction rows as [|i rows IH]; intros py f_cnt; cbn [draw_rows List.filter].
  - rewrite drop_nil, take_nil. reflexivity.
  - destruct (hidden (field_at fs i)); cbn [negb]; [apply IH|].
    destruct ((f_cnt >=? so) && (py <? h - 4)) eqn:E.
    + apply andb_true_iff in E. destruct E as [E1 E2].
      apply Z.geb_le in E1. apply Z.ltb_lt in E2.
      replace (Z.to_nat (so - f_cnt)) with 0%nat by lia. cbn [drop].
      replace (Z.to_nat (h - 4 - py)) with (S (Z.to_nat (h - 4 - (py + 1)))) by lia.
      cbn [take]. f_equal. rewrite IH.
      replace (Z.to_nat (so - (f_cnt + 1))) with 0%nat by lia. reflexivity.
    + rewrite IH. apply andb_false_iff in E. destruct E as [E|E].
      * apply geb_false_lt in E.
        replace (Z.to_nat (so - f_cnt)) with (S (Z.to_nat (so - (f_cnt + 1)))) by lia.
        reflexivity.
      * apply Z.ltb_ge in E.
        replace (Z.to_nat (h - 4 - py)) with 0%nat by lia. reflexivity.
Qed.

Lemma form_rows (st : State) (h scroll_off : Z) :
  drawn_rows st h scroll_off
  = take (Z.to_nat (h - 6)) (drop (Z.to_nat scroll_off) (visible_rows st)) /\
  drawn_rows st h scroll_off `sublist_of` visible_rows st.
Proof.
  assert (Heq : drawn_rows st h scroll_off
    = take (Z.to_nat (h - 6)) (drop (Z.to_nat scroll_off) (visible_rows st))).
  { unfold drawn_rows, visible_rows. rewrite draw_rows_spec.
    f_equal; [lia|]. f_equal. lia. }
  split; [exact Heq|].
  rewrite Heq. etransitivity; [apply sublist_take | apply sublist_drop].
Qed.

(** X21.  The form that [main] draws shows the rows that are not hidden,
    in registry order, from the one that [scroll_off] of them precede,
    and at most [h - 6] of them; a hidden row is never drawn and no row is
    drawn twice. *)
Theorem form_shows_visible_rows (st : State) (h scroll_off : Z) :
  drawn_rows st h scroll_off
  = take (Z.to_nat (h - 6)) (drop (Z.to_nat scroll_off) (visible_rows st)) /\
  Forall (fun i => hidden (field_at (fields st) i) = false /\
                   (i < total_fields st)%nat) (drawn_rows st h scroll_off) /\
  NoDup (drawn_rows st h scroll_off) /\
  (Z.of_nat (length (drawn_rows st h scroll_off)) <= Z.max 0 (h - 6)).
Proof.
  destruct (form_rows st h scroll_off) as [Heq Hsl].
  split; [exact Heq|]. split; [|split].
  - apply List.Forall_forall. intros i Hi. apply list_elem_of_In in Hi.
    apply (elem_of_sublist _ _ _ Hi), list_elem_of_In in Hsl.
    unfold visible_rows in Hsl. apply filter_In in Hsl. destruct Hsl as [Hr Hv].
    apply in_seq in Hr. apply negb_true_iff in Hv. split; [exact Hv|lia].
  - apply (sublist_NoDup _ (visible_rows st)); [|exact Hsl].
    unfold visible_rows. apply NoDup_ListNoDup, List.NoDup_filter, seq_NoDup.
  - rewrite Heq, length_take. lia.
Qed.

Lemma visible_rows_lookup (st : State) (i : nat) :
  (i < total_fields st)%nat -> hidden (field_at (fields st) i) = false ->
  visible_rows st !! rows_above st i = Some i.
Proof.
  intros Hi Hv. unfold visible_rows, rows_above.
  replace (total_fields st) with (i + S (total_fields st - S i))%nat by lia.
  rewrite seq_app, List.filter_app. cbn [seq List.filter Nat.add].
  rewrite Hv. cbn [negb]. apply list_lookup_middle. reflexivity.
Qed.

Lemma visible_rows_NoDup (st : State) : NoDup (visible_rows st).
Proof.
  unfold visible_rows. apply NoDup_ListNoDup, List.NoDup_filter, seq_NoDup.
Qed.

(** X22.  A row that is not hidden is on the screen exactly when the
    number of rows above it that are not hidden lies in the window of
    [h - 6] rows that starts at [scroll_off]: the window counts the rows
    that are not hidden, not the indices of the registry. *)
Theorem row_drawn_iff (st : State) (h scroll_off : Z) (i : nat) :
  (i < total_fields st)%nat -> hidden (field_at (fields st) i) = false ->
  0 <= scroll_off ->
  In i (drawn_rows st h scroll_off) <->
  scroll_off <= Z.of_nat (rows_above st i) < scroll_off + (h - 6).
Proof.
  intros Hi Hv Hso.
  pose proof (visible_rows_lookup st i Hi Hv) as Hat.
  pose proof (visible_rows_NoDup st) as Hnd.
  destruct (form_rows st h scroll_off) as [Heq _]. rewrite Heq.
  rewrite <- list_elem_of_In, elem_of_take. split.
  - intros (k & Hk & Hlt). rewrite lookup_drop in Hk.
    pose proof (NoDup_lookup _ _ _ _ Hnd Hk Hat) as E. lia.
  - intros Hr. exists (rows_above st i - Z.to_nat scroll_off)%nat.
    rewrite lookup_drop. split; [|lia].
    replace (Z.to_nat scroll_off + (rows_above st i - Z.to_nat scroll_off))%nat
      with (rows_above st i) by lia.
    exact Hat.
Qed.

Lemma row_drawn_iff_witness :
  ~ In 96%nat (drawn_rows built 24 (main_scroll (24 - 6) 96 0)).
Proof.
  assert (H1 : (96 < total_fields built)%nat).
  { replace (total_fields built) with 105%nat by (vm_compute; reflexivity). lia. }
  assert (H2 : hidden (field_at (fields built) 96) = false)
    by (vm_compute; reflexivity).
  assert (Hr : rows_above built 96 = 77%nat) by (vm_compute; reflexivity).
  assert (Hs : main_scroll (24 - 6) 96 0 = 79) by reflexivity.
  rewrite Hs. intros H.
  pose proof (proj1 (row_drawn_iff built 24 79 96 H1 H2 ltac:(lia)) H) as Hw.
  rewrite Hr in Hw. lia.
Defined.

End Screens.

(* ===================================================================== *)
(** ** Moving the cursor                                                  *)
(* ===================================================================== *)

Section Arrows.

Lemma up_while_between fs c : forall j,
  (up_while fs c < j <= c)%nat -> skipped fs j = true.
Proof.
  induction c as [|c IH]; intros j Hj; cbn [up_while] in Hj; [lia|].
  destruct (skipped fs (S c)) eqn:Hs; [|lia].
  destruct (Nat.eq_dec j (S c)) as [->|Hne]; [exact Hs|].
  apply IH. lia.
Qed.

Lemma down_while_between fs d : forall c j,
  (c <= j < down_while fs d c)%nat -> skipped fs j = true.
Proof.
  induction d as [|d IH]; intros c j Hj; cbn [down_while] in Hj; [lia|].
  destruct (skipped fs c) eqn:Hs; [|lia].
  destruct (Nat.eq_dec j c) as [->|Hne]; [exact Hs|].
  apply (IH (S c)). lia.
Qed.

(** X23.  In every state the program passes through, the Up key moves the
    cursor to the nearest row above that is neither hidden nor a section
    header, and there always is one; the Down key moves it to the nearest
    such row below or, when there is none, to the last row of the form,
    hidden or not. *)
Theorem arrows_reach_nearest_field (st : State) :
  reachable st ->
  ((1 < current st)%nat ->
   let c := current (key_up st) in
   (1 <= c < current st)%nat /\ skipped (fields st) c = false /\
   forall j, (c < j < current st)%nat -> skipped (fields st) j = true) /\
  ((current st < total_fields st - 1)%nat ->
   let c := current (key_down st) in
   (current st < c <= total_fields st - 1)%nat /\
   (forall j, (current st < j < c)%nat -> skipped (fields st) j = true) /\
   (skipped (fields st) c = true -> c = (total_fields st - 1)%nat)).
Proof.
  intros Hr. apply reachable_session in Hr.
  destruct Hr as ((Hsh & _) & _ & Hh & _ & _). split.
  - intros Hc. unfold key_up. cbn [with_current current]. cbv zeta.
    assert (H1 : skipped (fields st) 1 = false).
    { unfold skipped. rewrite Hh, (shape_type st 1 Hsh), (proj1 built_rows). reflexivity. }
    destruct (up_while_row (fields st) (current st - 1) H1 ltac:(lia)) as [Hb Hk].
    split; [lia|]. split; [exact Hk|].
    intros j Hj. apply (up_while_between (fields st) (current st - 1)). lia.
  - intros Hc. unfold key_down. cbn [with_current current]. cbv zeta.
    set (d := (total_fields st - 1 - S (current st))%nat).
    destruct (down_while_row (fields st) d (S (current st))) as [Hb Hk].
    split; [lia|]. split.
    + intros j Hj. apply (down_while_between (fields st) d (S (current st))). lia.
    + intros Hs. destruct Hk as [Hk|Hk]; [lia | congruence].
Qed.

Lemma arrows_reach_nearest_field_witness :
  current (key_down (walk_to 200 96 built)) = 104%nat /\
  hidden (field_at (fields (walk_to 200 96 built)) 104) = true.
Proof.
  assert (Hc : (current (walk_to 200 96 built) < total_fields (walk_to 200 96 built) - 1)%nat).
  { replace (current (walk_to 200 96 built)) with 96%nat by (vm_compute; reflexivity).
    replace (total_fields (walk_to 200 96 built)) with 105%nat by (vm_compute; reflexivity).
    lia. }
  assert (Hs : skipped (fields (walk_to 200 96 built))
                 (current (key_down (walk_to 200 96 built))) = true)
    by (vm_compute; reflexivity).
  split; [|vm_compute; reflexivity].
  rewrite (proj2 (proj2 (proj2 (arrows_reach_nearest_field (walk_to 200 96 built)
             (reachable_walk 200 96 built reachable_built)) Hc)) Hs).
  vm_compute. reflexivity.
Defined.

End Arrows.
